(** * caddy-geo-ip: the shared database state, its pool and the request resolver

    A shallow embedding of [main.go], [state.go] and [caddyfile.go] of the
    GeoIP handler: the [state] that owns the MaxMind reader, its reload and
    download operations, its teardown, the process-wide usage pool through
    which handler instances obtain it, [ServeHTTP], and the parser of the
    handler's Caddyfile directive.

    Go values are modelled as follows.  Strings are [string]; [int],
    [uint] and durations are [Z]; an [error] is its message and [nil] is
    [None]; pointers ([*state], [*maxminddb.Reader], channels) are indices
    into heaps kept in the [World]; a method with side effects is a
    function from the [World] to an [outcome], which is a normal return, a
    panic, or a goroutine blocked for ever. *)

From Stdlib Require Import ZArith String Ascii List Bool Lia DecimalString.
From stdpp Require Import base option list strings gmap.

Import ListNotations.
Open Scope string_scope.
Open Scope Z_scope.

(** ** Byte-level helpers on Go strings *)

Module gostring.

(** [len(s)] *)
Definition len (s : string) : Z := Z.of_nat (String.length s).

(** [s[i]]; the caller has checked [0 <= i < len(s)]. *)
Definition at_ (s : string) (i : Z) : option ascii :=
  if i <? 0 then None else String.get (Z.to_nat i) s.

(** [s[lo:hi]] *)
Definition slice (s : string) (lo hi : Z) : string :=
  String.substring (Z.to_nat lo) (Z.to_nat (hi - lo)) s.

(** [s[lo:]] *)
Definition from (s : string) (lo : Z) : string := slice s lo (len s).

(** [s[:hi]] *)
Definition upto (s : string) (hi : Z) : string := slice s 0 hi.

Fixpoint index_from (s : string) (c : ascii) (i : Z) : Z :=
  match s with
  | EmptyString => -1
  | String a s' => if Ascii.eqb a c then i else index_from s' c (i + 1)
  end.

(** [bytealg.IndexByteString(s, c)]: first index of [c] in [s], or -1. *)
Definition IndexByteString (s : string) (c : ascii) : Z := index_from s c 0.

Fixpoint last_from (s : string) (c : ascii) (i acc : Z) : Z :=
  match s with
  | EmptyString => acc
  | String a s' => last_from s' c (i + 1) (if Ascii.eqb a c then i else acc)
  end.

(** [last(s, c)] of package net: index of the rightmost [c], or -1.  The
    Go loop scans from the end; this scan keeps the latest hit. *)
Definition last (s : string) (c : ascii) : Z := last_from s c 0 (-1).

Definition byte_is (o : option ascii) (c : ascii) : bool :=
  match o with Some a => Ascii.eqb a c | None => false end.

Fixpoint has_prefix (p s : string) : bool :=
  match p, s with
  | EmptyString, _ => true
  | String a p', String b s' => Ascii.eqb a b && has_prefix p' s'
  | String _ _, EmptyString => false
  end.

Fixpoint drop (n : nat) (s : string) : string :=
  match n, s with
  | O, _ => s
  | S n', String _ s' => drop n' s'
  | S _, EmptyString => EmptyString
  end.

(** [strings.Replace(s, old, new, 1)] for a non-empty [old]: the first
    occurrence of [old] is replaced. *)
Fixpoint Replace1 (s old new : string) : string :=
  if has_prefix old s then new +:+ drop (String.length old) s
  else match s with
       | EmptyString => EmptyString
       | String a s' => String a (Replace1 s' old new)
       end.

End gostring.

(** Go errors are modelled by their message; [nil] is [None]. *)
Definition error := string.

(** The double-quote byte, for messages that quote their argument. *)
Definition dquote : string := String (ascii_of_nat 34) EmptyString.

(** ** Package net of the Go standard library

    [ServeHTTP] calls [net.SplitHostPort] and [net.ParseIP].  Both are
    transcribed from the standard library (ipsock.go, ip.go, parse.go).  An
    [IP] is Go's byte slice: sixteen bytes, an IPv4 address in its
    IPv4-in-IPv6 form. *)

Module net.
Import gostring.

Definition IP := list Z.

Definition code (a : ascii) : Z := Z.of_nat (nat_of_ascii a).

(** [&AddrError{Err: why, Addr: addr}] behind an empty host and port. *)
Definition addrErr (addr why : string) : string * string * option error :=
  ("", "", Some ("address " +:+ addr +:+ ": " +:+ why)).

Definition missingPort : string := "missing port in address".
Definition tooManyColons : string := "too many colons in address".

(** The first half of [SplitHostPort]: the host and the positions [j], [k]
    after which no bracket may occur, or the error returned. *)
Definition splitHost (hostport : string) (i : Z)
  : (string * string * option error) + (string * Z * Z) :=
  if byte_is (at_ hostport 0) "["%char then
    let end_ := IndexByteString hostport "]"%char in
    if end_ <? 0 then inl (addrErr hostport "missing ']' in address")
    else if end_ + 1 =? len hostport then inl (addrErr hostport missingPort)
    else if end_ + 1 =? i then inr (slice hostport 1 end_, 1, end_ + 1)
    else if byte_is (at_ hostport (end_ + 1)) ":"%char
         then inl (addrErr hostport tooManyColons)
         else inl (addrErr hostport missingPort)
  else
    let host := upto hostport i in
    if IndexByteString host ":"%char >=? 0
    then inl (addrErr hostport tooManyColons)
    else inr (host, 0, 0).

(** [net.SplitHostPort(hostport)]: (host, port, err). *)
Definition SplitHostPort (hostport : string) : string * string * option error :=
  let i := last hostport ":"%char in
  if i <? 0 then addrErr hostport missingPort
  else match splitHost hostport i with
       | inl failed => failed
       | inr (host, j, k) =>
           if IndexByteString (from hostport j) "["%char >=? 0
           then addrErr hostport "unexpected '[' in address"
           else if IndexByteString (from hostport k) "]"%char >=? 0
           then addrErr hostport "unexpected ']' in address"
           else (host, from hostport (i + 1), None)
       end.

Definition big : Z := 0xFFFFFF.

Definition is_digit (a : ascii) : bool := (48 <=? code a) && (code a <=? 57).
Definition is_lower_hex (a : ascii) : bool := (97 <=? code a) && (code a <=? 102).
Definition is_upper_hex (a : ascii) : bool := (65 <=? code a) && (code a <=? 70).

(** [dtoi(s)]: decimal prefix of [s] as (value, bytes consumed, ok). *)
Fixpoint dtoi_loop (s : string) (n i : Z) : Z * Z * bool :=
  let stop := if i =? 0 then (0, 0, false) else (n, i, true) in
  match s with
  | EmptyString => stop
  | String a s' =>
      if is_digit a then
        let n' := n * 10 + (code a - 48) in
        if n' >=? big then (big, i, false) else dtoi_loop s' n' (i + 1)
      else stop
  end.

Definition dtoi (s : string) : Z * Z * bool := dtoi_loop s 0 0.

(** [xtoi(s)]: hexadecimal prefix of [s] as (value, bytes consumed, ok). *)
Fixpoint xtoi_loop (s : string) (n i : Z) : Z * Z * bool :=
  let stop := if i =? 0 then (0, i, false) else (n, i, true) in
  match s with
  | EmptyString => stop
  | String a s' =>
      let digit :=
        if is_digit a then Some (code a - 48)
        else if is_lower_hex a then Some (code a - 97 + 10)
        else if is_upper_hex a then Some (code a - 65 + 10)
        else None in
      match digit with
      | None => stop
      | Some d =>
          let n' := n * 16 + d in
          if n' >=? big then (0, i, false) else xtoi_loop s' n' (i + 1)
      end
  end.

Definition xtoi (s : string) : Z * Z * bool := xtoi_loop s 0 0.

(** [IPv4(a, b, c, d)]: the sixteen-byte form. *)
Definition IPv4 (a b c d : Z) : IP :=
  [0; 0; 0; 0; 0; 0; 0; 0; 0; 0; 255; 255; a; b; c; d].

(** The loop of [parseIPv4] over the four octets; [p] holds the octets read
    so far and [i] is their number. *)
Fixpoint parseIPv4_loop (octets : nat) (i : Z) (s : string) (p : list Z)
  : option (list Z) :=
  match octets with
  | O => if len s =? 0 then Some p else None
  | S octets' =>
      if len s =? 0 then None
      else
        let dotted :=
          if i >? 0 then
            if byte_is (at_ s 0) "."%char then Some (from s 1) else None
          else Some s in
        match dotted with
        | None => None
        | Some s1 =>
            let '(n, c, ok) := dtoi s1 in
            if negb ok || (n >? 255) then None
            else if (c >? 1) && byte_is (at_ s1 0) "0"%char then None
            else parseIPv4_loop octets' (i + 1) (from s1 c) (p ++ [n])%list
        end
  end.

Definition parseIPv4 (s : string) : option IP :=
  match parseIPv4_loop 4 0 s [] with
  | Some [a; b; c; d] => Some (IPv4 a b c d)
  | _ => None
  end.

(** The loop of [parseIPv6].  [ip] holds the bytes written so far, so that
    Go's index [i] is its length; the result is the state when the loop is
    left (rest of the string, bytes, position of the ellipsis), or [None]
    where the Go code returns nil. *)
Fixpoint parseIPv6_loop (fuel : nat) (s : string) (ip : list Z) (ellipsis : Z)
  : option (string * list Z * Z) :=
  let i := Z.of_nat (length ip) in
  if i >=? 16 then Some (s, ip, ellipsis)
  else match fuel with
  | O => Some (s, ip, ellipsis)
  | S fuel' =>
      let '(n, c, ok) := xtoi s in
      if negb ok || (n >? 0xFFFF) then None
      else if (c <? len s) && byte_is (at_ s c) "."%char then
        if (ellipsis <? 0) && negb (i =? 12) then None
        else if i + 4 >? 16 then None
        else match parseIPv4 s with
             | None => None
             | Some ip4 => Some ("", (ip ++ List.skipn 12 ip4)%list, ellipsis)
             end
      else
        let ip := (ip ++ [Z.land (Z.shiftr n 8) 255; Z.land n 255])%list in
        let i := i + 2 in
        let s := from s c in
        if len s =? 0 then Some (s, ip, ellipsis)
        else if negb (byte_is (at_ s 0) ":"%char) || (len s =? 1) then None
        else
          let s := from s 1 in
          if byte_is (at_ s 0) ":"%char then
            if ellipsis >=? 0 then None
            else
              let s := from s 1 in
              if len s =? 0 then Some (s, ip, i)
              else parseIPv6_loop fuel' s ip i
          else parseIPv6_loop fuel' s ip ellipsis
  end.

(** After the loop: the whole string must be used, and a short address is
    filled with zero bytes at the ellipsis. *)
Definition expandEllipsis (s : string) (ip : list Z) (ellipsis : Z) : option IP :=
  let i := Z.of_nat (length ip) in
  if negb (len s =? 0) then None
  else if i <? 16 then
    if ellipsis <? 0 then None
    else
      let e := Z.to_nat ellipsis in
      Some (List.firstn e ip ++ List.repeat 0 (Z.to_nat (16 - i)) ++ List.skipn e ip)%list
  else if ellipsis >=? 0 then None
  else Some ip.

Definition parseIPv6 (s : string) : option IP :=
  let leading := (len s >=? 2) && byte_is (at_ s 0) ":"%char
                 && byte_is (at_ s 1) ":"%char in
  if leading && (len (from s 2) =? 0) then Some (List.repeat 0 16)
  else
    let s0 := if leading then from s 2 else s in
    let ellipsis0 := if leading then 0 else -1 in
    match parseIPv6_loop 8 s0 [] ellipsis0 with
    | None => None
    | Some (rest, ip, ellipsis) => expandEllipsis rest ip ellipsis
    end.

(** [net.ParseIP(s)]: the first '.' or ':' decides between the two forms;
    a string with neither is no address. *)
Fixpoint ParseIP_scan (whole s : string) : option IP :=
  match s with
  | EmptyString => None
  | String a s' =>
      if Ascii.eqb a "."%char then parseIPv4 whole
      else if Ascii.eqb a ":"%char then parseIPv6 whole
      else ParseIP_scan whole s'
  end.

Definition ParseIP (s : string) : option IP := ParseIP_scan s s.

End net.

(** ** Package strconv: [Atoi], for the account id read from the environment *)

Module strconv.
Import gostring.

Definition numError (s why : string) : error :=
  "strconv.Atoi: parsing " +:+ dquote +:+ s +:+ dquote +:+ ": " +:+ why.

Fixpoint digits (s : string) (n : Z) : option Z :=
  match s with
  | EmptyString => Some n
  | String a s' =>
      if net.is_digit a then digits s' (n * 10 + (net.code a - 48)) else None
  end.

Definition maxInt : Z := 2 ^ 63 - 1.
Definition minInt : Z := - 2 ^ 63.

(** [strconv.Atoi(s)] on a 64-bit platform: an optional sign and decimal
    digits; a value outside [int] is a range error. *)
Definition Atoi (s : string) : Z * option error :=
  let negative := byte_is (at_ s 0) "-"%char in
  let signed := negative || byte_is (at_ s 0) "+"%char in
  let body := if signed then from s 1 else s in
  if len body =? 0 then (0, Some (numError s "invalid syntax"))
  else match digits body 0 with
       | None => (0, Some (numError s "invalid syntax"))
       | Some n =>
           let v := if negative then - n else n in
           if v <? minInt then (minInt, Some (numError s "value out of range"))
           else if v >? maxInt then (maxInt, Some (numError s "value out of range"))
           else (v, None)
       end.

End strconv.

(** ** Package path/filepath (Unix): [Split] and [Join] *)

Module filepath.
Import gostring.

(** [filepath.Split(path)]: cut after the final separator. *)
Definition Split (path : string) : string * string :=
  let i := last path "/"%char in
  (upto path (i + 1), from path (i + 1)).

(** The elements of a path between its separators. *)
Fixpoint elements (s cur : string) : list string :=
  match s with
  | EmptyString => [cur]
  | String a s' =>
      if Ascii.eqb a "/"%char then cur :: elements s' ""
      else elements s' (cur +:+ String a EmptyString)
  end.

(** One element of [Clean]; [out] is the cleaned path so far, innermost
    element first.  Empty and "." elements vanish; ".." removes the
    element before it, is dropped at the root, and is kept at the start of
    a relative path. *)
Definition cleanStep (rooted : bool) (out : list string) (e : string)
  : list string :=
  if String.eqb e "" || String.eqb e "." then out
  else if String.eqb e ".." then
    match out with
    | [] => if rooted then [] else [".."]
    | top :: rest => if String.eqb top ".." then e :: out else rest
    end
  else e :: out.

Fixpoint joinSlash (l : list string) : string :=
  match l with
  | [] => ""
  | [e] => e
  | e :: l' => e +:+ "/" +:+ joinSlash l'
  end.

(** [filepath.Clean(path)] *)
Definition Clean (path : string) : string :=
  if String.eqb path "" then "."
  else
    let rooted := byte_is (at_ path 0) "/"%char in
    let out := List.fold_left (cleanStep rooted) (elements path "") [] in
    let body := joinSlash (List.rev out) in
    if rooted then "/" +:+ body
    else if String.eqb body "" then "." else body.

(** [filepath.Join(a, b)]: the non-empty elements joined and cleaned. *)
Definition Join (a b : string) : string :=
  if negb (String.eqb a "") then Clean (a +:+ "/" +:+ b)
  else if negb (String.eqb b "") then Clean b
  else "".

End filepath.

(** ** The MaxMind database reader ([maxminddb.Reader]) *)

(** Modelled from the spec: the declaration of the handler's [Record] type is
    not among the sources.  It is the record decoded by a lookup; [ServeHTTP]
    reads the ISO code of its country and, as the indicator of a match, the
    country's geoname id.  [Country] is the struct of its one field. *)
Record Country := { ISOCode : string; GeonameId : Z }.

(** Modelled from the spec: the [Record] type itself (see [Country]). *)
Record Record_ := { Country_ : Country }.

(** [var record Record]: the zero value, left untouched by a lookup that
    matches no entry. *)
Definition zeroRecord : Record_ :=
  {| Country_ := {| ISOCode := ""; GeonameId := 0 |} |}.

(** What a database answers for an address. *)
Inductive answer :=
| LookupError (e : error)
| NoMatch
| Match (r : Record_).

(** The content of a database file, as far as lookups observe it. *)
Definition mmdb := net.IP -> answer.

(** An open reader: the database it maps, whether [Close] has been called
    on it, and the error its first [Close] returns from unmapping. *)
Record Reader := {
  db : mmdb;
  closed : bool;
  closeErr : option error;
}.

(** A file at a path: present but refused by [maxminddb.Open], or a valid
    database whose reader will return [closing] from its [Close]. *)
Inductive file :=
| Unreadable (e : error)
| Database (d : mmdb) (closing : option error).

(** ** The handler configuration and the shared state *)

(** [geoipupdate.Config], as [state.Provision] fills it in. *)
Record Config := {
  cfg_AccountID : Z;
  DatabaseDirectory : string;
  LicenseKey : string;
  LockFile : string;
  URL : string;
  EditionIDs : list string;
  PreserveFileTimes : bool;
  Verbose : bool;
  RetryFor : Z;
}.

(** [type state struct], the logger apart. *)
Record state := {
  mu : bool;              (* sync.Mutex: true while held *)
  dbInst : option nat;    (* *maxminddb.Reader *)
  done : option nat;      (* chan bool *)
  dbPath : string;
  config : option Config;
}.

(** [type GeoIP struct], the logger apart. *)
Record GeoIP := {
  AccountID : Z;
  APIKey : string;
  DbPath : string;
  DownloadFrequency : Z;
  ReloadFrequency : Z;
  TrustHeader : string;
  OverrideCountryCode : string;
  state_ : option nat;    (* *state *)
}.

(** An entry of caddy's usage pool. *)
Record usagePoolVal := {
  refs : Z;
  value : option nat;
  err : option error;
}.

(** The two ticker loops that [state.Provision] starts. *)
Inductive loop := DownloadLoop | ReloadLoop.

Record goroutine := {
  runs : loop;
  on : nat;               (* the state the closure captured *)
  every : Z;              (* the ticker's period *)
}.

(** What one download attempt does: the error of creating the local
    writer, the error of the HTTP reader's [Get], and the disk
    afterwards. *)
Record fetched := {
  writerErr : option error;
  getErr : option error;
  disk : gmap string file;
}.

Inductive level := Debug | Info | Warn | Error.

(** Observable steps, recorded in the order they happen. *)
Inductive event :=
| Log (l : level) (msg : string)
| Opened (path : string) (h : nat)
| Installed (s : nat) (h : nat)        (* state.dbInst = newInstance *)
| Closed (h : nat)                     (* Reader.Close() *)
| ChanClosed (c : nat)                 (* close(state.done) *)
| Started (g : goroutine)              (* go func() { ... }() *)
| Downloaded (edition : string)        (* dbReader.Get(dbWriter, edition) *)
| LookedUp (h : nat) (addr : net.IP).  (* Reader.Lookup(addr, &record) *)

(** The process and its surroundings. *)
Record World := {
  fs : gmap string file;               (* the files on disk *)
  environ : gmap string string;        (* the process environment *)
  remote : nat -> Config -> string -> gmap string file -> fetched;
  attempts : nat;                      (* downloads attempted so far *)
  readers : list Reader;               (* heap of readers *)
  chans : list bool;                   (* heap of channels: closed? *)
  states : list state;                 (* heap of states *)
  pool : gmap string usagePoolVal;     (* var pool = caddy.NewUsagePool() *)
  goroutines : list goroutine;
  trace : list event;                  (* newest event first *)
}.

Definition with_fs (f : gmap string file) (w : World) : World :=
  {| fs := f; environ := environ w; remote := remote w;
     attempts := attempts w; readers := readers w; chans := chans w;
     states := states w; pool := pool w; goroutines := goroutines w;
     trace := trace w |}.

Definition with_attempts (n : nat) (w : World) : World :=
  {| fs := fs w; environ := environ w; remote := remote w;
     attempts := n; readers := readers w; chans := chans w;
     states := states w; pool := pool w; goroutines := goroutines w;
     trace := trace w |}.

Definition with_readers (l : list Reader) (w : World) : World :=
  {| fs := fs w; environ := environ w; remote := remote w;
     attempts := attempts w; readers := l; chans := chans w;
     states := states w; pool := pool w; goroutines := goroutines w;
     trace := trace w |}.

Definition with_chans (l : list bool) (w : World) : World :=
  {| fs := fs w; environ := environ w; remote := remote w;
     attempts := attempts w; readers := readers w; chans := l;
     states := states w; pool := pool w; goroutines := goroutines w;
     trace := trace w |}.

Definition with_states (l : list state) (w : World) : World :=
  {| fs := fs w; environ := environ w; remote := remote w;
     attempts := attempts w; readers := readers w; chans := chans w;
     states := l; pool := pool w; goroutines := goroutines w;
     trace := trace w |}.

Definition with_pool (p : gmap string usagePoolVal) (w : World) : World :=
  {| fs := fs w; environ := environ w; remote := remote w;
     attempts := attempts w; readers := readers w; chans := chans w;
     states := states w; pool := p; goroutines := goroutines w;
     trace := trace w |}.

Definition with_goroutines (l : list goroutine) (w : World) : World :=
  {| fs := fs w; environ := environ w; remote := remote w;
     attempts := attempts w; readers := readers w; chans := chans w;
     states := states w; pool := pool w; goroutines := l;
     trace := trace w |}.

Definition with_trace (t : list event) (w : World) : World :=
  {| fs := fs w; environ := environ w; remote := remote w;
     attempts := attempts w; readers := readers w; chans := chans w;
     states := states w; pool := pool w; goroutines := goroutines w;
     trace := t |}.

(** ** Computations: return, panic, or block for ever *)

Inductive outcome (A : Type) :=
| Ret (a : A) (w : World)
| Panic (msg : string) (w : World)
| Blocked (w : World).

Arguments Ret {A} a w.
Arguments Panic {A} msg w.
Arguments Blocked {A} w.

Definition M (A : Type) : Type := World -> outcome A.

Definition ret {A} (a : A) : M A := fun w => Ret a w.

Definition bind {A B} (m : M A) (k : A -> M B) : M B := fun w =>
  match m w with
  | Ret a w' => k a w'
  | Panic msg w' => Panic msg w'
  | Blocked w' => Blocked w'
  end.

Notation "x <- m ;; k" := (bind m (fun x => k))
  (at level 100, m at next level, right associativity).
Notation "m ;; k" := (bind m (fun _ => k))
  (at level 100, right associativity).

Definition panic {A} (msg : string) : M A := fun w => Panic msg w.

(** [defer cleanup] around [body]: the deferred call runs when the body
    returns and when it panics; a panic goes on after it. *)
Definition defer {A} (cleanup : M unit) (body : M A) : M A := fun w =>
  match body w with
  | Ret a w' =>
      match cleanup w' with
      | Ret _ w'' => Ret a w''
      | Panic msg w'' => Panic msg w''
      | Blocked w'' => Blocked w''
      end
  | Panic msg w' =>
      match cleanup w' with
      | Ret _ w'' => Panic msg w''
      | Panic msg' w'' => Panic msg' w''
      | Blocked w'' => Blocked w''
      end
  | Blocked w' => Blocked w'
  end.

Definition emit (e : event) : M unit := fun w =>
  Ret tt (with_trace (e :: trace w) w).

(** A call on the logger; the structured fields are left out. *)
Definition log (l : level) (msg : string) : M unit := emit (Log l msg).

Definition nilDeref : string := "invalid memory address or nil pointer dereference".

(** Reading through a [*state]. *)
Definition deref (s : nat) : M state := fun w =>
  match states w !! s with
  | Some st => Ret st w
  | None => Panic nilDeref w
  end.

(** Writing through a [*state]. *)
Definition store (s : nat) (f : state -> state) : M unit := fun w =>
  match states w !! s with
  | Some st => Ret tt (with_states (<[s := f st]> (states w)) w)
  | None => Panic nilDeref w
  end.

Definition set_mu (b : bool) (st : state) : state :=
  {| mu := b; dbInst := dbInst st; done := done st; dbPath := dbPath st;
     config := config st |}.

Definition set_dbInst (h : option nat) (st : state) : state :=
  {| mu := mu st; dbInst := h; done := done st; dbPath := dbPath st;
     config := config st |}.

Definition set_done (c : option nat) (st : state) : state :=
  {| mu := mu st; dbInst := dbInst st; done := c; dbPath := dbPath st;
     config := config st |}.

Definition set_dbPath (p : string) (st : state) : state :=
  {| mu := mu st; dbInst := dbInst st; done := done st; dbPath := p;
     config := config st |}.

Definition set_config (c : option Config) (st : state) : state :=
  {| mu := mu st; dbInst := dbInst st; done := done st; dbPath := dbPath st;
     config := c |}.

(** [state.mu.Lock()]: with the mutex held and no other goroutine running
    to release it, the caller waits for ever. *)
Definition Lock (s : nat) : M unit :=
  st <- deref s ;;
  if mu st then (fun w => Blocked w) else store s (set_mu true).

(** [state.mu.Unlock()] *)
Definition Unlock (s : nat) : M unit :=
  st <- deref s ;;
  if mu st then store s (set_mu false)
  else panic "sync: unlock of unlocked mutex".

(** ** The collaborators: disk, reader, channel, fetcher, environment *)

(** [os.Stat(path)] followed by [errors.Is(err, os.ErrNotExist)]. *)
Definition notExist (path : string) : M bool := fun w =>
  Ret (bool_decide (fs w !! path = None)) w.

(** [maxminddb.Open(path)]: a fresh reader, or the error. *)
Definition Open (path : string) : M (error + nat) := fun w =>
  match fs w !! path with
  | Some (Database d closing) =>
      let h := length (readers w) in
      let r := {| db := d; closed := false; closeErr := closing |} in
      Ret (inr h)
          (with_trace (Opened path h :: trace w)
             (with_readers (readers w ++ [r])%list w))
  | Some (Unreadable e) => Ret (inl e) w
  | None => Ret (inl ("open " +:+ path +:+ ": no such file or directory")) w
  end.

Definition set_closed (r : Reader) : Reader :=
  {| db := db r; closed := true; closeErr := closeErr r |}.

(** [Reader.Close()]: the first call unmaps the file and returns what
    unmapping returns; a later call finds nothing to unmap. *)
Definition Close (h : nat) : M (option error) := fun w =>
  match readers w !! h with
  | None => Panic nilDeref w
  | Some r =>
      let w' := with_trace (Closed h :: trace w)
                  (with_readers (<[h := set_closed r]> (readers w)) w) in
      Ret (if closed r then None else closeErr r) w'
  end.

(** [Reader.Lookup(addr, &record)] on a zero record: the record afterwards
    and the error. *)
Definition Lookup (h : nat) (addr : net.IP) : M (Record_ * option error) := fun w =>
  match readers w !! h with
  | None => Panic nilDeref w
  | Some r =>
      let w' := with_trace (LookedUp h addr :: trace w) w in
      if closed r
      then Ret (zeroRecord, Some "cannot call Lookup on a closed database") w'
      else match db r addr with
           | LookupError e => Ret (zeroRecord, Some e) w'
           | NoMatch => Ret (zeroRecord, None) w'
           | Match rec => Ret (rec, None) w'
           end
  end.

(** [make(chan bool, 1)] *)
Definition makeChan : M nat := fun w =>
  Ret (length (chans w)) (with_chans (chans w ++ [false])%list w).

(** [close(c)] on a channel that is not nil. *)
Definition closeChan (c : nat) : M unit := fun w =>
  match chans w !! c with
  | Some false =>
      Ret tt (with_trace (ChanClosed c :: trace w)
                (with_chans (<[c := true]> (chans w)) w))
  | Some true => Panic "close of closed channel" w
  | None => Panic "close of nil channel" w
  end.

(** [go func() { ... }()] *)
Definition go (g : goroutine) : M unit := fun w =>
  Ret tt (with_trace (Started g :: trace w)
            (with_goroutines (goroutines w ++ [g])%list w)).

(** [database.NewLocalFileDatabaseWriter(path, lockFile, verbose)]: only
    its error is observed. *)
Definition NewLocalFileDatabaseWriter (cfg : Config) (path : string)
  : M (option error) := fun w =>
  Ret (writerErr (remote w (attempts w) cfg path (fs w))) w.

(** [dbReader.Get(dbWriter, edition)]: one download attempt; it leaves
    the disk as the remote side and the writer make it. *)
Definition Get (cfg : Config) (path edition : string) : M (option error) := fun w =>
  let r := remote w (attempts w) cfg path (fs w) in
  Ret (getErr r)
      (with_trace (Downloaded edition :: trace w)
         (with_attempts (S (attempts w)) (with_fs (disk r) w))).

(** [os.Getenv(key)] *)
Definition Getenv (key : string) : M string := fun w =>
  Ret (default "" (environ w !! key)) w.

(** ** state.go *)

(** The body of [reloadDatabase], run while the mutex is held. *)
Definition reloadLocked (s : nat) : M (option error) :=
  st <- deref s ;;
  absent <- notExist (dbPath st) ;;
  if absent then
    log Warn "database does not exist" ;;
    ret None
  else
    opened <- Open (dbPath st) ;;
    match opened with
    | inl e => ret (Some e)
    | inr newInstance =>
        (* keep a reference to the old instance *)
        st <- deref s ;;
        let oldInstance := dbInst st in
        store s (set_dbInst (Some newInstance)) ;;
        emit (Installed s newInstance) ;;
        match oldInstance with
        | Some old =>
            log Info "closing old database" ;;
            Close old
        | None =>
            log Info "reload successful" ;;
            ret None
        end
    end.

(** [func (state *state) reloadDatabase() error] *)
Definition reloadDatabase (s : nat) : M (option error) :=
  log Info "reloading database" ;;
  Lock s ;;
  defer (Unlock s) (reloadLocked s).

(** [func (state *state) downloadDatabase() error] *)
Definition downloadDatabase (s : nat) : M (option error) :=
  st <- deref s ;;
  match config st with
  | None => panic nilDeref
  | Some cfg =>
      match EditionIDs cfg with
      | [] => panic "index out of range [0] with length 0"
      | edition :: _ =>
          log Info "starting download" ;;
          werr <- NewLocalFileDatabaseWriter cfg (dbPath st) ;;
          match werr with
          | Some _ => log Error "creating maxmind db writer"
          | None => ret tt
          end ;;
          gerr <- Get cfg (dbPath st) edition ;;
          match gerr with
          | Some _ => log Error "getting database"
          | None => ret tt
          end ;;
          log Info "finished download" ;;
          reloadDatabase s
      end
  end.

(** [func (state *state) logStatus()] *)
Definition logStatus (s : nat) : M unit :=
  st <- deref s ;;
  match dbInst st with
  | None => log Info "no geo database available"
  | Some _ => log Debug "geo database available"
  end.

(** The body of [Destruct], run while the mutex is held. *)
Definition destructLocked (s : nat) : M (option error) :=
  st <- deref s ;;
  (* stop all background tasks *)
  match done st with
  | Some c => closeChan c
  | None => ret tt
  end ;;
  st <- deref s ;;
  match dbInst st with
  | Some h => Close h
  | None => ret None
  end.

(** [func (state *state) Destruct() error] *)
Definition Destruct (s : nat) : M (option error) :=
  Lock s ;;
  defer (Unlock s) (destructLocked s).

Definition minute : Z := 60 * 1000000000.

(** The test that selects the download ticker:
    [m.AccountID > 0 && m.APIKey != "" && m.DownloadFrequency > 0]. *)
Definition downloadMode (m : GeoIP) : bool :=
  (AccountID m >? 0) && negb (String.eqb (APIKey m) EmptyString)
  && (DownloadFrequency m >? 0).

(** The [geoipupdate.Config] literal of [state.Provision], for the path
    stored in the state. *)
Definition newConfig (m : GeoIP) (path : string) : Config :=
  let '(directoryPath, filename) := filepath.Split path in
  let edition := gostring.Replace1 filename ".mmdb" "" in
  {| cfg_AccountID := AccountID m;
     DatabaseDirectory := directoryPath;
     LicenseKey := APIKey m;
     LockFile := filepath.Join directoryPath ".geoipupdate.lock";
     URL := "https://updates.maxmind.com";
     EditionIDs := [edition];
     PreserveFileTimes := true;
     Verbose := true;
     RetryFor := 5 * minute |}.

(** The tail of [state.Provision]: an error of the reload is wrapped by
    [fmt.Errorf("cannot open database file %s: %v", m.DbPath, err)]. *)
Definition cannotOpen (m : GeoIP) (failed : option error) : option error :=
  match failed with
  | Some e => Some ("cannot open database file " +:+ DbPath m +:+ ": " +:+ e)
  | None => None
  end.

(** [func (state *state) Provision(m *GeoIP) error] *)
Definition state_Provision (s : nat) (m : GeoIP) : M (option error) :=
  c <- makeChan ;;
  store s (set_done (Some c)) ;;
  store s (set_dbPath (DbPath m)) ;;
  (* start the reload or the refresh timer *)
  if downloadMode m then
    log Info "starting download ticker" ;;
    st <- deref s ;;
    store s (set_config (Some (newConfig m (dbPath st)))) ;;
    (* download the database *)
    go {| runs := DownloadLoop; on := s; every := DownloadFrequency m |} ;;
    downloadDatabase s
  else
    (if ReloadFrequency m >? 0 then
       (* start the reload frequency *)
       log Info "starting reload ticker" ;;
       go {| runs := ReloadLoop; on := s; every := ReloadFrequency m |}
     else ret tt) ;;
    (* assume the database is local *)
    failed <- reloadDatabase s ;;
    ret (cannotOpen m failed).

(** One turn of a ticker loop when the ticker fires: the action runs and
    its error is logged. *)
Definition tick (g : goroutine) : M unit :=
  match runs g with
  | DownloadLoop =>
      failed <- downloadDatabase (on g) ;;
      match failed with
      | Some _ => log Error "downloading database failed"
      | None => ret tt
      end
  | ReloadLoop =>
      failed <- reloadDatabase (on g) ;;
      match failed with
      | Some _ => log Error "reload database failed"
      | None => ret tt
      end
  end.

(** ** caddy's usage pool *)

(** [upv.value = value] on the entry under [key], while it is in the pool. *)
Definition set_value (v : option nat) (upv : usagePoolVal) : usagePoolVal :=
  {| refs := refs upv; value := v; err := err upv |}.

(** The value of an [int32] after an addition: two's complement. *)
Definition int32 (z : Z) : Z := (z + 2 ^ 31) mod 2 ^ 32 - 2 ^ 31.

(** [atomic.AddInt32(&upv.refs, 1)] *)
Definition add_ref (upv : usagePoolVal) : usagePoolVal :=
  {| refs := int32 (refs upv + 1); value := value upv; err := err upv |}.

(** [pool.LoadOrNew(key, construct)]: (value, loaded, err).  A key that is
    in the pool gains a reference and its value is returned; otherwise an
    entry with one reference is inserted, the constructor runs, and its
    value is stored, or the entry is deleted when it fails.  Each call is
    one step: the pool's lock makes concurrent calls take effect in some
    order. *)
Definition LoadOrNew (key : string) (construct : M (option nat * option error))
  : M (option nat * bool * option error) := fun w =>
  match pool w !! key with
  | Some upv =>
      Ret (value upv, true, err upv)
          (with_pool (<[key := add_ref upv]> (pool w)) w)
  | None =>
      let upv := {| refs := 1; value := None; err := None |} in
      match construct (with_pool (<[key := upv]> (pool w)) w) with
      | Ret (v, None) w' =>
          Ret (v, false, None) (with_pool (alter (set_value v) key (pool w')) w')
      | Ret (v, Some e) w' =>
          Ret (v, false, Some e) (with_pool (delete key (pool w')) w')
      | Panic msg w' => Panic msg w'
      | Blocked w' => Blocked w'
      end
  end.

(** ** main.go *)

Definition set_AccountID (i : Z) (m : GeoIP) : GeoIP :=
  {| AccountID := i; APIKey := APIKey m; DbPath := DbPath m;
     DownloadFrequency := DownloadFrequency m;
     ReloadFrequency := ReloadFrequency m; TrustHeader := TrustHeader m;
     OverrideCountryCode := OverrideCountryCode m; state_ := state_ m |}.

Definition set_APIKey (k : string) (m : GeoIP) : GeoIP :=
  {| AccountID := AccountID m; APIKey := k; DbPath := DbPath m;
     DownloadFrequency := DownloadFrequency m;
     ReloadFrequency := ReloadFrequency m; TrustHeader := TrustHeader m;
     OverrideCountryCode := OverrideCountryCode m; state_ := state_ m |}.

Definition set_OverrideCountryCode (c : string) (m : GeoIP) : GeoIP :=
  {| AccountID := AccountID m; APIKey := APIKey m; DbPath := DbPath m;
     DownloadFrequency := DownloadFrequency m;
     ReloadFrequency := ReloadFrequency m; TrustHeader := TrustHeader m;
     OverrideCountryCode := c; state_ := state_ m |}.

Definition set_state (s : option nat) (m : GeoIP) : GeoIP :=
  {| AccountID := AccountID m; APIKey := APIKey m; DbPath := DbPath m;
     DownloadFrequency := DownloadFrequency m;
     ReloadFrequency := ReloadFrequency m; TrustHeader := TrustHeader m;
     OverrideCountryCode := OverrideCountryCode m; state_ := s |}.

(** [state := state{logger: ctx.Logger(m)}] and its address. *)
Definition newState : M nat := fun w =>
  let st := {| mu := false; dbInst := None; done := None; dbPath := "";
               config := None |} in
  Ret (length (states w)) (with_states (states w ++ [st])%list w).

(** The constructor handed to the pool:
    [state.Provision(m); return &state, nil]. *)
Definition construct (m : GeoIP) : M (option nat * option error) :=
  s <- newState ;;
  _ <- state_Provision s m ;;
  ret (Some s, None).

(** The environment overrides at the head of [GeoIP.Provision]; the error
    is that of a malformed account id. *)
Definition loadEnv (m : GeoIP) : M (GeoIP * option error) :=
  account <- Getenv "GEOIP_ACCOUNT_ID" ;;
  let '(i, failed) := strconv.Atoi account in
  if negb (String.eqb account "") && bool_decide (failed <> None) then
    ret (m, option_map (fun e => "reading account id: " +:+ e) failed)
  else
    let m := if negb (String.eqb account "") then set_AccountID i m else m in
    key <- Getenv "GEOIP_API_KEY" ;;
    let m := if negb (String.eqb key "") then set_APIKey key m else m in
    code <- Getenv "GEOIP_OVERRIDE_COUNTRY_CODE" ;;
    let m := if negb (String.eqb code "")
             then set_OverrideCountryCode code m else m in
    ret (m, None).

(** [func (m *GeoIP) Provision(ctx caddy.Context) error]: the handler
    instance after the call, and the error. *)
Definition GeoIP_Provision (m : GeoIP) : M (GeoIP * option error) :=
  loaded <- loadEnv m ;;
  match loaded with
  | (m, Some e) => ret (m, Some e)
  | (m, None) =>
      got <- LoadOrNew "geoip.state" (construct m) ;;
      match got with
      | (_, _, Some e) =>
          log Error "unable to load previous state" ;;
          ret (m, Some e)
      | (Some s, _, None) =>
          let m := set_state (Some s) m in
          logStatus s ;;
          ret (m, None)
      | (None, _, None) => ret (m, None)
      end
  end.

(** An [*http.Request] as the handler uses it: the peer address, the
    header as [Header.Get] reads it (empty when absent) and the replacer of
    the request context. *)
Record Request := {
  RemoteAddr : string;
  HeaderGet : string -> string;
  repl : gmap string string;
}.

Definition set_RemoteAddr (a : string) (r : Request) : Request :=
  {| RemoteAddr := a; HeaderGet := HeaderGet r; repl := repl r |}.

(** [repl.Set(key, val)] *)
Definition Set_ (key val : string) (r : Request) : Request :=
  {| RemoteAddr := RemoteAddr r; HeaderGet := HeaderGet r;
     repl := <[key := val]> (repl r) |}.

(** How [ServeHTTP] ends: [return next.ServeHTTP(w, r)] or [return err]. *)
Inductive served :=
| Next (r : Request)
| Fail (e : error).

(** The head of [ServeHTTP]: a trusted header that is configured and
    present replaces the peer address of the request. *)
Definition trusted (m : GeoIP) (r : Request) : Request :=
  if negb (String.eqb (TrustHeader m) "")
     && negb (String.eqb (HeaderGet r (TrustHeader m)) "")
  then set_RemoteAddr (HeaderGet r (TrustHeader m)) r
  else r.

(** [func (m *GeoIP) ServeHTTP(w, r, next) error] *)
Definition ServeHTTP (m : GeoIP) (r : Request) : M served :=
  let r := trusted m r in
  log Debug "loading ip address" ;;
  let '(remoteIp, _, failed) := net.SplitHostPort (RemoteAddr r) in
  match failed with
  | Some _ => log Warn "cannot split IP address"
  | None => ret tt
  end ;;
  (* Get the record from the database *)
  match net.ParseIP remoteIp with
  | None =>
      log Warn "cannot parse IP address" ;;
      ret (Next r)
  | Some addr =>
      st <- match state_ m with
            | Some s => deref s
            | None => panic nilDeref
            end ;;
      match dbInst st with
      | None =>
          log Warn "no database loaded, skipping geoip lookup" ;;
          let r := Set_ "geoip.country_code" "--" r in
          (* local development - force the country code to a known value *)
          let r := if negb (String.eqb (OverrideCountryCode m) "")
                   then Set_ "geoip.country_code" (OverrideCountryCode m) r
                   else r in
          ret (Next r)
      | Some h =>
          looked <- Lookup h addr ;;
          match looked with
          | (_, Some e) =>
              log Warn "cannot lookup IP address" ;;
              ret (Fail e)
          | (record, None) =>
              let r := Set_ "geoip.country_code"
                         (ISOCode (Country_ record)) r in
              log Debug "found maxmind data" ;;
              (* local development - force the country code to a known value *)
              let r := if negb (String.eqb (OverrideCountryCode m) "")
                          && (GeonameId (Country_ record) =? 0)
                       then Set_ "geoip.country_code" (OverrideCountryCode m) r
                       else r in
              ret (Next r)
          end
      end
  end.

(** The code that a request carries on to the next handler. *)
Definition country_code (r : Request) : option string :=
  repl r !! "geoip.country_code".

(** ** Reading a run *)

(** The events of a run from [w] to [w'], oldest first. *)
Definition since (w w' : World) : list event :=
  List.rev (List.firstn (length (trace w') - length (trace w)) (trace w')).

Definition isClosed (h : nat) (e : event) : bool :=
  match e with
  | Closed h' => Nat.eqb h h'
  | _ => false
  end.

(** How often [Close] was called on the reader [h] in a run. *)
Definition closings (h : nat) (es : list event) : nat :=
  length (List.filter (isClosed h) es).

Definition isLookedUp (e : event) : bool :=
  match e with
  | LookedUp _ _ => true
  | _ => false
  end.

(** How many database lookups a run made. *)
Definition lookups (es : list event) : nat :=
  length (List.filter isLookedUp es).

(** Handler instances provisioned one after the other, as the host does
    for the handlers of its configuration. *)
Fixpoint provisionAll (ms : list GeoIP) : M (list (GeoIP * option error)) :=
  match ms with
  | [] => ret []
  | m :: ms' =>
      one <- GeoIP_Provision m ;;
      rest <- provisionAll ms' ;;
      ret (one :: rest)
  end.

(** What [downloadDatabase] logs around a download attempt [r], newest
    first: the two errors are logged and nothing else is done with them. *)
Definition downloadLog (r : fetched) (edition : string) : list event :=
  (Log Info "finished download"
   :: match getErr r with
      | Some _ => [Log Error "getting database"]
      | None => []
      end
   ++ Downloaded edition
   :: match writerErr r with
      | Some _ => [Log Error "creating maxmind db writer"]
      | None => []
      end
   ++ [Log Info "starting download"])%list.

(** The world in which [downloadDatabase] calls [reloadDatabase]. *)
Definition afterDownload (cfg : Config) (path edition : string) (w : World)
  : World :=
  let r := remote w (attempts w) cfg path (fs w) in
  with_trace (downloadLog r edition ++ trace w)%list
    (with_attempts (S (attempts w)) (with_fs (disk r) w)).

(** A step that touched nothing of the state at [s] but its handle slot,
    and left the pool, the environment, the goroutines, the channels and
    the disk alone. *)
Definition onlyHandle (s : nat) (w w' : World) : Prop :=
  exists h st,
    states w !! s = Some st
    /\ states w' = <[s := set_dbInst h st]> (states w)
    /\ pool w' = pool w /\ environ w' = environ w
    /\ goroutines w' = goroutines w /\ chans w' = chans w
    /\ fs w' = fs w.

(** The handle of the state at [s], when it is loaded with an open reader
    over the database [d]. *)
Definition loadedWith (s : nat) (d : mmdb) (w : World) : Prop :=
  exists st h rd,
    states w !! s = Some st /\ dbInst st = Some h
    /\ readers w !! h = Some rd /\ closed rd = false /\ db rd = d.

(** The host that [ServeHTTP] hands to [net.ParseIP]: the first result of
    [net.SplitHostPort] on the address of the request, the trusted header
    taken into account. *)
Definition remoteIp (m : GeoIP) (r : Request) : string :=
  fst (fst (net.SplitHostPort (RemoteAddr (trusted m r)))).

(** The error of that [net.SplitHostPort]. *)
Definition splitErr (m : GeoIP) (r : Request) : option error :=
  snd (net.SplitHostPort (RemoteAddr (trusted m r))).

(** What [ServeHTTP] logs before it parses the host, newest first. *)
Definition splitLog (m : GeoIP) (r : Request) : list event :=
  (match splitErr m r with
   | Some _ => [Log Warn "cannot split IP address"]
   | None => []
   end ++ [Log Debug "loading ip address"])%list.

(** The code published when no database is loaded. *)
Definition fallbackCode (m : GeoIP) : string :=
  if String.eqb (OverrideCountryCode m) "" then "--"
  else OverrideCountryCode m.

(** The disk on which the reload of [state.Provision] runs: in download
    mode, the disk that the first download attempt leaves. *)
Definition diskAtProvision (m : GeoIP) (w : World) : gmap string file :=
  if downloadMode m
  then disk (remote w (attempts w) (newConfig m (DbPath m)) (DbPath m) (fs w))
  else fs w.

(** The environment does not hold a malformed account id: the variable
    is unset, empty, or a number. *)
Definition envOk (w : World) : Prop :=
  let account := default "" (environ w !! "GEOIP_ACCOUNT_ID") in
  account = "" \/ snd (strconv.Atoi account) = None.

(** The pool holds the state at [s] under the key of the handler, with
    [n] references. *)
Definition pooled (s : nat) (n : Z) (w : World) : Prop :=
  exists upv st,
    pool w !! "geoip.state" = Some upv
    /\ value upv = Some s /\ err upv = None /\ refs upv = n
    /\ states w !! s = Some st.

(** The world in which the constructor of the pool calls
    [state.Provision]: the entry of the key is in the pool with one
    reference and no value yet, and the zero state is on the heap. *)
Definition constructing (w : World) : World :=
  with_states
    (states w ++ [{| mu := false; dbInst := None; done := None; dbPath := "";
                     config := None |}])%list
    (with_pool (<["geoip.state" := {| refs := 1; value := None; err := None |}]>
                  (pool w)) w).

(** The world that [GeoIP.Provision] leaves when the constructor ran and
    its [state.Provision] left [w2]: the state is stored in the pool's
    entry and its status is logged. *)
Definition provisioned (s : nat) (status : event) (w2 : World) : World :=
  with_trace (status :: trace w2)
    (with_pool (alter (set_value (Some s)) "geoip.state" (pool w2)) w2).

(** ** Sample worlds, on which the code can be run *)

Definition NZ : Record_ :=
  {| Country_ := {| ISOCode := "NZ"; GeonameId := 2186224 |} |}.

(** A database that knows one address, that of the repository's tests. *)
Definition sampleDb : mmdb := fun addr =>
  if bool_decide (addr = net.IPv4 202 36 75 151) then Match NZ else NoMatch.

(** A remote side that cannot be reached: every download fails and leaves
    the disk as it is. *)
Definition offline : nat -> Config -> string -> gmap string file -> fetched :=
  fun _ _ _ files =>
    {| writerErr := None;
       getErr := Some "dial tcp: connection refused";
       disk := files |}.

(** A process that has just started, with the given files on disk. *)
Definition boot (files : gmap string file) : World :=
  {| fs := files; environ := ∅; remote := offline; attempts := 0;
     readers := []; chans := []; states := []; pool := ∅;
     goroutines := []; trace := [] |}.

(** The world a computation leaves behind. *)
Definition after {A} (m : M A) (w : World) : World :=
  match m w with
  | Ret _ w' => w'
  | Panic _ w' => w'
  | Blocked w' => w'
  end.

(** A handler as the repository's tests configure it. *)
Definition handler (path : string) : GeoIP :=
  {| AccountID := 0; APIKey := ""; DbPath := path; DownloadFrequency := 0;
     ReloadFrequency := 0; TrustHeader := "X-Real-IP";
     OverrideCountryCode := ""; state_ := None |}.

(** A request from the given peer with one header set. *)
Definition request (peer header val : string) : Request :=
  {| RemoteAddr := peer;
     HeaderGet := fun key => if String.eqb key header then val else "";
     repl := ∅ |}.

Definition samplePath : string := "GeoLite2-Country.mmdb".

(** The process after one handler was provisioned over a good database. *)
Definition serving : World :=
  after (GeoIP_Provision (handler samplePath))
        (boot {[ samplePath := Database sampleDb None ]}).

(** The state that this provisioning leaves at address 0. *)
Definition servingState : state :=
  {| mu := false; dbInst := Some 0%nat; done := Some 0%nat;
     dbPath := samplePath; config := None |}.

(** A handler that downloads its database every day. *)
Definition downloader (path : string) : GeoIP :=
  {| AccountID := 1000; APIKey := "key"; DbPath := path;
     DownloadFrequency := 24 * 60 * minute; ReloadFrequency := 0;
     TrustHeader := "X-Real-IP"; OverrideCountryCode := ""; state_ := None |}.



(** The handler of [serving], holding the shared state. *)
Definition servingHandler : GeoIP := set_state (Some 0%nat) (handler samplePath).

(** A request whose trusted header carries the test address with its port,
    as the repository's tests send it, and one whose header carries the
    bare address. *)
Definition portRequest : Request :=
  request "127.0.0.1:5000" "X-Real-IP" "202.36.75.151:3000".

Definition bareRequest : Request :=
  request "127.0.0.1:5000" "X-Real-IP" "202.36.75.151".

(** A request from an address the sample database does not know. *)
Definition localRequest : Request :=
  request "127.0.0.1:5000" "X-Real-IP" "".

Definition missingPath : string := "GeoLite2-Country2.mmdb".

(** The process after a handler was provisioned over a path at which
    there is no file. *)
Definition starved : World :=
  after (GeoIP_Provision (handler missingPath)) (boot ∅).

Definition starvedHandler : GeoIP := set_state (Some 0%nat) (handler missingPath).

Definition starvedState : state :=
  {| mu := false; dbInst := None; done := Some 0%nat;
     dbPath := missingPath; config := None |}.

(** The disk of [serving] after the database file was overwritten with
    something that is no database. *)
Definition corrupted : World :=
  with_fs {[ samplePath := Unreadable "invalid MaxMind DB file" ]} serving.

(** A process that starts over such a file. *)
Definition corruptedBoot : World :=
  boot {[ samplePath := Unreadable "invalid MaxMind DB file" ]}.

(** The process after one handler was provisioned over a database whose
    reader fails to unmap the file when it is closed. *)
Definition sticky : World :=
  after (GeoIP_Provision (handler samplePath))
        (boot {[ samplePath := Database sampleDb (Some "munmap: invalid argument") ]}).

(** Two handlers of one configuration: the first over a path with no
    file, the second over the good database. *)
Definition twoHandlers : list GeoIP := [handler missingPath; handler samplePath].

Definition twoHandlersBoot : World :=
  boot {[ samplePath := Database sampleDb None ]}.

(** The process after a handler was provisioned over a path with no file,
    and a good database was put there afterwards. *)
Definition arrived : World :=
  with_fs {[ samplePath := Database sampleDb None ]}
    (after (GeoIP_Provision (handler samplePath)) (boot ∅)).

Definition arrivedState : state :=
  {| mu := false; dbInst := None; done := Some 0%nat; dbPath := samplePath;
     config := None |}.


(** The fields that [state.Provision] assigns before it loads the
    database: the channel [c], the path and, in download mode, the
    configuration of the fetcher. *)
Definition configured (m : GeoIP) (c : nat) (st : state) : state :=
  let st := set_dbPath (DbPath m) (set_done (Some c) st) in
  if downloadMode m then set_config (Some (newConfig m (DbPath m))) st else st.

(** The record that [Lookup] leaves in the zero record it is given. *)
Definition recordOf (a : answer) : Record_ :=
  match a with
  | Match rec => rec
  | _ => zeroRecord
  end.

(** A database file cut short: it opens, and every lookup in it fails. *)
Definition truncatedDb : mmdb := fun _ => LookupError "unexpected end of database".

(** The process after one handler was provisioned over such a file. *)
Definition broken : World :=
  after (GeoIP_Provision (handler samplePath))
        (boot {[ samplePath := Database truncatedDb None ]}).

(** A process started with an account id in the environment that is no
    number. *)
Definition misconfigured : World :=
  {| fs := {[ samplePath := Database sampleDb None ]};
     environ := {[ "GEOIP_ACCOUNT_ID" := "12x" ]};
     remote := offline; attempts := 0;
     readers := []; chans := []; states := []; pool := ∅;
     goroutines := []; trace := [] |}.

(** The value that a non-empty variable of the environment puts in the
    place of a configured one. *)
Definition overridden (w : World) (key configured : string) : string :=
  let val := default "" (environ w !! key) in
  if String.eqb val "" then configured else val.

(** A process started with an override code and an empty key in the
    environment. *)
Definition overriding : World :=
  {| fs := ∅;
     environ := {[ "GEOIP_OVERRIDE_COUNTRY_CODE" := "AU"; "GEOIP_API_KEY" := "" ]};
     remote := offline; attempts := 0;
     readers := []; chans := []; states := []; pool := ∅;
     goroutines := []; trace := [] |}.

(** *** A process in good order *)

(** Between the calls every mutex is free and every handle is a reader
    on the heap. *)
Definition statesOk (w : World) : Prop :=
  forall s st,
    states w !! s = Some st ->
    mu st = false /\ forall h, dbInst st = Some h -> is_Some (readers w !! h).

(** The configuration of the fetcher is there and names an edition. *)
Definition hasEdition (st : state) : Prop :=
  exists cfg edition rest,
    config st = Some cfg /\ EditionIDs cfg = edition :: rest.

(** Every ticker loop runs on a state, and a download loop on a state
    with the configuration of the fetcher. *)
Definition goroutinesOk (w : World) : Prop :=
  forall g,
    g ∈ goroutines w ->
    exists st,
      states w !! on g = Some st /\ (runs g = DownloadLoop -> hasEdition st).

(** The entry of the pool, when there is one, holds a state and no
    error. *)
Definition poolOk (w : World) : Prop :=
  forall upv,
    pool w !! "geoip.state" = Some upv ->
    err upv = None /\ exists s, value upv = Some s /\ is_Some (states w !! s).

Definition sound (w : World) : Prop :=
  statesOk w /\ goroutinesOk w /\ poolOk w.








(** ** caddy's Caddyfile dispenser *)

Module caddyfile.

Record Token := {
  File : string;
  Line : Z;
  Text : string;
}.

(** A cursor over the tokens of one directive, and the depth of the
    blocks it is in. *)
Record Dispenser := {
  tokens : list Token;
  cursor : Z;
  nesting : Z;
}.

(** [NewDispenser(tokens)]; [Reset] puts a dispenser back in this state. *)
Definition NewDispenser (ts : list Token) : Dispenser :=
  {| tokens := ts; cursor := -1; nesting := 0 |}.

Definition set_cursor (c : Z) (d : Dispenser) : Dispenser :=
  {| tokens := tokens d; cursor := c; nesting := nesting d |}.

Definition set_nesting (n : Z) (d : Dispenser) : Dispenser :=
  {| tokens := tokens d; cursor := cursor d; nesting := n |}.

(** [len(d.tokens)] *)
Definition size (d : Dispenser) : Z := Z.of_nat (length (tokens d)).

(** [d.tokens[i]], where [i] is in range. *)
Definition token (d : Dispenser) (i : Z) : option Token :=
  if i <? 0 then None else tokens d !! Z.to_nat i.

(** [d.Val()]: the text of the current token, empty out of range. *)
Definition Val (d : Dispenser) : string :=
  match token d (cursor d) with
  | Some t => Text t
  | None => ""
  end.

(** [d.Line()] and [d.File()] *)
Definition LineOf (d : Dispenser) : Z :=
  match token d (cursor d) with
  | Some t => Line t
  | None => 0
  end.

Definition FileOf (d : Dispenser) : string :=
  match token d (cursor d) with
  | Some t => File t
  | None => ""
  end.

(** [strings.Count(s, "\n")] *)
Fixpoint lineBreaks (s : string) : Z :=
  match s with
  | EmptyString => 0
  | String a s' =>
      (if Ascii.eqb a (ascii_of_nat 10) then 1 else 0) + lineBreaks s'
  end.

Definition numLineBreaks (d : Dispenser) (i : Z) : Z :=
  match token d i with
  | Some t => lineBreaks (Text t)
  | None => 0
  end.

(** [d.Next()] *)
Definition Next (d : Dispenser) : bool * Dispenser :=
  if cursor d <? size d - 1 then (true, set_cursor (cursor d + 1) d)
  else (false, d).

(** The last two conjuncts of the test in [nextOnSameLine]: the next
    token is of the same file and starts on the line on which the current
    one ends. *)
Definition sameLine (d : Dispenser) : bool :=
  match token d (cursor d), token d (cursor d + 1) with
  | Some t, Some t' =>
      String.eqb (File t) (File t')
      && (Line t + numLineBreaks d (cursor d) =? Line t')
  | _, _ => false
  end.

(** [d.nextOnSameLine()] *)
Definition nextOnSameLine (d : Dispenser) : bool * Dispenser :=
  if cursor d <? 0 then (true, set_cursor (cursor d + 1) d)
  else if cursor d >=? size d then (false, d)
  else if (cursor d <? size d - 1) && sameLine d
       then (true, set_cursor (cursor d + 1) d)
       else (false, d).

(** [d.NextArg()] *)
Definition NextArg (d : Dispenser) : bool * Dispenser :=
  let '(ok, d) := nextOnSameLine d in
  if negb ok then (false, d)
  else if String.eqb (Val d) "{"
       then (* roll back; a block opening is not an argument *)
         (false, set_cursor (cursor d - 1) d)
       else (true, d).

(** [d.Val() == brace && !d.nextOnSameLine()]: the second operand runs,
    and may move the cursor, only when the first holds. *)
Definition braceEndsLine (brace : string) (d : Dispenser) : bool * Dispenser :=
  if String.eqb (Val d) brace
  then let '(same, d) := nextOnSameLine d in (negb same, d)
  else (false, d).

(** [d.NextBlock(initialNestingLevel)] *)
Definition NextBlock (initialNestingLevel : Z) (d : Dispenser)
  : bool * Dispenser :=
  if nesting d >? initialNestingLevel then
    let '(ok, d) := Next d in
    if negb ok then (false, d)
    else
      let '(closes, d) := braceEndsLine "}" d in
      let d :=
        if closes then set_nesting (nesting d - 1) d
        else
          let '(opens, d) := braceEndsLine "{" d in
          if opens then set_nesting (nesting d + 1) d else d in
      (nesting d >? initialNestingLevel, d)
  else
    let '(ok, d) := nextOnSameLine d in
    if negb ok then (* block must open on same line *) (false, d)
    else if negb (String.eqb (Val d) "{")
         then (* roll back if not opening brace *)
           (false, set_cursor (cursor d - 1) d)
         else
           let '(_, d) := Next d in (* consume open curly brace *)
           if String.eqb (Val d) "}"
           then (* open and then closed right away *) (false, d)
           else (true, set_nesting (nesting d + 1) d).

(** [d.Args(&target)] with one target: the value stored in the target,
    when there is an argument. *)
Definition Args1 (d : Dispenser) : option string * Dispenser :=
  let '(ok, d) := NextArg d in
  if ok then (Some (Val d), d) else (None, d).

(** [d.Err(msg)] *)
Definition Err (d : Dispenser) (msg : string) : error :=
  FileOf d +:+ ":" +:+ NilZero.string_of_int (Z.to_int (LineOf d))
  +:+ " - Error during parsing: " +:+ msg.

(** [d.ArgErr()] *)
Definition ArgErr (d : Dispenser) : error :=
  if String.eqb (Val d) "{"
  then Err d "Unexpected token '{', expecting argument"
  else Err d ("Wrong argument count or unexpected line ending after '"
              +:+ Val d +:+ "'").

End caddyfile.

(** ** caddyfile.go *)

Definition set_DbPath (p : string) (m : GeoIP) : GeoIP :=
  {| AccountID := AccountID m; APIKey := APIKey m; DbPath := p;
     DownloadFrequency := DownloadFrequency m;
     ReloadFrequency := ReloadFrequency m; TrustHeader := TrustHeader m;
     OverrideCountryCode := OverrideCountryCode m; state_ := state_ m |}.

Definition set_TrustHeader (h : string) (m : GeoIP) : GeoIP :=
  {| AccountID := AccountID m; APIKey := APIKey m; DbPath := DbPath m;
     DownloadFrequency := DownloadFrequency m;
     ReloadFrequency := ReloadFrequency m; TrustHeader := h;
     OverrideCountryCode := OverrideCountryCode m; state_ := state_ m |}.

Definition set_ReloadFrequency (f : Z) (m : GeoIP) : GeoIP :=
  {| AccountID := AccountID m; APIKey := APIKey m; DbPath := DbPath m;
     DownloadFrequency := DownloadFrequency m;
     ReloadFrequency := f; TrustHeader := TrustHeader m;
     OverrideCountryCode := OverrideCountryCode m; state_ := state_ m |}.

Definition set_DownloadFrequency (f : Z) (m : GeoIP) : GeoIP :=
  {| AccountID := AccountID m; APIKey := APIKey m; DbPath := DbPath m;
     DownloadFrequency := f;
     ReloadFrequency := ReloadFrequency m; TrustHeader := TrustHeader m;
     OverrideCountryCode := OverrideCountryCode m; state_ := state_ m |}.

Section Caddyfile.

(** [caddy.ParseDuration]: the duration in nanoseconds, and the error. *)
Variable ParseDuration : string -> Z * option error.

(** A directive that takes one string: [d.Args(&field)], whose result is
    not looked at. *)
Definition stringArg (set : string -> GeoIP -> GeoIP)
    (d : caddyfile.Dispenser) (m : GeoIP)
  : caddyfile.Dispenser * GeoIP * option error :=
  match caddyfile.Args1 d with
  | (Some v, d) => (d, set v m, None)
  | (None, d) => (d, m, None)
  end.

(** A directive that takes a duration. *)
Definition durationArg (set : Z -> GeoIP -> GeoIP)
    (d : caddyfile.Dispenser) (m : GeoIP)
  : caddyfile.Dispenser * GeoIP * option error :=
  let '(ok, d) := caddyfile.NextArg d in
  if negb ok then (d, m, Some (caddyfile.ArgErr d))
  else
    match ParseDuration (caddyfile.Val d) with
    | (_, Some e) =>
        (d, m, Some (caddyfile.Err d ("bad duration value " +:+ caddyfile.Val d
                                      +:+ ": " +:+ e)))
    | (dur, None) => (d, set dur m, None)
    end.

(** The [switch] of [UnmarshalCaddyfile] on [d.Val()]: the dispenser and
    the handler after it, and the error with which the function returns
    from inside the switch, if it does. *)
Definition switch (d : caddyfile.Dispenser) (m : GeoIP)
  : caddyfile.Dispenser * GeoIP * option error :=
  let name := caddyfile.Val d in
  if String.eqb name "db_path" then
    match caddyfile.Args1 d with
    | (Some v, d) => (d, set_DbPath v m, None)
    | (None, d) => (d, m, Some (caddyfile.Err d "Missing db path"))
    end
  else if String.eqb name "trust_header" then stringArg set_TrustHeader d m
  else if String.eqb name "account_id" then
    match caddyfile.Args1 d with
    | (Some val, d) =>
        match strconv.Atoi val with
        | (_, Some e) =>
            (d, m, Some (caddyfile.Err d ("invalid account number "
                                          +:+ caddyfile.Val d +:+ ": " +:+ e)))
        | (accountID, None) => (d, set_AccountID accountID m, None)
        end
    | (None, d) => (d, m, None)
    end
  else if String.eqb name "api_key" then stringArg set_APIKey d m
  else if String.eqb name "reload_frequency"
       then durationArg set_ReloadFrequency d m
  else if String.eqb name "download_frequency"
       then durationArg set_DownloadFrequency d m
  else if String.eqb name "override_country_code"
       then stringArg set_OverrideCountryCode d m
  else (d, m, None).

(** One turn of the loop: [var err error], the switch, which assigns to
    variables [err] of its own only, and the test of the outer [err]. *)
Definition turn (d : caddyfile.Dispenser) (m : GeoIP)
  : caddyfile.Dispenser * GeoIP * option error :=
  let err : option error := None in
  match switch d m with
  | (d, m, Some returned) => (d, m, Some returned)
  | (d, m, None) =>
      match err with
      | Some e =>
          (d, m, Some (caddyfile.Err d ("Error parsing " +:+ caddyfile.Val d
                                        +:+ ": " +:+ e)))
      | None => (d, m, None)
      end
  end.

(** [for d.NextBlock(0) { ... }; return nil]: at most [fuel] calls of
    [NextBlock]; [None] when they did not suffice. *)
Fixpoint blocks (fuel : nat) (d : caddyfile.Dispenser) (m : GeoIP)
  : option (GeoIP * caddyfile.Dispenser * option error) :=
  match fuel with
  | O => None
  | S fuel =>
      let '(more, d) := caddyfile.NextBlock 0 d in
      if more then
        match turn d m with
        | (d, m, Some e) => Some (m, d, Some e)
        | (d, m, None) => blocks fuel d m
        end
      else Some (m, d, None)
  end.

(** [func (m *GeoIP) UnmarshalCaddyfile(d *caddyfile.Dispenser) error]:
    the handler and the dispenser after the call, and the error.  Every
    turn of the loop moves the cursor on, so two calls of [NextBlock] more
    than there are tokens suffice. *)
Definition UnmarshalCaddyfile (d : caddyfile.Dispenser) (m : GeoIP)
  : option (GeoIP * caddyfile.Dispenser * option error) :=
  let '(_, d) := caddyfile.NextArg d in
  blocks (length (caddyfile.tokens d) + 2) d m.

(** [var m GeoIP] *)
Definition zeroGeoIP : GeoIP :=
  {| AccountID := 0; APIKey := ""; DbPath := ""; DownloadFrequency := 0;
     ReloadFrequency := 0; TrustHeader := ""; OverrideCountryCode := "";
     state_ := None |}.

(** [func parseCaddyfile(h httpcaddyfile.Helper)]: the handler is
    returned with the error. *)
Definition parseCaddyfile (d : caddyfile.Dispenser)
  : option (GeoIP * option error) :=
  match UnmarshalCaddyfile d zeroGeoIP with
  | Some (m, _, e) => Some (m, e)
  | None => None
  end.

End Caddyfile.

(** *** Sample configurations *)

(** A duration parser for the samples: whole hours and whole days,
    "12h" and "1d". *)
Definition wholeHours (s : string) : Z * option error :=
  let number := gostring.upto s (gostring.len s - 1) in
  let invalid := "time: invalid duration " +:+ dquote +:+ s +:+ dquote in
  match gostring.at_ s (gostring.len s - 1), strconv.Atoi number with
  | Some a, (n, None) =>
      if Ascii.eqb a "h"%char then (n * 60 * minute, None)
      else if Ascii.eqb a "d"%char then (n * 24 * 60 * minute, None)
      else (0, Some invalid)
  | _, _ => (0, Some invalid)
  end.

Definition word (line : Z) (text : string) : caddyfile.Token :=
  {| caddyfile.File := "Caddyfile"; caddyfile.Line := line;
     caddyfile.Text := text |}.

(** The directive of the repository's Caddyfile test. *)
Definition testDirective : caddyfile.Dispenser :=
  caddyfile.NewDispenser
    [word 1 "geo_ip"; word 1 "{";
     word 2 "account_id"; word 2 "1000";
     word 3 "api_key"; word 3 "REDACTED";
     word 4 "reload_frequency"; word 4 "1d";
     word 5 "db_path"; word 5 "GeoLite2-Country.mmdb";
     word 6 "trust_header"; word 6 "X-Real-IP";
     word 7 "}"].

(** The handler that the test expects from it. *)
Definition testHandler : GeoIP :=
  {| AccountID := 1000; APIKey := "REDACTED"; DbPath := "GeoLite2-Country.mmdb";
     DownloadFrequency := 0; ReloadFrequency := 24 * 60 * minute;
     TrustHeader := "X-Real-IP"; OverrideCountryCode := ""; state_ := None |}.

(** *** Reading a parse *)

(** The cursor of [d] is where a dispenser can be: on a token, before the
    first one, or, in a dispenser without tokens, at 0. *)
Definition inRange (d : caddyfile.Dispenser) : Prop :=
  -1 <= caddyfile.cursor d <= caddyfile.size d.

(** From [d] to [d'] the tokens are the same and the cursor did not go
    back, nor out of range. *)
Definition onward (d d' : caddyfile.Dispenser) : Prop :=
  caddyfile.tokens d' = caddyfile.tokens d
  /\ caddyfile.cursor d <= caddyfile.cursor d'
  /\ (inRange d -> inRange d').

(** A token of [d] reads [name]. *)
Definition names (d : caddyfile.Dispenser) (name : string) : Prop :=
  exists t, t ∈ caddyfile.tokens d /\ caddyfile.Text t = name.

(** The errors with which [UnmarshalCaddyfile] returns, at the dispenser
    that it leaves. *)
Inductive fault (ParseDuration : string -> Z * option error)
    (d : caddyfile.Dispenser) : error -> Prop :=
| MissingDbPath :
    fault ParseDuration d (caddyfile.Err d "Missing db path")
| InvalidAccount why :
    snd (strconv.Atoi (caddyfile.Val d)) = Some why ->
    fault ParseDuration d
      (caddyfile.Err d ("invalid account number " +:+ caddyfile.Val d
                        +:+ ": " +:+ why))
| MissingDuration :
    fault ParseDuration d (caddyfile.ArgErr d)
| BadDuration why :
    snd (ParseDuration (caddyfile.Val d)) = Some why ->
    fault ParseDuration d
      (caddyfile.Err d ("bad duration value " +:+ caddyfile.Val d
                        +:+ ": " +:+ why)).

(** A directive with a "db_path" that has no argument. *)
Definition noPathDirective : caddyfile.Dispenser :=
  caddyfile.NewDispenser
    [word 1 "geo_ip"; word 1 "{"; word 2 "db_path"; word 3 "}"].

(** The tokens open a block: the second token is a "{" on the line on
    which the first one ends, in the same file. *)
Definition opensBlock (ts : list caddyfile.Token) : bool :=
  match ts with
  | name :: brace :: _ =>
      String.eqb (caddyfile.File name) (caddyfile.File brace)
      && (caddyfile.Line name + caddyfile.lineBreaks (caddyfile.Text name)
          =? caddyfile.Line brace)
      && String.eqb (caddyfile.Text brace) "{"
  | _ => false
  end.

(** A directive whose block opens on the line after its name. *)
Definition lateBlockDirective : caddyfile.Dispenser :=
  caddyfile.NewDispenser
    [word 1 "geo_ip"; word 2 "{"; word 3 "db_path";
     word 3 "GeoLite2-Country.mmdb"; word 4 "}"].

(** *** Blocks of one directive per line *)

Definition tok (file : string) (line : Z) (text : string) : caddyfile.Token :=
  {| caddyfile.File := file; caddyfile.Line := line; caddyfile.Text := text |}.

(** The lines of a block, each a directive and its one argument, and the
    closing brace on the line after the last. *)
Fixpoint bodyTokens (file : string) (line : Z) (lines : list (string * string))
  : list caddyfile.Token :=
  match lines with
  | [] => [tok file line "}"]
  | (k, v) :: rest =>
      tok file line k :: tok file line v :: bodyTokens file (line + 1) rest
  end.

(** The tokens of
    [geo_ip {] / [k1 v1] / ... / [kn vn] / [}]. *)
Definition blockTokens (file : string) (line : Z) (lines : list (string * string))
  : list caddyfile.Token :=
  tok file line "geo_ip" :: tok file line "{" :: bodyTokens file (line + 1) lines.

(** What a line means: the field that the directive names takes the
    argument; there is no meaning when the directive is not one of the
    seven or the argument is no number, or no duration, where one is
    needed. *)
Definition assign (ParseDuration : string -> Z * option error)
    (kv : string * string) (m : GeoIP) : option GeoIP :=
  let '(k, v) := kv in
  if String.eqb k "db_path" then Some (set_DbPath v m)
  else if String.eqb k "trust_header" then Some (set_TrustHeader v m)
  else if String.eqb k "account_id" then
    match strconv.Atoi v with
    | (i, None) => Some (set_AccountID i m)
    | (_, Some _) => None
    end
  else if String.eqb k "api_key" then Some (set_APIKey v m)
  else if String.eqb k "reload_frequency" then
    match ParseDuration v with
    | (dur, None) => Some (set_ReloadFrequency dur m)
    | (_, Some _) => None
    end
  else if String.eqb k "download_frequency" then
    match ParseDuration v with
    | (dur, None) => Some (set_DownloadFrequency dur m)
    | (_, Some _) => None
    end
  else if String.eqb k "override_country_code"
       then Some (set_OverrideCountryCode v m)
  else None.

(** The lines one after the other, a later line overwriting an earlier
    one of the same directive. *)
Fixpoint assignAll (ParseDuration : string -> Z * option error)
    (lines : list (string * string)) (m : GeoIP) : option GeoIP :=
  match lines with
  | [] => Some m
  | kv :: rest =>
      match assign ParseDuration kv m with
      | Some m1 => assignAll ParseDuration rest m1
      | None => None
      end
  end.

(** The lines of the repository's Caddyfile test. *)
Definition testLines : list (string * string) :=
  [("account_id", "1000"); ("api_key", "REDACTED");
   ("reload_frequency", "1d"); ("db_path", "GeoLite2-Country.mmdb");
   ("trust_header", "X-Real-IP")].

(** The directives that the switch of [UnmarshalCaddyfile] knows. *)
Definition directives : list string :=
  ["db_path"; "trust_header"; "account_id"; "api_key"; "reload_frequency";
   "download_frequency"; "override_country_code"].

(** A block whose one line is a directive that the handler does not
    know, with an argument that reads "db_path". *)
Definition strayDirective : caddyfile.Dispenser :=
  caddyfile.NewDispenser
    [word 1 "geo_ip"; word 1 "{"; word 2 "log"; word 2 "db_path"; word 3 "}"].

(** * Properties *)

(** ** The library models on the inputs of the repository's tests *)

Example SplitHostPort_v4 :
  net.SplitHostPort "202.36.75.151:3000" = ("202.36.75.151", "3000", None).
Proof. reflexivity. Qed.

Example SplitHostPort_v6 :
  net.SplitHostPort "[2400:bd00:43a8:0:5dfb:1f0c:863b:d246]:3000"
  = ("2400:bd00:43a8:0:5dfb:1f0c:863b:d246", "3000", None).
Proof. reflexivity. Qed.

Example SplitHostPort_no_port :
  net.SplitHostPort "202.36.75.151"
  = ("", "", Some "address 202.36.75.151: missing port in address").
Proof. reflexivity. Qed.

Example ParseIP_v4 :
  net.ParseIP "202.36.75.151" = Some (net.IPv4 202 36 75 151).
Proof. reflexivity. Qed.

Example ParseIP_v6 :
  net.ParseIP "2400:bd00:43a8:0:5dfb:1f0c:863b:d246"
  = Some [36; 0; 189; 0; 67; 168; 0; 0; 93; 251; 31; 12; 134; 59; 210; 70].
Proof. reflexivity. Qed.

Example ParseIP_loopback6 :
  net.ParseIP "::1" = Some [0; 0; 0; 0; 0; 0; 0; 0; 0; 0; 0; 0; 0; 0; 0; 1].
Proof. reflexivity. Qed.

Example ParseIP_mapped :
  net.ParseIP "::ffff:1.2.3.4" = Some (net.IPv4 1 2 3 4).
Proof. reflexivity. Qed.

Example ParseIP_empty : net.ParseIP "" = None.
Proof. reflexivity. Qed.

Example ParseIP_with_port : net.ParseIP "202.36.75.151:3000" = None.
Proof. reflexivity. Qed.

Example Atoi_1000 : strconv.Atoi "1000" = (1000, None).
Proof. reflexivity. Qed.

Example Atoi_bad :
  snd (strconv.Atoi "12a") <> None /\ snd (strconv.Atoi "") <> None.
Proof. split; discriminate. Qed.

Example Split_relative :
  filepath.Split "GeoLite2-Country.mmdb" = ("", "GeoLite2-Country.mmdb").
Proof. reflexivity. Qed.

Example Split_absolute :
  filepath.Split "/var/lib/geo/GeoLite2-Country.mmdb"
  = ("/var/lib/geo/", "GeoLite2-Country.mmdb").
Proof. reflexivity. Qed.

Example Join_lock :
  filepath.Join "/var/lib/geo/" ".geoipupdate.lock" = "/var/lib/geo/.geoipupdate.lock"
  /\ filepath.Join "" ".geoipupdate.lock" = ".geoipupdate.lock"
  /\ filepath.Join "a/../b/./" "c" = "b/c".
Proof. repeat split; reflexivity. Qed.

Example Replace_edition :
  gostring.Replace1 "GeoLite2-Country.mmdb" ".mmdb" "" = "GeoLite2-Country".
Proof. reflexivity. Qed.

(** ** Stepping through a computation *)

Lemma bind_Ret {A B} (m : M A) (k : A -> M B) w a w' :
  m w = Ret a w' -> bind m k w = k a w'.
Proof. intros H. unfold bind. now rewrite H. Qed.

Lemma bind_Panic {A B} (m : M A) (k : A -> M B) w msg w' :
  m w = Panic msg w' -> bind m k w = Panic msg w'.
Proof. intros H. unfold bind. now rewrite H. Qed.

Lemma bind_Blocked {A B} (m : M A) (k : A -> M B) w w' :
  m w = Blocked w' -> bind m k w = Blocked w'.
Proof. intros H. unfold bind. now rewrite H. Qed.

Lemma deref_Some s st w :
  states w !! s = Some st -> deref s w = Ret st w.
Proof. intros H. unfold deref. now rewrite H. Qed.

Lemma store_Some s f st w :
  states w !! s = Some st ->
  store s f w = Ret tt (with_states (<[s := f st]> (states w)) w).
Proof. intros H. unfold store. now rewrite H. Qed.

Lemma lookup_updated {A} s (x y : A) (l : list A) :
  l !! s = Some x -> <[s := y]> l !! s = Some y.
Proof. intros H. apply list_lookup_insert_eq. eapply lookup_lt_Some, H. Qed.

Lemma set_mu_restore st : mu st = false -> set_mu false (set_mu true st) = st.
Proof. destruct st; simpl; intros ->; reflexivity. Qed.

Lemma Lock_free s st w :
  states w !! s = Some st -> mu st = false ->
  Lock s w = Ret tt (with_states (<[s := set_mu true st]> (states w)) w).
Proof.
  intros H Hmu. unfold Lock. rewrite (bind_Ret _ _ _ _ _ (deref_Some _ _ _ H)).
  rewrite Hmu. now apply store_Some.
Qed.

Lemma Lock_held s st w :
  states w !! s = Some st -> mu st = true -> Lock s w = Blocked w.
Proof.
  intros H Hmu. unfold Lock. rewrite (bind_Ret _ _ _ _ _ (deref_Some _ _ _ H)).
  now rewrite Hmu.
Qed.

Lemma Unlock_held s st w :
  states w !! s = Some st -> mu st = true ->
  Unlock s w = Ret tt (with_states (<[s := set_mu false st]> (states w)) w).
Proof.
  intros H Hmu. unfold Unlock. rewrite (bind_Ret _ _ _ _ _ (deref_Some _ _ _ H)).
  rewrite Hmu. now apply store_Some.
Qed.

(** A body that returns under the lock: the deferred unlock releases the
    mutex and the result is the body's. *)
Lemma locked_Ret {A} s st st2 (body : M A) w a w2 :
  states w !! s = Some st -> mu st = false ->
  body (with_states (<[s := set_mu true st]> (states w)) w) = Ret a w2 ->
  states w2 !! s = Some st2 -> mu st2 = true ->
  (Lock s ;; defer (Unlock s) body) w
  = Ret a (with_states (<[s := set_mu false st2]> (states w2)) w2).
Proof.
  intros Hs Hmu Hbody Hs2 Hmu2.
  rewrite (bind_Ret _ _ _ _ _ (Lock_free _ _ _ Hs Hmu)).
  unfold defer. rewrite Hbody. now rewrite (Unlock_held _ _ _ Hs2 Hmu2).
Qed.

(** A body that panics under the lock: the deferred unlock still runs, and
    the panic goes on. *)
Lemma locked_Panic {A} s st st2 (body : M A) w msg w2 :
  states w !! s = Some st -> mu st = false ->
  body (with_states (<[s := set_mu true st]> (states w)) w) = Panic msg w2 ->
  states w2 !! s = Some st2 -> mu st2 = true ->
  (Lock s ;; defer (Unlock s) body) w
  = Panic msg (with_states (<[s := set_mu false st2]> (states w2)) w2).
Proof.
  intros Hs Hmu Hbody Hs2 Hmu2.
  rewrite (bind_Ret _ _ _ _ _ (Lock_free _ _ _ Hs Hmu)).
  unfold defer. rewrite Hbody. now rewrite (Unlock_held _ _ _ Hs2 Hmu2).
Qed.

(** ** The three ways of [reloadLocked] *)

Lemma reloadLocked_absent s st w :
  states w !! s = Some st -> fs w !! dbPath st = None ->
  reloadLocked s w
  = Ret None (with_trace (Log Warn "database does not exist" :: trace w) w).
Proof.
  intros Hs Hfs. unfold reloadLocked.
  rewrite (bind_Ret _ _ _ _ _ (deref_Some _ _ _ Hs)).
  unfold bind at 1, notExist. rewrite Hfs. reflexivity.
Qed.

Lemma reloadLocked_unreadable s st w e :
  states w !! s = Some st -> fs w !! dbPath st = Some (Unreadable e) ->
  reloadLocked s w = Ret (Some e) w.
Proof.
  intros Hs Hfs. unfold reloadLocked.
  rewrite (bind_Ret _ _ _ _ _ (deref_Some _ _ _ Hs)).
  unfold bind at 1, notExist. rewrite Hfs. simpl.
  unfold bind, Open. rewrite Hfs. reflexivity.
Qed.

(** The reader that [maxminddb.Open] builds over a database file. *)
Lemma Open_Database path d closing w :
  fs w !! path = Some (Database d closing) ->
  Open path w
  = Ret (inr (length (readers w)))
        (with_trace (Opened path (length (readers w)) :: trace w)
           (with_readers
              (readers w ++ [{| db := d; closed := false; closeErr := closing |}])%list
              w)).
Proof. intros H. unfold Open. now rewrite H. Qed.

Lemma reloadLocked_first s st w d closing :
  states w !! s = Some st -> fs w !! dbPath st = Some (Database d closing) ->
  dbInst st = None ->
  reloadLocked s w
  = Ret None
      (with_trace (Log Info "reload successful"
                   :: Installed s (length (readers w))
                   :: Opened (dbPath st) (length (readers w)) :: trace w)
         (with_states (<[s := set_dbInst (Some (length (readers w))) st]> (states w))
            (with_readers
               (readers w ++ [{| db := d; closed := false; closeErr := closing |}])%list
               w))).
Proof.
  intros Hs Hfs Hnil. unfold reloadLocked.
  rewrite (bind_Ret _ _ _ _ _ (deref_Some _ _ _ Hs)).
  unfold bind at 1, notExist. rewrite Hfs. simpl.
  rewrite (bind_Ret _ _ _ _ _ (Open_Database _ _ _ _ Hfs)).
  erewrite bind_Ret; [| apply deref_Some; simpl; exact Hs].
  erewrite bind_Ret; [| apply store_Some; simpl; exact Hs].
  rewrite Hnil. reflexivity.
Qed.

Lemma reloadLocked_swap s st w d closing old r :
  states w !! s = Some st -> fs w !! dbPath st = Some (Database d closing) ->
  dbInst st = Some old -> readers w !! old = Some r ->
  reloadLocked s w
  = Ret (if closed r then None else closeErr r)
      (with_trace (Closed old
                   :: Log Info "closing old database"
                   :: Installed s (length (readers w))
                   :: Opened (dbPath st) (length (readers w)) :: trace w)
         (with_states (<[s := set_dbInst (Some (length (readers w))) st]> (states w))
            (with_readers
               (<[old := set_closed r]>
                  (readers w ++ [{| db := d; closed := false; closeErr := closing |}])%list)
               w))).
Proof.
  intros Hs Hfs Hold Hr. unfold reloadLocked.
  rewrite (bind_Ret _ _ _ _ _ (deref_Some _ _ _ Hs)).
  unfold bind at 1, notExist. rewrite Hfs. simpl.
  rewrite (bind_Ret _ _ _ _ _ (Open_Database _ _ _ _ Hfs)).
  erewrite bind_Ret; [| apply deref_Some; simpl; exact Hs].
  erewrite bind_Ret; [| apply store_Some; simpl; exact Hs].
  rewrite Hold. unfold bind, emit, log, emit, Close. simpl.
  rewrite (lookup_app_l_Some _ _ _ _ Hr). reflexivity.
Qed.

(** ** [reloadDatabase] as a whole *)

(** The world in which the body of [reloadDatabase] starts. *)
Lemma reloadDatabase_Ret s st st2 w a w2 :
  states w !! s = Some st -> mu st = false ->
  reloadLocked s
    (with_states (<[s := set_mu true st]> (states w))
       (with_trace (Log Info "reloading database" :: trace w) w)) = Ret a w2 ->
  states w2 !! s = Some st2 -> mu st2 = true ->
  reloadDatabase s w
  = Ret a (with_states (<[s := set_mu false st2]> (states w2)) w2).
Proof.
  intros Hs Hmu Hbody Hs2 Hmu2. unfold reloadDatabase, log, emit.
  unfold bind at 1.
  apply (locked_Ret s st st2); simpl; auto.
Qed.

Lemma relock st h :
  mu st = false ->
  set_mu false (set_dbInst h (set_mu true st)) = set_dbInst h st.
Proof. destruct st; simpl; intros ->; reflexivity. Qed.

Ltac locked_world w1 s st w Hs H1 :=
  set (w1 := with_states (<[s := set_mu true st]> (states w))
               (with_trace (Log Info "reloading database" :: trace w) w));
  assert (H1 : states w1 !! s = Some (set_mu true st))
    by (simpl; eapply lookup_updated; exact Hs).

Ltac same_world :=
  f_equal; simpl; unfold with_states, with_trace, with_readers; simpl;
  rewrite ?list_insert_insert_eq.

Lemma reloadDatabase_absent s st w :
  states w !! s = Some st -> mu st = false -> fs w !! dbPath st = None ->
  reloadDatabase s w
  = Ret None
      (with_trace (Log Warn "database does not exist"
                   :: Log Info "reloading database" :: trace w) w).
Proof.
  intros Hs Hmu Hfs. locked_world w1 s st w Hs H1.
  pose proof (reloadLocked_absent s _ w1 H1 Hfs) as Hbody.
  rewrite (reloadDatabase_Ret s st _ w _ _ Hs Hmu Hbody H1 eq_refl).
  same_world. rewrite set_mu_restore, list_insert_id by auto. reflexivity.
Qed.

Lemma reloadDatabase_unreadable s st w e :
  states w !! s = Some st -> mu st = false ->
  fs w !! dbPath st = Some (Unreadable e) ->
  reloadDatabase s w
  = Ret (Some e) (with_trace (Log Info "reloading database" :: trace w) w).
Proof.
  intros Hs Hmu Hfs. locked_world w1 s st w Hs H1.
  pose proof (reloadLocked_unreadable s _ w1 e H1 Hfs) as Hbody.
  rewrite (reloadDatabase_Ret s st _ w _ _ Hs Hmu Hbody H1 eq_refl).
  same_world. rewrite set_mu_restore, list_insert_id by auto. reflexivity.
Qed.

Lemma reloadDatabase_first s st w d closing :
  states w !! s = Some st -> mu st = false ->
  fs w !! dbPath st = Some (Database d closing) -> dbInst st = None ->
  reloadDatabase s w
  = Ret None
      (with_trace (Log Info "reload successful"
                   :: Installed s (length (readers w))
                   :: Opened (dbPath st) (length (readers w))
                   :: Log Info "reloading database" :: trace w)
         (with_states (<[s := set_dbInst (Some (length (readers w))) st]> (states w))
            (with_readers
               (readers w ++ [{| db := d; closed := false; closeErr := closing |}])%list
               w))).
Proof.
  intros Hs Hmu Hfs Hnil. locked_world w1 s st w Hs H1.
  pose proof (reloadLocked_first s _ w1 d closing H1 Hfs Hnil) as Hbody.
  erewrite (reloadDatabase_Ret s st _ w _ _ Hs Hmu Hbody);
    [| simpl; eapply lookup_updated; exact H1 | reflexivity].
  same_world. rewrite relock by auto. reflexivity.
Qed.

Lemma reloadDatabase_swap s st w d closing old r :
  states w !! s = Some st -> mu st = false ->
  fs w !! dbPath st = Some (Database d closing) ->
  dbInst st = Some old -> readers w !! old = Some r ->
  reloadDatabase s w
  = Ret (if closed r then None else closeErr r)
      (with_trace (Closed old
                   :: Log Info "closing old database"
                   :: Installed s (length (readers w))
                   :: Opened (dbPath st) (length (readers w))
                   :: Log Info "reloading database" :: trace w)
         (with_states (<[s := set_dbInst (Some (length (readers w))) st]> (states w))
            (with_readers
               (<[old := set_closed r]>
                  (readers w ++ [{| db := d; closed := false; closeErr := closing |}])%list)
               w))).
Proof.
  intros Hs Hmu Hfs Hold Hr. locked_world w1 s st w Hs H1.
  pose proof (reloadLocked_swap s _ w1 d closing old r H1 Hfs Hold Hr) as Hbody.
  erewrite (reloadDatabase_Ret s st _ w _ _ Hs Hmu Hbody);
    [| simpl; eapply lookup_updated; exact H1 | reflexivity].
  same_world. rewrite relock by auto. reflexivity.
Qed.

(** ** Reload *)

(** What [since] reads off a run that only added events. *)
Lemma since_cons es w w' :
  trace w' = (es ++ trace w)%list -> since w w' = List.rev es.
Proof.
  intros H. unfold since. rewrite H, length_app.
  replace (length es + length (trace w) - length (trace w))%nat
    with (length es) by lia.
  rewrite firstn_app, Nat.sub_diag, firstn_all. simpl.
  now rewrite app_nil_r.
Qed.

(** C5: when the database file exists but cannot be opened,
    [reloadDatabase] returns the error of [maxminddb.Open] and changes
    nothing but the log: the state (its handle slot included) and the heap
    of readers are as before, so a handle that was loaded stays installed
    and open.  The same holds for a turn of the reload ticker, which logs
    the error and goes on. *)
Theorem reloadDatabase_open_failure_keeps_handle s st w e :
  states w !! s = Some st -> mu st = false ->
  fs w !! dbPath st = Some (Unreadable e) ->
  (exists w',
      reloadDatabase s w = Ret (Some e) w'
      /\ states w' = states w /\ readers w' = readers w /\ fs w' = fs w
      /\ since w w' = [Log Info "reloading database"])
  /\ (forall period, exists w',
        tick {| runs := ReloadLoop; on := s; every := period |} w = Ret tt w'
        /\ states w' = states w /\ readers w' = readers w).
Proof.
  intros Hs Hmu Hfs.
  pose proof (reloadDatabase_unreadable s st w e Hs Hmu Hfs) as Hrun.
  split.
  - eexists. split; [exact Hrun |]. repeat split.
    apply (since_cons [_]). reflexivity.
  - intros period. unfold tick. simpl.
    rewrite (bind_Ret _ _ _ _ _ Hrun). eexists. split; [reflexivity |].
    split; reflexivity.
Qed.

(** C6: when a reload opens the file while an old handle is loaded, the
    new handle is put into the state's slot first and the old handle is
    closed afterwards, once: no [Close] of the old handle precedes the
    installation and exactly one follows it.  Afterwards the slot holds
    the new, open reader, and the old reader is closed. *)
Theorem reloadDatabase_closes_old_after_install s st w d closing old r :
  states w !! s = Some st -> mu st = false ->
  fs w !! dbPath st = Some (Database d closing) ->
  dbInst st = Some old -> readers w !! old = Some r ->
  exists result w' before later,
    let new := length (readers w) in
    reloadDatabase s w = Ret result w'
    /\ since w w' = (before ++ Installed s new :: later)%list
    /\ closings old before = 0%nat
    /\ closings old later = 1%nat
    /\ new <> old
    /\ dbInst <$> states w' !! s = Some (Some new)
    /\ closed <$> readers w' !! new = Some false
    /\ closed <$> readers w' !! old = Some true.
Proof.
  intros Hs Hmu Hfs Hold Hr.
  pose proof (lookup_lt_Some _ _ _ Hr) as Hlt.
  exists (if closed r then None else closeErr r). eexists.
  exists [Log Info "reloading database"; Opened (dbPath st) (length (readers w))].
  exists [Log Info "closing old database"; Closed old].
  cbv zeta. split; [apply (reloadDatabase_swap s st w d closing old r); auto |].
  split; [apply (since_cons [_; _; _; _; _]); reflexivity |].
  split; [reflexivity |].
  split; [unfold closings; simpl; now rewrite Nat.eqb_refl |].
  split; [lia |].
  simpl. split; [erewrite lookup_updated by eauto; reflexivity |].
  split.
  - rewrite list_lookup_insert_ne by lia.
    rewrite lookup_app_r, Nat.sub_diag by lia. reflexivity.
  - erewrite lookup_updated; [reflexivity |].
    apply lookup_app_l_Some. exact Hr.
Qed.

(** ** Download *)

Lemma downloadDatabase_reload s st cfg edition rest w :
  states w !! s = Some st -> config st = Some cfg ->
  EditionIDs cfg = edition :: rest ->
  downloadDatabase s w
  = reloadDatabase s (afterDownload cfg (dbPath st) edition w).
Proof.
  intros Hs Hcfg Hed. unfold downloadDatabase.
  rewrite (bind_Ret _ _ _ _ _ (deref_Some _ _ _ Hs)). rewrite Hcfg, Hed.
  unfold afterDownload, downloadLog, bind, log, emit,
    NewLocalFileDatabaseWriter, Get. simpl.
  destruct (writerErr _) eqn:Hw; simpl; rewrite ?Hw;
    destruct (getErr _) eqn:Hg; simpl; rewrite ?Hg; reflexivity.
Qed.

Lemma set_dbInst_same st : set_dbInst (dbInst st) st = st.
Proof. now destruct st. Qed.

(** [reloadDatabase] on a free mutex always returns, and touches the
    handle slot only. *)
Lemma reloadDatabase_returns s st w :
  states w !! s = Some st -> mu st = false ->
  (forall old, dbInst st = Some old -> is_Some (readers w !! old)) ->
  exists a w', reloadDatabase s w = Ret a w' /\ onlyHandle s w w'.
Proof.
  intros Hs Hmu Hold.
  destruct (fs w !! dbPath st) as [[e | d closing] |] eqn:Hfs.
  - eexists _, _. split; [apply (reloadDatabase_unreadable s st w e); auto |].
    exists (dbInst st), st. simpl.
    rewrite set_dbInst_same, list_insert_id by auto. repeat split; auto.
  - destruct (dbInst st) as [old |] eqn:Hinst.
    + destruct (Hold old eq_refl) as [r Hr].
      eexists _, _.
      split; [apply (reloadDatabase_swap s st w d closing old r); auto |].
      exists (Some (length (readers w))), st. simpl. repeat split; auto.
    + eexists _, _.
      split; [apply (reloadDatabase_first s st w d closing); auto |].
      exists (Some (length (readers w))), st. simpl. repeat split; auto.
  - eexists _, _. split; [apply (reloadDatabase_absent s st w); auto |].
    exists (dbInst st), st. simpl.
    rewrite set_dbInst_same, list_insert_id by auto. repeat split; auto.
Qed.



(** ** [state.Provision] *)

(** The state after the first two assignments of [state.Provision]. *)
Lemma Provision_local s st m w :
  states w !! s = Some st -> downloadMode m = false ->
  exists w1,
    state_Provision s m w
    = (failed <- reloadDatabase s ;; ret (cannotOpen m failed)) w1
    /\ states w1
       = <[s := set_dbPath (DbPath m) (set_done (Some (length (chans w))) st)]>
           (states w)
    /\ readers w1 = readers w /\ fs w1 = fs w /\ pool w1 = pool w
    /\ environ w1 = environ w
    /\ goroutines w1
       = (goroutines w
          ++ if ReloadFrequency m >? 0
             then [{| runs := ReloadLoop; on := s; every := ReloadFrequency m |}]
             else [])%list.
Proof.
  intros Hs Hmode. unfold state_Provision. rewrite Hmode.
  unfold bind at 1, makeChan.
  erewrite bind_Ret; [| apply store_Some; simpl; exact Hs].
  erewrite bind_Ret;
    [| apply store_Some; simpl; eapply lookup_updated; exact Hs].
  destruct (ReloadFrequency m >? 0).
  - eexists. split; [unfold bind at 1 2, log, emit, go; simpl; reflexivity |].
    simpl. rewrite list_insert_insert_eq. repeat split.
  - eexists. split; [unfold bind at 1, ret; simpl; reflexivity |].
    simpl. rewrite list_insert_insert_eq, app_nil_r. repeat split.
Qed.

Lemma newConfig_edition m path : exists edition, EditionIDs (newConfig m path) = [edition].
Proof.
  unfold newConfig. destruct (filepath.Split path). simpl. eauto.
Qed.

Lemma Provision_download s st m w :
  states w !! s = Some st -> downloadMode m = true ->
  exists w1,
    state_Provision s m w = downloadDatabase s w1
    /\ states w1
       = <[s := set_config (Some (newConfig m (DbPath m)))
                  (set_dbPath (DbPath m)
                     (set_done (Some (length (chans w))) st))]> (states w)
    /\ readers w1 = readers w /\ fs w1 = fs w /\ pool w1 = pool w
    /\ environ w1 = environ w /\ remote w1 = remote w
    /\ attempts w1 = attempts w
    /\ goroutines w1
       = (goroutines w
          ++ [{| runs := DownloadLoop; on := s; every := DownloadFrequency m |}])%list.
Proof.
  intros Hs Hmode. unfold state_Provision. rewrite Hmode.
  unfold bind at 1, makeChan.
  erewrite bind_Ret; [| apply store_Some; simpl; exact Hs].
  erewrite bind_Ret;
    [| apply store_Some; simpl; eapply lookup_updated; exact Hs].
  unfold bind at 1, log, emit.
  erewrite bind_Ret;
    [| apply deref_Some; simpl; eapply lookup_updated;
       eapply lookup_updated; exact Hs].
  erewrite bind_Ret;
    [| apply store_Some; simpl; eapply lookup_updated;
       eapply lookup_updated; exact Hs].
  unfold bind at 1, go. simpl.
  eexists. split; [reflexivity |]. simpl.
  rewrite !list_insert_insert_eq. repeat split.
Qed.

(** [state.Provision] on a state whose mutex is free always returns; it
    leaves the pool and the environment alone, replaces the state at [s]
    only, and starts at most one goroutine. *)
Lemma state_Provision_returns s st m w :
  states w !! s = Some st -> mu st = false ->
  (forall old, dbInst st = Some old -> is_Some (readers w !! old)) ->
  exists a w' st',
    state_Provision s m w = Ret a w'
    /\ pool w' = pool w /\ environ w' = environ w
    /\ states w' = <[s := st']> (states w)
    /\ dbPath st' = DbPath m /\ mu st' = false
    /\ exists started,
         goroutines w' = (goroutines w ++ started)%list
         /\ (length started <= 1)%nat.
Proof.
  intros Hs Hmu Hold.
  pose proof (lookup_lt_Some _ _ _ Hs) as Hlt.
  destruct (downloadMode m) eqn:Hmode.
  - destruct (Provision_download s st m w Hs Hmode)
      as (w1 & Hrun & Hst & Hrd & Hfs & Hpool & Henv & Hrem & Hatt & Hgo).
    set (st1 := set_config _ _) in Hst.
    assert (Hs1 : states w1 !! s = Some st1)
      by (rewrite Hst; eapply lookup_updated; exact Hs).
    destruct (newConfig_edition m (DbPath m)) as [edition Hed].
    rewrite Hrun,
      (downloadDatabase_reload s st1 _ edition [] w1 Hs1 eq_refl Hed).
    set (w2 := afterDownload _ _ _ w1).
    destruct (reloadDatabase_returns s st1 w2) as (a & w' & Hret & Hframe);
      [exact Hs1 | exact Hmu | simpl; rewrite Hrd; exact Hold |].
    destruct Hframe as (h & st2 & Hs2 & Hst2 & Hp2 & He2 & Hg2 & _).
    simpl in Hs2. rewrite Hs1 in Hs2. injection Hs2 as <-.
    exists a, w', (set_dbInst h st1). split; [exact Hret |].
    rewrite Hp2, He2, Hst2, Hg2. simpl.
    rewrite Hst, list_insert_insert_eq, Hpool, Henv, Hgo.
    repeat split; auto. eexists. split; [reflexivity | simpl; lia].
  - destruct (Provision_local s st m w Hs Hmode)
      as (w1 & Hrun & Hst & Hrd & Hfs & Hpool & Henv & Hgo).
    set (st1 := set_dbPath _ _) in Hst.
    assert (Hs1 : states w1 !! s = Some st1)
      by (rewrite Hst; eapply lookup_updated; exact Hs).
    destruct (reloadDatabase_returns s st1 w1) as (a & w' & Hret & Hframe);
      [exact Hs1 | exact Hmu | simpl; rewrite Hrd; exact Hold |].
    destruct Hframe as (h & st2 & Hs2 & Hst2 & Hp2 & He2 & Hg2 & _).
    rewrite Hs1 in Hs2. injection Hs2 as <-.
    exists (cannotOpen m a), w', (set_dbInst h st1).
    split; [rewrite Hrun; now rewrite (bind_Ret _ _ _ _ _ Hret) |].
    rewrite Hp2, He2, Hst2, Hg2.
    rewrite Hst, list_insert_insert_eq, Hpool, Henv, Hgo.
    repeat split; auto.
    eexists. split; [reflexivity |]. destruct (ReloadFrequency m >? 0); simpl; lia.
Qed.


(** ** [ServeHTTP] *)

Lemma SplitHostPort_error_host hostport h p e :
  net.SplitHostPort hostport = (h, p, Some e) -> h = "".
Proof.
  unfold net.SplitHostPort, net.splitHost, net.addrErr.
  repeat match goal with
         | |- context [if ?b then _ else _] => destruct b
         end; intros H; inversion H; reflexivity.
Qed.

Lemma ServeHTTP_unparseable m r w :
  net.ParseIP (remoteIp m r) = None ->
  ServeHTTP m r w
  = Ret (Next (trusted m r))
      (with_trace (Log Warn "cannot parse IP address" :: splitLog m r ++ trace w)%list w).
Proof.
  unfold remoteIp, splitLog, splitErr, ServeHTTP. cbv zeta.
  destruct (net.SplitHostPort (RemoteAddr (trusted m r))) as [[h p] f].
  simpl. intros Hparse. unfold bind, log, emit. simpl.
  destruct f; simpl; rewrite Hparse; reflexivity.
Qed.

Lemma ServeHTTP_no_database m r w s st addr :
  state_ m = Some s -> states w !! s = Some st -> dbInst st = None ->
  net.ParseIP (remoteIp m r) = Some addr ->
  ServeHTTP m r w
  = Ret (Next (if negb (String.eqb (OverrideCountryCode m) "")
               then Set_ "geoip.country_code" (OverrideCountryCode m)
                      (Set_ "geoip.country_code" "--" (trusted m r))
               else Set_ "geoip.country_code" "--" (trusted m r)))
      (with_trace (Log Warn "no database loaded, skipping geoip lookup"
                   :: splitLog m r ++ trace w)%list w).
Proof.
  unfold remoteIp, splitLog, splitErr, ServeHTTP. cbv zeta.
  destruct (net.SplitHostPort (RemoteAddr (trusted m r))) as [[h p] f].
  simpl. intros Hm Hs Hnil Hparse. unfold bind, log, emit. simpl.
  destruct f; simpl; rewrite Hparse, Hm; unfold deref; simpl;
    rewrite Hs, Hnil; reflexivity.
Qed.

Lemma ServeHTTP_lookup m r w s st h rd addr :
  state_ m = Some s -> states w !! s = Some st -> dbInst st = Some h ->
  readers w !! h = Some rd -> closed rd = false ->
  net.ParseIP (remoteIp m r) = Some addr ->
  ServeHTTP m r w
  = match db rd addr with
    | LookupError e =>
        Ret (Fail e)
          (with_trace (Log Warn "cannot lookup IP address"
                       :: LookedUp h addr :: splitLog m r ++ trace w)%list w)
    | found =>
        let record := match found with Match rec => rec | _ => zeroRecord end in
        let r1 := Set_ "geoip.country_code" (ISOCode (Country_ record))
                    (trusted m r) in
        Ret (Next (if negb (String.eqb (OverrideCountryCode m) "")
                      && (GeonameId (Country_ record) =? 0)
                   then Set_ "geoip.country_code" (OverrideCountryCode m) r1
                   else r1))
          (with_trace (Log Debug "found maxmind data"
                       :: LookedUp h addr :: splitLog m r ++ trace w)%list w)
    end.
Proof.
  unfold remoteIp, splitLog, splitErr, ServeHTTP. cbv zeta.
  destruct (net.SplitHostPort (RemoteAddr (trusted m r))) as [[hst p] f].
  simpl. intros Hm Hs Hh Hrd Hopen Hparse. unfold bind, log, emit. simpl.
  destruct f; simpl; rewrite Hparse, Hm; unfold deref, Lookup; simpl;
    rewrite Hs, Hh; simpl; rewrite Hrd, Hopen;
    destruct (db rd addr); reflexivity.
Qed.

Lemma country_code_Set v r :
  country_code (Set_ "geoip.country_code" v r) = Some v.
Proof. unfold country_code, Set_. simpl. apply lookup_insert_eq. Qed.

Lemma trusted_header m r :
  TrustHeader m <> "" -> HeaderGet r (TrustHeader m) <> "" ->
  trusted m r = set_RemoteAddr (HeaderGet r (TrustHeader m)) r.
Proof.
  intros H1 H2. unfold trusted.
  apply String.eqb_neq in H1, H2. now rewrite H1, H2.
Qed.

Lemma lookups_splitLog m r : lookups (List.rev (splitLog m r)) = 0%nat.
Proof. unfold splitLog. destruct (splitErr m r); reflexivity. Qed.

(** C9: with a database loaded, a lookup that returns no error and
    matches no entry leaves the zero record, and with no override
    configured the published [geoip.country_code] is the record's ISO code,
    the empty string, and not the sentinel. *)
Theorem no_match_publishes_empty_code m r w s st h rd addr :
  state_ m = Some s -> states w !! s = Some st -> dbInst st = Some h ->
  readers w !! h = Some rd -> closed rd = false ->
  net.ParseIP (remoteIp m r) = Some addr ->
  db rd addr = NoMatch -> OverrideCountryCode m = "" ->
  exists r' w',
    ServeHTTP m r w = Ret (Next r') w'
    /\ Lookup h addr w = Ret (zeroRecord, None) (with_trace (LookedUp h addr :: trace w) w)
    /\ country_code r' = Some (ISOCode (Country_ zeroRecord))
    /\ country_code r' = Some ""
    /\ country_code r' <> Some "--".
Proof.
  intros Hm Hs Hh Hrd Hopen Hparse Hmiss Hover.
  rewrite (ServeHTTP_lookup m r w s st h rd addr) by assumption.
  rewrite Hmiss, Hover. cbv zeta. simpl.
  eexists _, _. split; [reflexivity |].
  split; [unfold Lookup; now rewrite Hrd, Hopen, Hmiss |].
  rewrite country_code_Set. repeat split. discriminate.
Qed.

(** C8, as the code has it: when the trusted header is configured and
    present but its value cannot be split into host and port, the value
    does replace the peer address of the request, but the host handed to
    [net.ParseIP] is the empty string that [net.SplitHostPort] returns
    with its error; it never parses, so the request goes to the next
    handler with no lookup made and nothing published. *)
Theorem header_without_port_skips_lookup m r w :
  TrustHeader m <> "" -> HeaderGet r (TrustHeader m) <> "" ->
  snd (net.SplitHostPort (HeaderGet r (TrustHeader m))) <> None ->
  exists r' w',
    ServeHTTP m r w = Ret (Next r') w'
    /\ RemoteAddr r' = HeaderGet r (TrustHeader m)
    /\ remoteIp m r = ""
    /\ repl r' = repl r
    /\ lookups (since w w') = 0%nat
    /\ states w' = states w /\ readers w' = readers w.
Proof.
  intros Hcfg Hpresent Hsplit.
  assert (Hhost : remoteIp m r = "").
  { unfold remoteIp. rewrite (trusted_header m r Hcfg Hpresent). simpl.
    destruct (net.SplitHostPort (HeaderGet r (TrustHeader m)))
      as [[host port] [e |]] eqn:Hs; [| now elim Hsplit].
    simpl. eapply SplitHostPort_error_host, Hs. }
  rewrite ServeHTTP_unparseable by (rewrite Hhost; reflexivity).
  rewrite (trusted_header m r Hcfg Hpresent).
  eexists _, _. split; [reflexivity |]. simpl.
  repeat split; auto.
  rewrite (since_cons (Log Warn "cannot parse IP address" :: splitLog m r) w)
    by reflexivity.
  simpl. unfold lookups. rewrite List.filter_app, length_app.
  fold (lookups (List.rev (splitLog m r))). rewrite lookups_splitLog.
  reflexivity.
Qed.

(** C8 fails as stated: the handler of the tests, with a loaded database
    that knows 202.36.75.151, receives that address in its trusted header
    without a port.  The value is a valid address, yet no lookup is made
    and no code is published. *)
Lemma header_without_port_counterexample :
  net.ParseIP (HeaderGet bareRequest (TrustHeader servingHandler))
  = Some (net.IPv4 202 36 75 151)
  /\ loadedWith 0 sampleDb serving
  /\ sampleDb (net.IPv4 202 36 75 151) = Match NZ
  /\ exists r' w',
       ServeHTTP servingHandler bareRequest serving = Ret (Next r') w'
       /\ country_code r' = None
       /\ lookups (since serving w') = 0%nat.
Proof.
  split; [reflexivity |].
  split; [exists servingState, 0%nat,
            {| db := sampleDb; closed := false; closeErr := None |};
          repeat split |].
  split; [reflexivity |].
  rewrite ServeHTTP_unparseable by reflexivity.
  eexists _, _. split; [reflexivity |]. split; reflexivity.
Qed.

(** C4, as the code has it.  When there is no file at the database path,
    [state.Provision] returns no error and leaves the handle unset and
    the readers as they were.  While the handle is unset, every request
    whose address parses is passed on with the sentinel "--" published,
    or with the override code instead when one is configured, and no
    lookup is made.  (A request whose address does not parse is passed on
    with nothing published: see the counterexample.) *)
Theorem missing_database_serves_sentinel :
  (forall s st m w,
      states w !! s = Some st -> mu st = false -> dbInst st = None ->
      diskAtProvision m w !! DbPath m = None ->
      exists w',
        state_Provision s m w = Ret None w'
        /\ dbInst <$> states w' !! s = Some None
        /\ readers w' = readers w)
  /\ (forall m r w s st addr,
        state_ m = Some s -> states w !! s = Some st -> dbInst st = None ->
        net.ParseIP (remoteIp m r) = Some addr ->
        exists r' w',
          ServeHTTP m r w = Ret (Next r') w'
          /\ country_code r' = Some (fallbackCode m)
          /\ lookups (since w w') = 0%nat
          /\ states w' = states w).
Proof.
  split.
  - intros s st m w Hs Hmu Hnil Hdisk. unfold diskAtProvision in Hdisk.
    destruct (downloadMode m) eqn:Hmode.
    + destruct (Provision_download s st m w Hs Hmode)
        as (w1 & Hrun & Hst & Hrd & Hfs & Hpool & Henv & Hrem & Hatt & Hgo).
      set (st1 := set_config _ _) in Hst.
      assert (Hs1 : states w1 !! s = Some st1)
        by (rewrite Hst; eapply lookup_updated; exact Hs).
      destruct (newConfig_edition m (DbPath m)) as [edition Hed].
      rewrite Hrun,
        (downloadDatabase_reload s st1 _ edition [] w1 Hs1 eq_refl Hed).
      rewrite (reloadDatabase_absent s st1); auto.
      * eexists. split; [reflexivity |]. simpl.
        rewrite Hs1. split; [simpl; now rewrite Hnil | exact Hrd].
      * simpl. rewrite Hrem, Hatt, Hfs. exact Hdisk.
    + destruct (Provision_local s st m w Hs Hmode)
        as (w1 & Hrun & Hst & Hrd & Hfs & _).
      set (st1 := set_dbPath _ _) in Hst.
      assert (Hs1 : states w1 !! s = Some st1)
        by (rewrite Hst; eapply lookup_updated; exact Hs).
      rewrite Hrun.
      erewrite bind_Ret;
        [| apply (reloadDatabase_absent s st1); auto; simpl; now rewrite Hfs].
      eexists. split; [reflexivity |]. simpl.
      rewrite Hs1. split; [simpl; now rewrite Hnil | exact Hrd].
  - intros m r w s st addr Hm Hs Hnil Hparse.
    rewrite (ServeHTTP_no_database m r w s st addr) by assumption.
    eexists _, _. split; [reflexivity |]. unfold fallbackCode.
    split; [destruct (String.eqb (OverrideCountryCode m) ""); simpl;
            apply country_code_Set |].
    split; [| reflexivity].
    rewrite (since_cons
               (Log Warn "no database loaded, skipping geoip lookup"
                :: splitLog m r) w) by reflexivity.
    simpl. unfold lookups. rewrite List.filter_app, length_app.
    fold (lookups (List.rev (splitLog m r))). rewrite lookups_splitLog.
    reflexivity.
Qed.

(** C4 fails as stated: a handler is provisioned over a path with no
    file, as in the repository's test of a missing database, and then
    receives the test address in its trusted header without a port.  The
    request is passed on with nothing published, neither the sentinel nor
    a code. *)
Lemma missing_database_counterexample :
  fs (boot ∅) !! missingPath = None
  /\ GeoIP_Provision (handler missingPath) (boot ∅)
     = Ret (starvedHandler, None) starved
  /\ exists r' w',
       ServeHTTP starvedHandler bareRequest starved = Ret (Next r') w'
       /\ country_code r' = None.
Proof.
  split; [reflexivity |]. split; [vm_compute; reflexivity |].
  rewrite ServeHTTP_unparseable by (vm_compute; reflexivity).
  eexists _, _. split; [reflexivity | vm_compute; reflexivity].
Qed.

(** ** [Destruct] *)

Lemma Close_Some h r w :
  readers w !! h = Some r ->
  Close h w
  = Ret (if closed r then None else closeErr r)
        (with_trace (Closed h :: trace w)
           (with_readers (<[h := set_closed r]> (readers w)) w)).
Proof. intros H. unfold Close. now rewrite H. Qed.

(** The handle part of [Destruct]: the result and the world after it. *)
Lemma closeHandle_returns (st : state) w :
  (forall h, dbInst st = Some h -> is_Some (readers w !! h)) ->
  exists result w',
    match dbInst st with
    | Some h => Close h
    | None => ret None
    end w = Ret result w'
    /\ states w' = states w /\ chans w' = chans w
    /\ length (readers w') = length (readers w).
Proof.
  intros Hvalid. destruct (dbInst st) as [h |].
  - destruct (Hvalid h eq_refl) as [r Hr].
    rewrite (Close_Some h r w Hr). eexists _, _. split; [reflexivity |].
    simpl. rewrite length_insert. auto.
  - eexists _, _. split; [reflexivity |]. auto.
Qed.

Lemma destructLocked_open s st c w :
  states w !! s = Some st -> done st = Some c -> chans w !! c = Some false ->
  (forall h, dbInst st = Some h -> is_Some (readers w !! h)) ->
  exists result w',
    destructLocked s w = Ret result w'
    /\ states w' = states w /\ chans w' = <[c := true]> (chans w)
    /\ length (readers w') = length (readers w).
Proof.
  intros Hs Hdone Hchan Hvalid. unfold destructLocked.
  rewrite (bind_Ret _ _ _ _ _ (deref_Some _ _ _ Hs)). rewrite Hdone.
  unfold bind at 1, closeChan. rewrite Hchan.
  erewrite bind_Ret; [| apply deref_Some; simpl; exact Hs].
  destruct (closeHandle_returns st
              (with_trace (ChanClosed c :: trace w)
                 (with_chans (<[c := true]> (chans w)) w)) Hvalid)
    as (result & w' & Hrun & Hst & Hch & Hlen).
  exists result, w'. split; [exact Hrun |]. auto.
Qed.

Lemma destructLocked_closed s st c w :
  states w !! s = Some st -> done st = Some c -> chans w !! c = Some true ->
  destructLocked s w = Panic "close of closed channel" w.
Proof.
  intros Hs Hdone Hchan. unfold destructLocked.
  rewrite (bind_Ret _ _ _ _ _ (deref_Some _ _ _ Hs)). rewrite Hdone.
  unfold bind, closeChan. now rewrite Hchan.
Qed.

Lemma destructLocked_nil s st w :
  states w !! s = Some st -> done st = None ->
  (forall h, dbInst st = Some h -> is_Some (readers w !! h)) ->
  exists result w',
    destructLocked s w = Ret result w'
    /\ states w' = states w /\ chans w' = chans w
    /\ length (readers w') = length (readers w).
Proof.
  intros Hs Hdone Hvalid. unfold destructLocked.
  rewrite (bind_Ret _ _ _ _ _ (deref_Some _ _ _ Hs)). rewrite Hdone.
  unfold bind at 1, ret.
  rewrite (bind_Ret _ _ _ _ _ (deref_Some _ _ _ Hs)).
  apply closeHandle_returns, Hvalid.
Qed.

Lemma unlock_restores s st (l : list state) :
  l !! s = Some st -> mu st = false ->
  <[s := set_mu false (set_mu true st)]> (<[s := set_mu true st]> l) = l.
Proof.
  intros Hs Hmu.
  now rewrite list_insert_insert_eq, set_mu_restore, list_insert_id.
Qed.

(** C2, as the code has it: on a provisioned state the first [Destruct]
    returns, with the cancellation channel closed and the mutex released;
    a second [Destruct] neither blocks on the mutex nor returns an error,
    but panics with "close of closed channel", since the guard tests the
    channel for nil only and the channel is closed, not nil.  The deferred
    unlock runs before the panic goes on, and the handle is not closed
    again. *)
Theorem second_Destruct_panics s st c w :
  states w !! s = Some st -> mu st = false ->
  done st = Some c -> chans w !! c = Some false ->
  (forall h, dbInst st = Some h -> is_Some (readers w !! h)) ->
  exists result w1 w2,
    Destruct s w = Ret result w1
    /\ chans w1 !! c = Some true /\ states w1 = states w
    /\ Destruct s w1 = Panic "close of closed channel" w2
    /\ states w2 = states w /\ readers w2 = readers w1
    /\ since w1 w2 = [].
Proof.
  intros Hs Hmu Hdone Hchan Hvalid.
  pose proof (lookup_updated s st (set_mu true st) _ Hs) as Hs1.
  destruct (destructLocked_open s (set_mu true st) c
              (with_states (<[s := set_mu true st]> (states w)) w))
    as (result & w1 & Hrun & Hst & Hch & Hlen); auto.
  assert (Hs2 : states w1 !! s = Some (set_mu true st)) by now rewrite Hst.
  pose proof (locked_Ret s st (set_mu true st) (destructLocked s) w
                result w1 Hs Hmu Hrun Hs2 eq_refl) as Hfirst.
  set (w1' := with_states _ w1) in Hfirst.
  assert (Hstates : states w1' = states w).
  { unfold w1'. simpl. rewrite Hst. now apply unlock_restores. }
  assert (Hs3 : states w1' !! s = Some st) by now rewrite Hstates.
  assert (Hclosed : chans w1' !! c = Some true).
  { unfold w1'. simpl. rewrite Hch. eapply lookup_updated, Hchan. }
  clearbody w1'.
  pose proof (lookup_updated s st (set_mu true st) _ Hs3) as Hs4.
  pose proof (destructLocked_closed s (set_mu true st) c
                (with_states (<[s := set_mu true st]> (states w1')) w1')
                Hs4 Hdone Hclosed) as Hpanic.
  pose proof (locked_Panic s st (set_mu true st) (destructLocked s) w1'
                _ _ Hs3 Hmu Hpanic Hs4 eq_refl) as Hsecond.
  eexists result, w1', _.
  split; [exact Hfirst |]. split; [exact Hclosed |].
  split; [exact Hstates |]. split; [exact Hsecond |]. simpl.
  split; [rewrite Hstates; now apply unlock_restores |].
  split; [reflexivity |].
  unfold since. simpl. now rewrite Nat.sub_diag.
Qed.

(** ** The pool and [GeoIP.Provision] *)

Lemma loadEnv_ok m w :
  envOk w ->
  exists m1, loadEnv m w = Ret (m1, None) w /\ DbPath m1 = DbPath m.
Proof.
  unfold envOk, loadEnv, bind, Getenv. cbv zeta.
  destruct (strconv.Atoi (default "" (environ w !! "GEOIP_ACCOUNT_ID")))
    as [i failed].
  simpl. intros [Hempty | Hnum].
  - rewrite Hempty. simpl.
    eexists. split; [reflexivity |].
    repeat match goal with
           | |- context [if ?b then _ else _] => destruct b
           end; reflexivity.
  - rewrite Hnum. rewrite bool_decide_eq_false_2 by (intros H; now apply H).
    rewrite andb_false_r.
    eexists. split; [reflexivity |].
    repeat match goal with
           | |- context [if ?b then _ else _] => destruct b
           end; reflexivity.
Qed.


(** [logStatus] on a state that exists logs one line and returns. *)
Lemma logStatus_Some s st w :
  states w !! s = Some st ->
  exists e, logStatus s w = Ret tt (with_trace (e :: trace w) w).
Proof.
  intros Hs. unfold logStatus. rewrite (bind_Ret _ _ _ _ _ (deref_Some _ _ _ Hs)).
  destruct (dbInst st); eexists; reflexivity.
Qed.

(** The first [GeoIP.Provision] of a process runs the constructor, and
    whatever its [state.Provision] returns is dropped: the state enters
    the pool and no error comes back. *)
Lemma GeoIP_Provision_constructs m m1 w a w2 st :
  loadEnv m w = Ret (m1, None) w ->
  pool w !! "geoip.state" = None ->
  state_Provision (length (states w)) m1 (constructing w) = Ret a w2 ->
  states w2 !! length (states w) = Some st ->
  exists status,
    GeoIP_Provision m w
    = Ret (set_state (Some (length (states w))) m1, None)
        (provisioned (length (states w)) status w2).
Proof.
  intros Henv Hpool Hrun Hs2. unfold GeoIP_Provision.
  rewrite (bind_Ret _ _ _ _ _ Henv).
  assert (Hconstruct :
            construct m1 (with_pool (<["geoip.state" := {| refs := 1; value := None; err := None |}]> (pool w)) w)
            = Ret (Some (length (states w)), None) w2).
  { unfold construct. unfold bind at 1, newState.
    change (with_states _ _) with (constructing w).
    change (length (states (with_pool _ w))) with (length (states w)).
    now rewrite (bind_Ret _ _ _ _ _ Hrun). }
  assert (Hload : LoadOrNew "geoip.state" (construct m1) w
                  = Ret (Some (length (states w)), false, None)
                      (with_pool (alter (set_value (Some (length (states w))))
                                    "geoip.state" (pool w2)) w2)).
  { unfold LoadOrNew. rewrite Hpool. now rewrite Hconstruct. }
  rewrite (bind_Ret _ _ _ _ _ Hload).
  set (w3 := with_pool _ w2) in *.
  assert (Hs3 : states w3 !! length (states w) = Some st) by exact Hs2.
  destruct (logStatus_Some _ _ _ Hs3) as [e Hlog].
  rewrite (bind_Ret _ _ _ _ _ Hlog).
  exists e. reflexivity.
Qed.

Lemma constructing_zero w :
  states (constructing w) !! length (states w)
  = Some {| mu := false; dbInst := None; done := None; dbPath := "";
            config := None |}.
Proof. simpl. rewrite lookup_app_r, Nat.sub_diag by lia. reflexivity. Qed.

Lemma GeoIP_Provision_first m m1 w :
  loadEnv m w = Ret (m1, None) w ->
  pool w !! "geoip.state" = None ->
  exists w' st,
    let s := length (states w) in
    GeoIP_Provision m w = Ret (set_state (Some s) m1, None) w'
    /\ states w' = (states w ++ [st])%list
    /\ dbPath st = DbPath m1
    /\ pool w' = <["geoip.state" := {| refs := 1; value := Some s; err := None |}]> (pool w)
    /\ environ w' = environ w
    /\ exists started,
         goroutines w' = (goroutines w ++ started)%list
         /\ (length started <= 1)%nat.
Proof.
  intros Henv Hpool. cbv zeta.
  destruct (state_Provision_returns (length (states w)) _ m1 (constructing w)
              (constructing_zero w) eq_refl)
    as (a & w2 & st & Hrun & Hp2 & He2 & Hst2 & Hpath & Hmu2 & started & Hgo & Hlen);
    [intros old Hold; discriminate |].
  assert (Hstates : states w2 = (states w ++ [st])%list).
  { rewrite Hst2. simpl.
    rewrite insert_app_r_alt, Nat.sub_diag by lia. reflexivity. }
  assert (Hs2 : states w2 !! length (states w) = Some st).
  { rewrite Hstates, lookup_app_r, Nat.sub_diag by lia. reflexivity. }
  destruct (GeoIP_Provision_constructs m m1 w a w2 st Henv Hpool Hrun Hs2)
    as [status Hprov].
  eexists _, st. split; [exact Hprov |].
  simpl. rewrite Hstates, Hp2, He2, Hgo. simpl.
  rewrite alter_insert_eq. simpl.
  repeat split; auto. exists started; auto.
Qed.

(** A later [GeoIP.Provision]: the state in the pool is handed out again,
    with one more reference; the constructor does not run, so no state is
    built and no goroutine started. *)
Lemma GeoIP_Provision_again m m1 w s n :
  loadEnv m w = Ret (m1, None) w -> pooled s n w ->
  exists w',
    GeoIP_Provision m w = Ret (set_state (Some s) m1, None) w'
    /\ states w' = states w /\ goroutines w' = goroutines w
    /\ readers w' = readers w /\ chans w' = chans w
    /\ environ w' = environ w
    /\ pooled s (int32 (n + 1)) w'.
Proof.
  intros Henv (upv & st & Hpool & Hval & Herr & Hrefs & Hs).
  unfold GeoIP_Provision. rewrite (bind_Ret _ _ _ _ _ Henv).
  unfold bind at 1, LoadOrNew. rewrite Hpool, Hval, Herr.
  set (w3 := with_pool _ w).
  assert (Hs3 : states w3 !! s = Some st) by exact Hs.
  destruct (logStatus_Some _ _ _ Hs3) as [e Hlog].
  rewrite (bind_Ret _ _ _ _ _ Hlog).
  exists (with_trace (e :: trace w3) w3).
  split; [reflexivity |]. simpl.
  repeat split; auto.
  exists (add_ref upv), st. subst w3. simpl. rewrite lookup_insert_eq.
  simpl. rewrite Hrefs. auto.
Qed.

(** ** One state for the process *)

Lemma envOk_environ w w' : environ w' = environ w -> envOk w -> envOk w'.
Proof. unfold envOk. now intros ->. Qed.

(** Handlers provisioned while the state is in the pool all receive it:
    no state is built, no goroutine started, no file opened. *)
Lemma provisionAll_again ms : forall w s n,
  envOk w -> pooled s n w ->
  exists results w' n',
    provisionAll ms w = Ret results w'
    /\ Forall2 (fun m r => snd r = None /\ state_ (fst r) = Some s
                           /\ DbPath (fst r) = DbPath m) ms results
    /\ states w' = states w /\ goroutines w' = goroutines w
    /\ readers w' = readers w /\ chans w' = chans w
    /\ environ w' = environ w
    /\ pooled s n' w'.
Proof.
  induction ms as [| m ms IH]; intros w s n Henv Hpool.
  - exists [], w, n. simpl. repeat split; auto.
  - destruct (loadEnv_ok m w Henv) as (m1 & Hload & Hpath).
    destruct (GeoIP_Provision_again m m1 w s n Hload Hpool)
      as (w1 & Hrun & Hst & Hgo & Hrd & Hch & He & Hpool1).
    destruct (IH w1 s _ (envOk_environ _ _ He Henv) Hpool1)
      as (results & w' & n' & Hrest & Hall & Hst' & Hgo' & Hrd' & Hch' & He' & Hpool').
    exists ((set_state (Some s) m1, None) :: results), w', n'.
    split.
    { simpl. rewrite (bind_Ret _ _ _ _ _ Hrun).
      now rewrite (bind_Ret _ _ _ _ _ Hrest). }
    split; [constructor; simpl; auto |].
    rewrite Hst', Hgo', Hrd', Hch', He'. repeat split; auto.
Qed.

(** C1, as the code has it: the pool is keyed by the constant
    "geoip.state", not by the database path.  In a process whose pool does
    not hold the key yet, the handlers of a configuration, whatever their
    database paths, all receive the one state that the first of them
    builds: the constructor runs once, one state is added to the heap, it
    reads the database path of the first handler, and at most one ticker
    goroutine is started. *)
Theorem one_state_per_process m ms w :
  envOk w -> pool w !! "geoip.state" = None ->
  exists results w' st,
    let s := length (states w) in
    provisionAll (m :: ms) w = Ret results w'
    /\ Forall2 (fun m r => snd r = None /\ state_ (fst r) = Some s
                           /\ DbPath (fst r) = DbPath m) (m :: ms) results
    /\ states w' = (states w ++ [st])%list
    /\ dbPath st = DbPath m
    /\ (exists started,
          goroutines w' = (goroutines w ++ started)%list
          /\ (length started <= 1)%nat)
    /\ exists n, pooled s n w'.
Proof.
  intros Henv Hpool. cbv zeta.
  destruct (loadEnv_ok m w Henv) as (m1 & Hload & Hpath).
  destruct (GeoIP_Provision_first m m1 w Hload Hpool)
    as (w1 & st & Hrun & Hst & Hp & Hpool1 & He & started & Hgo & Hlen).
  assert (Hin : pooled (length (states w)) 1 w1).
  { exists {| refs := 1; value := Some (length (states w)); err := None |}, st.
    rewrite Hpool1, lookup_insert_eq, Hst, lookup_app_r, Nat.sub_diag by lia.
    repeat split. }
  destruct (provisionAll_again ms w1 _ 1 (envOk_environ _ _ He Henv) Hin)
    as (results & w' & n' & Hrest & Hall & Hst' & Hgo' & _ & _ & _ & Hpool').
  exists ((set_state (Some (length (states w))) m1, None) :: results), w', st.
  split.
  { simpl. rewrite (bind_Ret _ _ _ _ _ Hrun).
    now rewrite (bind_Ret _ _ _ _ _ Hrest). }
  split; [constructor; simpl; auto |].
  rewrite Hst', Hgo', Hst, Hgo, Hp, Hpath.
  repeat split; eauto.
Qed.

(** C1 fails as stated: two handlers with distinct database paths are
    provisioned; the first path has no file, the second holds a good
    database.  Both handlers receive the state at address 0, the only
    state there is; it reads the path of the first handler, so the second
    handler has no database loaded although its file is there. *)
Lemma distinct_paths_counterexample :
  DbPath (handler missingPath) <> DbPath (handler samplePath)
  /\ provisionAll twoHandlers twoHandlersBoot
     = Ret [(set_state (Some 0%nat) (handler missingPath), None);
            (set_state (Some 0%nat) (handler samplePath), None)]
         (after (provisionAll twoHandlers) twoHandlersBoot)
  /\ states (after (provisionAll twoHandlers) twoHandlersBoot) = [starvedState]
  /\ fs (after (provisionAll twoHandlers) twoHandlersBoot) !! samplePath
     = Some (Database sampleDb None).
Proof.
  split; [discriminate |].
  split; [vm_compute; reflexivity |].
  split; vm_compute; reflexivity.
Qed.

(** ** The error of [state.Provision] *)

Lemma state_Provision_unreadable s st m w e :
  states w !! s = Some st -> mu st = false -> downloadMode m = false ->
  fs w !! DbPath m = Some (Unreadable e) ->
  exists w',
    state_Provision s m w = Ret (cannotOpen m (Some e)) w'
    /\ states w'
       = <[s := set_dbPath (DbPath m) (set_done (Some (length (chans w))) st)]>
           (states w)
    /\ pool w' = pool w /\ readers w' = readers w.
Proof.
  intros Hs Hmu Hmode Hfs.
  destruct (Provision_local s st m w Hs Hmode)
    as (w1 & Hrun & Hst & Hrd & Hfs1 & Hpool & Henv & Hgo).
  set (st1 := set_dbPath _ _) in Hst.
  assert (Hs1 : states w1 !! s = Some st1)
    by (rewrite Hst; eapply lookup_updated; exact Hs).
  rewrite Hrun.
  erewrite bind_Ret;
    [| apply (reloadDatabase_unreadable s st1 w1 e); auto; simpl; now rewrite Hfs1].
  eexists. split; [reflexivity |]. simpl. auto.
Qed.

(** C3, as the code has it: in a process that has no state yet, with no
    download configured and a file at the database path that cannot be
    opened, the [state.Provision] that the constructor runs returns the
    error "cannot open database file ...", and [GeoIP.Provision] returns
    no error: the constructor drops what [state.Provision] returns.  The
    handler is left with a state whose handle is unset. *)
Theorem open_failure_is_dropped m m1 w e :
  loadEnv m w = Ret (m1, None) w ->
  pool w !! "geoip.state" = None ->
  downloadMode m1 = false ->
  fs w !! DbPath m1 = Some (Unreadable e) ->
  exists w2 w',
    let s := length (states w) in
    state_Provision s m1 (constructing w)
    = Ret (Some ("cannot open database file " +:+ DbPath m1 +:+ ": " +:+ e)) w2
    /\ GeoIP_Provision m w = Ret (set_state (Some s) m1, None) w'
    /\ dbInst <$> states w' !! s = Some None.
Proof.
  intros Henv Hpool Hmode Hfs. cbv zeta.
  destruct (state_Provision_unreadable (length (states w)) _ m1 (constructing w) e
              (constructing_zero w) eq_refl Hmode Hfs)
    as (w2 & Hrun & Hst & _).
  set (st1 := set_dbPath _ _) in Hst.
  assert (Hs2 : states w2 !! length (states w) = Some st1).
  { rewrite Hst. eapply lookup_updated. apply constructing_zero. }
  destruct (GeoIP_Provision_constructs m m1 w _ w2 st1 Henv Hpool Hrun Hs2)
    as [status Hprov].
  exists w2, (provisioned (length (states w)) status w2).
  split; [exact Hrun |]. split; [exact Hprov |].
  simpl. now rewrite Hs2.
Qed.

(** C2 fails as stated: the state of a provisioned handler is destructed
    twice; the first call returns no error, the second panics. *)
Lemma second_Destruct_counterexample :
  Destruct 0 serving = Ret None (after (Destruct 0) serving)
  /\ Destruct 0 (after (Destruct 0) serving)
     = Panic "close of closed channel"
         (after (Destruct 0) (after (Destruct 0) serving)).
Proof. split; vm_compute; reflexivity. Qed.

(** ** The theorems on the sample worlds *)

Lemma one_state_per_process_witness :
  exists results w' st,
    let s := length (states twoHandlersBoot) in
    provisionAll (handler missingPath :: [handler samplePath]) twoHandlersBoot
    = Ret results w'
    /\ Forall2 (fun m r => snd r = None /\ state_ (fst r) = Some s
                           /\ DbPath (fst r) = DbPath m)
         (handler missingPath :: [handler samplePath]) results
    /\ states w' = (states twoHandlersBoot ++ [st])%list
    /\ dbPath st = DbPath (handler missingPath)
    /\ (exists started,
          goroutines w' = (goroutines twoHandlersBoot ++ started)%list
          /\ (length started <= 1)%nat)
    /\ exists n, pooled s n w'.
Proof.
  apply (one_state_per_process (handler missingPath) [handler samplePath]
           twoHandlersBoot).
  - left. reflexivity.
  - reflexivity.
Defined.

Lemma second_Destruct_panics_witness :
  exists result w1 w2,
    Destruct 0 serving = Ret result w1
    /\ chans w1 !! 0%nat = Some true /\ states w1 = states serving
    /\ Destruct 0 w1 = Panic "close of closed channel" w2
    /\ states w2 = states serving /\ readers w2 = readers w1
    /\ since w1 w2 = [].
Proof.
  apply (second_Destruct_panics 0 servingState 0 serving).
  - vm_compute; reflexivity.
  - reflexivity.
  - reflexivity.
  - vm_compute; reflexivity.
  - intros h H. injection H as <-.
    exists {| db := sampleDb; closed := false; closeErr := None |}.
    vm_compute; reflexivity.
Defined.

Lemma open_failure_is_dropped_witness :
  exists w2 w',
    let s := length (states corruptedBoot) in
    state_Provision s (handler samplePath) (constructing corruptedBoot)
    = Ret (Some ("cannot open database file " +:+ DbPath (handler samplePath)
                 +:+ ": " +:+ "invalid MaxMind DB file")) w2
    /\ GeoIP_Provision (handler samplePath) corruptedBoot
       = Ret (set_state (Some s) (handler samplePath), None) w'
    /\ dbInst <$> states w' !! s = Some None.
Proof.
  apply (open_failure_is_dropped (handler samplePath) (handler samplePath)
           corruptedBoot "invalid MaxMind DB file").
  - vm_compute; reflexivity.
  - reflexivity.
  - reflexivity.
  - vm_compute; reflexivity.
Defined.

Lemma missing_database_serves_sentinel_witness :
  (exists w',
      state_Provision 0 (handler missingPath) (constructing (boot ∅)) = Ret None w'
      /\ dbInst <$> states w' !! 0%nat = Some None
      /\ readers w' = readers (constructing (boot ∅)))
  /\ (exists r' w',
        ServeHTTP starvedHandler portRequest starved = Ret (Next r') w'
        /\ country_code r' = Some (fallbackCode starvedHandler)
        /\ lookups (since starved w') = 0%nat
        /\ states w' = states starved).
Proof.
  destruct missing_database_serves_sentinel as [Hprovision Hserve].
  split.
  - apply (Hprovision 0%nat
             {| mu := false; dbInst := None; done := None; dbPath := "";
                config := None |}); reflexivity.
  - apply (Hserve starvedHandler portRequest starved 0%nat starvedState
             (net.IPv4 202 36 75 151)); vm_compute; reflexivity.
Defined.

Lemma reloadDatabase_open_failure_keeps_handle_witness :
  (exists w',
      reloadDatabase 0 corrupted = Ret (Some "invalid MaxMind DB file") w'
      /\ states w' = states corrupted /\ readers w' = readers corrupted
      /\ fs w' = fs corrupted
      /\ since corrupted w' = [Log Info "reloading database"])
  /\ (forall period, exists w',
        tick {| runs := ReloadLoop; on := 0; every := period |} corrupted
        = Ret tt w'
        /\ states w' = states corrupted /\ readers w' = readers corrupted).
Proof.
  apply (reloadDatabase_open_failure_keeps_handle 0 servingState corrupted
           "invalid MaxMind DB file").
  - vm_compute; reflexivity.
  - reflexivity.
  - vm_compute; reflexivity.
Defined.

Lemma reloadDatabase_closes_old_after_install_witness :
  exists result w' before later,
    let new := length (readers serving) in
    reloadDatabase 0 serving = Ret result w'
    /\ since serving w' = (before ++ Installed 0 new :: later)%list
    /\ closings 0 before = 0%nat
    /\ closings 0 later = 1%nat
    /\ new <> 0%nat
    /\ dbInst <$> states w' !! 0%nat = Some (Some new)
    /\ closed <$> readers w' !! new = Some false
    /\ closed <$> readers w' !! 0%nat = Some true.
Proof.
  apply (reloadDatabase_closes_old_after_install 0 servingState serving
           sampleDb None 0
           {| db := sampleDb; closed := false; closeErr := None |}).
  - vm_compute; reflexivity.
  - reflexivity.
  - vm_compute; reflexivity.
  - reflexivity.
  - vm_compute; reflexivity.
Defined.


Lemma header_without_port_skips_lookup_witness :
  exists r' w',
    ServeHTTP servingHandler bareRequest serving = Ret (Next r') w'
    /\ RemoteAddr r' = HeaderGet bareRequest (TrustHeader servingHandler)
    /\ remoteIp servingHandler bareRequest = ""
    /\ repl r' = repl bareRequest
    /\ lookups (since serving w') = 0%nat
    /\ states w' = states serving /\ readers w' = readers serving.
Proof.
  apply (header_without_port_skips_lookup servingHandler bareRequest serving).
  - discriminate.
  - discriminate.
  - vm_compute; discriminate.
Defined.

Lemma no_match_publishes_empty_code_witness :
  exists r' w',
    ServeHTTP servingHandler localRequest serving = Ret (Next r') w'
    /\ Lookup 0 (net.IPv4 127 0 0 1) serving
       = Ret (zeroRecord, None)
           (with_trace (LookedUp 0 (net.IPv4 127 0 0 1) :: trace serving) serving)
    /\ country_code r' = Some (ISOCode (Country_ zeroRecord))
    /\ country_code r' = Some ""
    /\ country_code r' <> Some "--".
Proof.
  apply (no_match_publishes_empty_code servingHandler localRequest serving
           0 servingState 0
           {| db := sampleDb; closed := false; closeErr := None |}
           (net.IPv4 127 0 0 1)).
  - reflexivity.
  - vm_compute; reflexivity.
  - reflexivity.
  - vm_compute; reflexivity.
  - reflexivity.
  - vm_compute; reflexivity.
  - vm_compute; reflexivity.
  - reflexivity.
Defined.


(** * Further properties of the code *)

(** ** state.go: [reloadDatabase] and the tickers *)

(** X1: the first load.  On a state with no handle, a reload over a good
    file returns no error and leaves an open reader of that file in the
    slot; the reader is the one new reader on the heap, no [Close] is
    called on any reader, and the mutex is free again. *)
Theorem reloadDatabase_first_load s st w d closing :
  states w !! s = Some st -> mu st = false ->
  fs w !! dbPath st = Some (Database d closing) -> dbInst st = None ->
  exists w',
    reloadDatabase s w = Ret None w'
    /\ loadedWith s d w'
    /\ readers w'
       = (readers w ++ [{| db := d; closed := false; closeErr := closing |}])%list
    /\ (forall h, closings h (since w w') = 0%nat)
    /\ mu <$> states w' !! s = Some false.
Proof.
  intros Hs Hmu Hfs Hnil.
  rewrite (reloadDatabase_first s st w d closing Hs Hmu Hfs Hnil).
  eexists. split; [reflexivity |]. simpl.
  split.
  { eexists _, (length (readers w)),
      {| db := d; closed := false; closeErr := closing |}. simpl.
    split; [eapply lookup_updated; eauto |].
    split; [reflexivity |]. split; [| split; reflexivity].
    rewrite lookup_app_r, Nat.sub_diag by lia. reflexivity. }
  split; [reflexivity |].
  split.
  { intros h. erewrite (since_cons [_; _; _; _]) by reflexivity. reflexivity. }
  erewrite lookup_updated by eauto. simpl. now rewrite Hmu.
Qed.

Lemma reloadDatabase_first_load_witness :
  exists w',
    reloadDatabase 0 arrived = Ret None w'
    /\ loadedWith 0 sampleDb w'
    /\ readers w'
       = (readers arrived
          ++ [{| db := sampleDb; closed := false; closeErr := None |}])%list
    /\ (forall h, closings h (since arrived w') = 0%nat)
    /\ mu <$> states w' !! 0%nat = Some false.
Proof.
  apply (reloadDatabase_first_load 0 arrivedState).
  - vm_compute; reflexivity.
  - reflexivity.
  - vm_compute; reflexivity.
  - reflexivity.
Defined.

(** X2: on a free mutex [reloadDatabase] always returns, whatever is on
    disk, and it touches nothing of the state but the handle slot: the
    channel, the path and the configuration are as before, the pool, the
    goroutines and the disk are untouched, and the deferred unlock has
    released the mutex. *)
Theorem reloadDatabase_touches_handle_only s st w :
  states w !! s = Some st -> mu st = false ->
  (forall old, dbInst st = Some old -> is_Some (readers w !! old)) ->
  exists result w' h,
    reloadDatabase s w = Ret result w'
    /\ onlyHandle s w w'
    /\ states w' !! s = Some (set_dbInst h st)
    /\ mu (set_dbInst h st) = false.
Proof.
  intros Hs Hmu Hold.
  destruct (reloadDatabase_returns s st w Hs Hmu Hold)
    as (a & w' & Hret & Hframe).
  pose proof Hframe as (h & st0 & Hs0 & Hst & _).
  rewrite Hs in Hs0. injection Hs0 as <-.
  exists a, w', h. split; [exact Hret |]. split; [exact Hframe |].
  split; [rewrite Hst; eapply lookup_updated; exact Hs | exact Hmu].
Qed.

Lemma reloadDatabase_touches_handle_only_witness :
  exists result w' h,
    reloadDatabase 0 corrupted = Ret result w'
    /\ onlyHandle 0 corrupted w'
    /\ states w' !! 0%nat = Some (set_dbInst h servingState)
    /\ mu (set_dbInst h servingState) = false.
Proof.
  apply (reloadDatabase_touches_handle_only 0 servingState corrupted).
  - vm_compute; reflexivity.
  - reflexivity.
  - intros old H. injection H as <-.
    exists {| db := sampleDb; closed := false; closeErr := None |}.
    vm_compute; reflexivity.
Defined.



(** ** state.go: [state.Provision] *)





(** ** state.go: [Destruct] *)

Lemma with_states_same w : with_states (states w) w = w.
Proof. now destruct w. Qed.

(** The run of [Destruct] on a provisioned state with a handle. *)
Lemma Destruct_loaded s st c h r w :
  states w !! s = Some st -> mu st = false ->
  done st = Some c -> chans w !! c = Some false ->
  dbInst st = Some h -> readers w !! h = Some r ->
  Destruct s w
  = Ret (if closed r then None else closeErr r)
      (with_trace (Closed h :: ChanClosed c :: trace w)
         (with_readers (<[h := set_closed r]> (readers w))
            (with_chans (<[c := true]> (chans w)) w))).
Proof.
  intros Hs Hmu Hdone Hchan Hinst Hr.
  pose proof (lookup_updated s st (set_mu true st) _ Hs) as Hs1.
  assert (Hbody :
            destructLocked s (with_states (<[s := set_mu true st]> (states w)) w)
            = Ret (if closed r then None else closeErr r)
                (with_trace (Closed h :: ChanClosed c :: trace w)
                   (with_readers (<[h := set_closed r]> (readers w))
                      (with_chans (<[c := true]> (chans w))
                         (with_states (<[s := set_mu true st]> (states w)) w))))).
  { unfold destructLocked.
    erewrite bind_Ret; [| apply deref_Some; simpl; exact Hs1].
    simpl. rewrite Hdone.
    unfold bind at 1, closeChan. simpl. rewrite Hchan.
    erewrite bind_Ret; [| apply deref_Some; simpl; exact Hs1].
    simpl. rewrite Hinst. unfold Close. simpl. rewrite Hr. reflexivity. }
  unfold Destruct.
  rewrite (locked_Ret s st (set_mu true st) (destructLocked s) w _ _
             Hs Hmu Hbody Hs1 eq_refl).
  f_equal. unfold with_states, with_trace, with_readers, with_chans. simpl.
  now rewrite unlock_restores.
Qed.

(** X5: [Destruct] on a state that was never provisioned, with no channel
    and no handle, takes and releases the mutex and does nothing else: it
    returns no error and the process is as before. *)
Theorem Destruct_unprovisioned s st w :
  states w !! s = Some st -> mu st = false ->
  done st = None -> dbInst st = None ->
  Destruct s w = Ret None w.
Proof.
  intros Hs Hmu Hdone Hinst.
  pose proof (lookup_updated s st (set_mu true st) _ Hs) as Hs1.
  assert (Hbody :
            destructLocked s (with_states (<[s := set_mu true st]> (states w)) w)
            = Ret None (with_states (<[s := set_mu true st]> (states w)) w)).
  { unfold destructLocked.
    erewrite bind_Ret; [| apply deref_Some; simpl; exact Hs1].
    simpl. rewrite Hdone. unfold bind at 1, ret.
    erewrite bind_Ret; [| apply deref_Some; simpl; exact Hs1].
    simpl. now rewrite Hinst. }
  unfold Destruct.
  rewrite (locked_Ret s st (set_mu true st) (destructLocked s) w _ _
             Hs Hmu Hbody Hs1 eq_refl).
  f_equal. simpl. unfold with_states at 1. simpl.
  rewrite unlock_restores by assumption. now destruct w.
Qed.

Lemma Destruct_unprovisioned_witness :
  Destruct 0 (constructing twoHandlersBoot)
  = Ret None (constructing twoHandlersBoot).
Proof.
  apply (Destruct_unprovisioned 0
           {| mu := false; dbInst := None; done := None; dbPath := "";
              config := None |}); reflexivity.
Defined.

(** X6: the first [Destruct] of a provisioned state with a handle closes
    the channel, then closes the reader, once, and returns what [Close]
    returns.  It does not clear the state: the slot still holds the closed
    reader and the channel field the closed channel. *)
Theorem Destruct_closes_channel_then_handle s st c h r w :
  states w !! s = Some st -> mu st = false ->
  done st = Some c -> chans w !! c = Some false ->
  dbInst st = Some h -> readers w !! h = Some r ->
  exists w',
    Destruct s w = Ret (if closed r then None else closeErr r) w'
    /\ since w w' = [ChanClosed c; Closed h]
    /\ chans w' !! c = Some true
    /\ closed <$> readers w' !! h = Some true
    /\ states w' = states w.
Proof.
  intros Hs Hmu Hdone Hchan Hinst Hr.
  rewrite (Destruct_loaded s st c h r w) by assumption.
  eexists. split; [reflexivity |].
  split; [apply (since_cons [_; _]); reflexivity |]. simpl.
  split; [eapply lookup_updated; exact Hchan |].
  split; [| reflexivity].
  erewrite lookup_updated by exact Hr. reflexivity.
Qed.

Lemma Destruct_closes_channel_then_handle_witness :
  exists w',
    Destruct 0 sticky
    = Ret (if closed {| db := sampleDb; closed := false;
                        closeErr := Some "munmap: invalid argument" |}
           then None
           else closeErr {| db := sampleDb; closed := false;
                            closeErr := Some "munmap: invalid argument" |}) w'
    /\ since sticky w' = [ChanClosed 0; Closed 0]
    /\ chans w' !! 0%nat = Some true
    /\ closed <$> readers w' !! 0%nat = Some true
    /\ states w' = states sticky.
Proof.
  apply (Destruct_closes_channel_then_handle 0 servingState 0 0
           {| db := sampleDb; closed := false;
              closeErr := Some "munmap: invalid argument" |} sticky).
  - vm_compute; reflexivity.
  - reflexivity.
  - reflexivity.
  - vm_compute; reflexivity.
  - reflexivity.
  - vm_compute; reflexivity.
Defined.

(** ** main.go: [ServeHTTP] *)

Lemma ServeHTTP_closed m r w s st h rd addr :
  state_ m = Some s -> states w !! s = Some st -> dbInst st = Some h ->
  readers w !! h = Some rd -> closed rd = true ->
  net.ParseIP (remoteIp m r) = Some addr ->
  ServeHTTP m r w
  = Ret (Fail "cannot call Lookup on a closed database")
      (with_trace (Log Warn "cannot lookup IP address"
                   :: LookedUp h addr :: splitLog m r ++ trace w)%list w).
Proof.
  unfold remoteIp, splitLog, splitErr, ServeHTTP. cbv zeta.
  destruct (net.SplitHostPort (RemoteAddr (trusted m r))) as [[hst p] f].
  simpl. intros Hm Hs Hh Hrd Hclosed Hparse. unfold bind, log, emit. simpl.
  destruct f; simpl; rewrite Hparse, Hm; unfold deref, Lookup; simpl;
    rewrite Hs, Hh; simpl; rewrite Hrd, Hclosed; reflexivity.
Qed.


(** X7: [Destruct] closes the reader but leaves it in the state, so a
    request that a handler serves after the state was destructed, and
    whose address parses, still reaches [Lookup]: the handler returns the
    error of a closed database to the server and publishes nothing. *)
Theorem ServeHTTP_after_Destruct m r s st c h rd addr w :
  state_ m = Some s -> states w !! s = Some st -> mu st = false ->
  done st = Some c -> chans w !! c = Some false ->
  dbInst st = Some h -> readers w !! h = Some rd ->
  net.ParseIP (remoteIp m r) = Some addr ->
  exists result w1 w2,
    Destruct s w = Ret result w1
    /\ ServeHTTP m r w1
       = Ret (Fail "cannot call Lookup on a closed database") w2
    /\ lookups (since w1 w2) = 1%nat.
Proof.
  intros Hm Hs Hmu Hdone Hchan Hinst Hr Hparse.
  rewrite (Destruct_loaded s st c h rd w) by assumption.
  eexists _, _, _. split; [reflexivity |].
  rewrite (ServeHTTP_closed m r _ s st h (set_closed rd) addr);
    [| assumption | exact Hs | assumption
     | simpl; eapply lookup_updated; exact Hr | reflexivity | assumption].
  split; [reflexivity |].
  erewrite (since_cons (_ :: _ :: splitLog m r)) by reflexivity.
  simpl. unfold lookups. rewrite !List.filter_app, !length_app.
  fold (lookups (List.rev (splitLog m r))). rewrite lookups_splitLog.
  reflexivity.
Qed.

Lemma ServeHTTP_after_Destruct_witness :
  exists result w1 w2,
    Destruct 0 serving = Ret result w1
    /\ ServeHTTP servingHandler portRequest w1
       = Ret (Fail "cannot call Lookup on a closed database") w2
    /\ lookups (since w1 w2) = 1%nat.
Proof.
  apply (ServeHTTP_after_Destruct servingHandler portRequest 0 servingState
           0 0 {| db := sampleDb; closed := false; closeErr := None |}
           (net.IPv4 202 36 75 151) serving).
  - reflexivity.
  - vm_compute; reflexivity.
  - reflexivity.
  - reflexivity.
  - vm_compute; reflexivity.
  - reflexivity.
  - vm_compute; reflexivity.
  - vm_compute; reflexivity.
Defined.

(** X8: when [Lookup] fails, [ServeHTTP] returns its error to the server:
    the next handler is not called and no code is published; the one
    lookup and the log are all that happened. *)
Theorem ServeHTTP_lookup_error m r w s st h rd addr e :
  state_ m = Some s -> states w !! s = Some st -> dbInst st = Some h ->
  readers w !! h = Some rd -> closed rd = false ->
  net.ParseIP (remoteIp m r) = Some addr ->
  db rd addr = LookupError e ->
  exists w' events,
    ServeHTTP m r w = Ret (Fail e) w'
    /\ w' = with_trace (events ++ trace w)%list w
    /\ lookups (since w w') = 1%nat.
Proof.
  intros Hm Hs Hh Hrd Hopen Hparse Hdb.
  rewrite (ServeHTTP_lookup m r w s st h rd addr) by assumption.
  rewrite Hdb.
  exists (with_trace (Log Warn "cannot lookup IP address"
                      :: LookedUp h addr :: splitLog m r ++ trace w)%list w),
    (Log Warn "cannot lookup IP address" :: LookedUp h addr :: splitLog m r).
  split; [reflexivity |]. split; [reflexivity |].
  erewrite (since_cons (_ :: _ :: splitLog m r)) by reflexivity.
  simpl. unfold lookups. rewrite !List.filter_app, !length_app.
  fold (lookups (List.rev (splitLog m r))). rewrite lookups_splitLog.
  reflexivity.
Qed.

Lemma ServeHTTP_lookup_error_witness :
  exists w' events,
    ServeHTTP servingHandler portRequest broken
    = Ret (Fail "unexpected end of database") w'
    /\ w' = with_trace (events ++ trace broken)%list broken
    /\ lookups (since broken w') = 1%nat.
Proof.
  apply (ServeHTTP_lookup_error servingHandler portRequest broken 0
           servingState 0
           {| db := truncatedDb; closed := false; closeErr := None |}
           (net.IPv4 202 36 75 151)).
  - reflexivity.
  - vm_compute; reflexivity.
  - reflexivity.
  - vm_compute; reflexivity.
  - reflexivity.
  - vm_compute; reflexivity.
  - reflexivity.
Defined.

(** X9: when [Lookup] returns no error, the request goes on to the next
    handler with one code published, after one lookup.  The code is the
    ISO code of the record whenever no override is configured or the
    record has a GeonameId; it is the override exactly when one is
    configured and the GeonameId is zero, as in the zero record that a
    lookup without a match leaves. *)
Theorem ServeHTTP_publishes_record m r w s st h rd addr :
  state_ m = Some s -> states w !! s = Some st -> dbInst st = Some h ->
  readers w !! h = Some rd -> closed rd = false ->
  net.ParseIP (remoteIp m r) = Some addr ->
  (forall e, db rd addr <> LookupError e) ->
  let record := recordOf (db rd addr) in
  exists r' w',
    ServeHTTP m r w = Ret (Next r') w'
    /\ lookups (since w w') = 1%nat
    /\ (OverrideCountryCode m = "" ->
        country_code r' = Some (ISOCode (Country_ record)))
    /\ (GeonameId (Country_ record) <> 0 ->
        country_code r' = Some (ISOCode (Country_ record)))
    /\ (OverrideCountryCode m <> "" -> GeonameId (Country_ record) = 0 ->
        country_code r' = Some (OverrideCountryCode m)).
Proof.
  intros Hm Hs Hh Hrd Hopen Hparse Hok record.
  rewrite (ServeHTTP_lookup m r w s st h rd addr) by assumption.
  assert (Hrun :
            match db rd addr with
            | LookupError e =>
                Ret (Fail e)
                  (with_trace (Log Warn "cannot lookup IP address"
                               :: LookedUp h addr :: splitLog m r ++ trace w)%list w)
            | found =>
                let record := match found with Match rec => rec | _ => zeroRecord end in
                let r1 := Set_ "geoip.country_code" (ISOCode (Country_ record))
                            (trusted m r) in
                Ret (Next (if negb (String.eqb (OverrideCountryCode m) "")
                              && (GeonameId (Country_ record) =? 0)
                           then Set_ "geoip.country_code" (OverrideCountryCode m) r1
                           else r1))
                  (with_trace (Log Debug "found maxmind data"
                               :: LookedUp h addr :: splitLog m r ++ trace w)%list w)
            end
            = Ret (Next (if negb (String.eqb (OverrideCountryCode m) "")
                            && (GeonameId (Country_ record) =? 0)
                         then Set_ "geoip.country_code" (OverrideCountryCode m)
                                (Set_ "geoip.country_code"
                                   (ISOCode (Country_ record)) (trusted m r))
                         else Set_ "geoip.country_code"
                                (ISOCode (Country_ record)) (trusted m r)))
                (with_trace (Log Debug "found maxmind data"
                             :: LookedUp h addr :: splitLog m r ++ trace w)%list w)).
  { unfold record. destruct (db rd addr) as [e | | rec]; [| reflexivity ..].
    now elim (Hok e). }
  rewrite Hrun. eexists _, _. split; [reflexivity |].
  split.
  { erewrite (since_cons (_ :: _ :: splitLog m r)) by reflexivity.
    simpl. unfold lookups. rewrite !List.filter_app, !length_app.
    fold (lookups (List.rev (splitLog m r))). rewrite lookups_splitLog.
    reflexivity. }
  split; [| split].
  - intros ->. simpl. apply country_code_Set.
  - intros Hid. apply Z.eqb_neq in Hid. rewrite Hid, andb_false_r.
    apply country_code_Set.
  - intros Hover Hid. apply String.eqb_neq in Hover. apply Z.eqb_eq in Hid.
    rewrite Hover, Hid. simpl. apply country_code_Set.
Qed.

Lemma ServeHTTP_publishes_record_witness :
  let record := recordOf (sampleDb (net.IPv4 202 36 75 151)) in
  exists r' w',
    ServeHTTP servingHandler portRequest serving = Ret (Next r') w'
    /\ lookups (since serving w') = 1%nat
    /\ (OverrideCountryCode servingHandler = "" ->
        country_code r' = Some (ISOCode (Country_ record)))
    /\ (GeonameId (Country_ record) <> 0 ->
        country_code r' = Some (ISOCode (Country_ record)))
    /\ (OverrideCountryCode servingHandler <> "" ->
        GeonameId (Country_ record) = 0 ->
        country_code r' = Some (OverrideCountryCode servingHandler)).
Proof.
  apply (ServeHTTP_publishes_record servingHandler portRequest serving 0
           servingState 0
           {| db := sampleDb; closed := false; closeErr := None |}
           (net.IPv4 202 36 75 151)).
  - reflexivity.
  - vm_compute; reflexivity.
  - reflexivity.
  - vm_compute; reflexivity.
  - reflexivity.
  - vm_compute; reflexivity.
  - intros e. vm_compute. discriminate.
Defined.

Lemma trusted_HeaderGet m r : HeaderGet (trusted m r) = HeaderGet r.
Proof. unfold trusted. now destruct (_ && _). Qed.

Lemma lookups_logged e1 e2 m r :
  lookups (List.rev (e1 :: e2 :: splitLog m r))
  = (lookups [e2] + lookups [e1])%nat.
Proof.
  simpl. unfold lookups. rewrite !List.filter_app, !length_app.
  fold (lookups (List.rev (splitLog m r))). now rewrite lookups_splitLog.
Qed.


(** X10: [ServeHTTP] on a provisioned handler always returns, for every
    request: it never panics and never waits.  It changes nothing of the
    process but the log, makes at most one lookup, and a request that it
    passes on carries the address that the trusted header gave it and the
    headers it came with. *)
Theorem ServeHTTP_only_logs m r w s st :
  state_ m = Some s -> states w !! s = Some st ->
  (forall h, dbInst st = Some h -> is_Some (readers w !! h)) ->
  exists out w' events,
    ServeHTTP m r w = Ret out w'
    /\ w' = with_trace (events ++ trace w)%list w
    /\ (lookups (List.rev events) <= 1)%nat
    /\ (forall r', out = Next r' ->
          RemoteAddr r' = RemoteAddr (trusted m r)
          /\ HeaderGet r' = HeaderGet r).
Proof.
  intros Hm Hs Hvalid.
  destruct (net.ParseIP (remoteIp m r)) as [addr |] eqn:Hparse.
  - destruct (dbInst st) as [h |] eqn:Hinst.
    + destruct (Hvalid h eq_refl) as [rd Hrd].
      destruct (closed rd) eqn:Hclosed.
      * rewrite (ServeHTTP_closed m r w s st h rd addr) by assumption.
        eexists _, _, (_ :: _ :: splitLog m r). split; [reflexivity |].
        split; [reflexivity |].
        split; [rewrite lookups_logged; unfold lookups; simpl; lia | discriminate].
      * rewrite (ServeHTTP_lookup m r w s st h rd addr) by assumption.
        destruct (db rd addr); cbv zeta;
          eexists _, _, (_ :: _ :: splitLog m r);
          (split; [reflexivity |]); (split; [reflexivity |]);
          (split; [rewrite lookups_logged; unfold lookups; simpl; lia |]);
          try discriminate;
          intros r' H; injection H as <-;
          destruct (_ && _); simpl; rewrite trusted_HeaderGet; auto.
    + rewrite (ServeHTTP_no_database m r w s st addr) by assumption.
      eexists _, _, (_ :: splitLog m r). split; [reflexivity |].
      split; [reflexivity |].
      split.
      { simpl. unfold lookups. rewrite List.filter_app, length_app.
        fold (lookups (List.rev (splitLog m r))). rewrite lookups_splitLog.
        simpl. lia. }
      intros r' H. injection H as <-.
      destruct (negb _); simpl; rewrite trusted_HeaderGet; auto.
  - rewrite (ServeHTTP_unparseable m r w) by assumption.
    eexists _, _, (_ :: splitLog m r). split; [reflexivity |].
    split; [reflexivity |].
    split.
    { simpl. unfold lookups. rewrite List.filter_app, length_app.
      fold (lookups (List.rev (splitLog m r))). rewrite lookups_splitLog.
      simpl. lia. }
    intros r' H. injection H as <-. rewrite trusted_HeaderGet. auto.
Qed.

Lemma ServeHTTP_only_logs_witness :
  exists out w' events,
    ServeHTTP starvedHandler bareRequest starved = Ret out w'
    /\ w' = with_trace (events ++ trace starved)%list starved
    /\ (lookups (List.rev events) <= 1)%nat
    /\ (forall r', out = Next r' ->
          RemoteAddr r' = RemoteAddr (trusted starvedHandler bareRequest)
          /\ HeaderGet r' = HeaderGet bareRequest).
Proof.
  apply (ServeHTTP_only_logs starvedHandler bareRequest starved 0 starvedState).
  - reflexivity.
  - vm_compute; reflexivity.
  - intros h H. discriminate H.
Defined.



(** ** main.go: [GeoIP.Provision] *)

(** X12: an account id in the environment that is set, not empty and no
    number makes [GeoIP.Provision] fail with "reading account id: ..."
    before anything else happens: the handler is as configured and the
    process is untouched, so no state is built and the pool is not
    asked. *)
Theorem malformed_account_id_fails_Provision m w account e :
  environ w !! "GEOIP_ACCOUNT_ID" = Some account -> account <> "" ->
  snd (strconv.Atoi account) = Some e ->
  GeoIP_Provision m w = Ret (m, Some ("reading account id: " +:+ e)) w.
Proof.
  intros Henv Hset Hbad. apply String.eqb_neq in Hset.
  unfold GeoIP_Provision, loadEnv, Getenv.
  unfold bind at 1 2. rewrite Henv. simpl.
  destruct (strconv.Atoi account) as [i failed]. simpl in Hbad. subst failed.
  rewrite Hset. simpl. reflexivity.
Qed.

Lemma malformed_account_id_fails_Provision_witness :
  GeoIP_Provision (handler samplePath) misconfigured
  = Ret (handler samplePath,
         Some ("reading account id: "
               +:+ strconv.numError "12x" "invalid syntax")) misconfigured.
Proof.
  apply (malformed_account_id_fails_Provision (handler samplePath) misconfigured
           "12x").
  - reflexivity.
  - discriminate.
  - reflexivity.
Defined.

(** The handler that the head of [GeoIP.Provision] leaves. *)
Lemma loadEnv_fields m w :
  envOk w ->
  exists m1,
    loadEnv m w = Ret (m1, None) w
    /\ DbPath m1 = DbPath m /\ TrustHeader m1 = TrustHeader m
    /\ DownloadFrequency m1 = DownloadFrequency m
    /\ ReloadFrequency m1 = ReloadFrequency m
    /\ state_ m1 = state_ m
    /\ APIKey m1 = overridden w "GEOIP_API_KEY" (APIKey m)
    /\ OverrideCountryCode m1
       = overridden w "GEOIP_OVERRIDE_COUNTRY_CODE" (OverrideCountryCode m)
    /\ AccountID m1
       = (let account := default "" (environ w !! "GEOIP_ACCOUNT_ID") in
          if String.eqb account "" then AccountID m
          else fst (strconv.Atoi account)).
Proof.
  unfold envOk, loadEnv, overridden, bind, Getenv. cbv zeta.
  destruct (strconv.Atoi (default "" (environ w !! "GEOIP_ACCOUNT_ID")))
    as [i failed].
  simpl. intros [Hempty | Hnum].
  - rewrite Hempty. simpl.
    eexists. split; [reflexivity |].
    repeat match goal with
           | |- context [if String.eqb ?a ?b then _ else _] =>
               destruct (String.eqb a b)
           end; simpl; repeat split.
  - rewrite Hnum. rewrite bool_decide_eq_false_2 by (intros H; now apply H).
    rewrite andb_false_r.
    eexists. split; [reflexivity |].
    repeat match goal with
           | |- context [if String.eqb ?a ?b then _ else _] =>
               destruct (String.eqb a b)
           end; simpl; repeat split.
Qed.

(** X13: with a well-formed environment and a process that has no state
    yet, [GeoIP.Provision] returns no error and a handler that holds a
    state.  Of the configuration it changes the account id, the key and
    the override code only, each to the value of its variable when that
    is set and not empty: the environment wins over the configuration,
    and a variable set to the empty string counts as unset. *)
Theorem Provision_applies_environment m w :
  envOk w -> pool w !! "geoip.state" = None ->
  exists m' w',
    GeoIP_Provision m w = Ret (m', None) w'
    /\ state_ m' = Some (length (states w))
    /\ DbPath m' = DbPath m /\ TrustHeader m' = TrustHeader m
    /\ DownloadFrequency m' = DownloadFrequency m
    /\ ReloadFrequency m' = ReloadFrequency m
    /\ APIKey m' = overridden w "GEOIP_API_KEY" (APIKey m)
    /\ OverrideCountryCode m'
       = overridden w "GEOIP_OVERRIDE_COUNTRY_CODE" (OverrideCountryCode m)
    /\ AccountID m'
       = (let account := default "" (environ w !! "GEOIP_ACCOUNT_ID") in
          if String.eqb account "" then AccountID m
          else fst (strconv.Atoi account)).
Proof.
  intros Henv Hpool.
  destruct (loadEnv_fields m w Henv)
    as (m1 & Hload & Hpath & Htrust & Hdown & Hreload & _ & Hkey & Hcode & Hacc).
  destruct (GeoIP_Provision_first m m1 w Hload Hpool)
    as (w' & st & Hrun & _).
  exists (set_state (Some (length (states w))) m1), w'.
  split; [exact Hrun |]. simpl. repeat split; assumption.
Qed.

Lemma Provision_applies_environment_witness :
  exists m' w',
    GeoIP_Provision (handler missingPath) overriding = Ret (m', None) w'
    /\ state_ m' = Some (length (states overriding))
    /\ DbPath m' = DbPath (handler missingPath)
    /\ TrustHeader m' = TrustHeader (handler missingPath)
    /\ DownloadFrequency m' = DownloadFrequency (handler missingPath)
    /\ ReloadFrequency m' = ReloadFrequency (handler missingPath)
    /\ APIKey m'
       = overridden overriding "GEOIP_API_KEY" (APIKey (handler missingPath))
    /\ OverrideCountryCode m'
       = overridden overriding "GEOIP_OVERRIDE_COUNTRY_CODE"
           (OverrideCountryCode (handler missingPath))
    /\ AccountID m'
       = (let account := default "" (environ overriding !! "GEOIP_ACCOUNT_ID") in
          if String.eqb account "" then AccountID (handler missingPath)
          else fst (strconv.Atoi account)).
Proof.
  apply (Provision_applies_environment (handler missingPath) overriding).
  - left. reflexivity.
  - reflexivity.
Defined.

(** X14: once the state is in the pool, [GeoIP.Provision] of a further
    handler takes a reference and nothing else: whatever the database
    path and the frequencies of that handler, the world after the call
    differs from the one before in the count of references and one line
    of the log, so no file is opened and no goroutine is started. *)
Theorem later_Provision_only_takes_a_reference m w upv s st :
  envOk w -> pool w !! "geoip.state" = Some upv ->
  value upv = Some s -> err upv = None -> states w !! s = Some st ->
  exists m' status,
    GeoIP_Provision m w
    = Ret (m', None)
        (with_trace (status :: trace w)
           (with_pool (<["geoip.state" := add_ref upv]> (pool w)) w))
    /\ state_ m' = Some s /\ DbPath m' = DbPath m.
Proof.
  intros Henv Hpool Hval Herr Hs.
  destruct (loadEnv_ok m w Henv) as (m1 & Hload & Hpath).
  unfold GeoIP_Provision. rewrite (bind_Ret _ _ _ _ _ Hload).
  unfold bind at 1, LoadOrNew. rewrite Hpool, Hval, Herr.
  set (w3 := with_pool _ w).
  assert (Hs3 : states w3 !! s = Some st) by exact Hs.
  destruct (logStatus_Some _ _ _ Hs3) as [e Hlog].
  rewrite (bind_Ret _ _ _ _ _ Hlog).
  exists (set_state (Some s) m1), e. split; [reflexivity |].
  split; [reflexivity | exact Hpath].
Qed.

Lemma later_Provision_only_takes_a_reference_witness :
  exists m' status,
    GeoIP_Provision (downloader missingPath) serving
    = Ret (m', None)
        (with_trace (status :: trace serving)
           (with_pool
              (<["geoip.state" :=
                   add_ref {| refs := 1; value := Some 0%nat; err := None |}]>
                 (pool serving)) serving))
    /\ state_ m' = Some 0%nat /\ DbPath m' = DbPath (downloader missingPath).
Proof.
  apply (later_Provision_only_takes_a_reference (downloader missingPath)
           serving _ 0 servingState).
  - left. reflexivity.
  - vm_compute; reflexivity.
  - reflexivity.
  - reflexivity.
  - vm_compute; reflexivity.
Defined.

(** ** caddyfile.go: [UnmarshalCaddyfile] *)

Example UnmarshalCaddyfile_test :
  parseCaddyfile wholeHours testDirective = Some (testHandler, None).
Proof. vm_compute; reflexivity. Qed.

(** *** The dispenser only moves onward *)

Lemma onward_refl d : onward d d.
Proof. unfold onward, inRange. repeat split; auto; lia. Qed.

Lemma onward_trans d1 d2 d3 : onward d1 d2 -> onward d2 d3 -> onward d1 d3.
Proof.
  unfold onward. intros (Ht & Hc & Hr) (Ht' & Hc' & Hr').
  split; [congruence |]. split; [lia |]. intros H. apply Hr', Hr, H.
Qed.

Lemma onward_size d d' : onward d d' -> caddyfile.size d' = caddyfile.size d.
Proof. intros (Ht & _). unfold caddyfile.size. now rewrite Ht. Qed.

Ltac dispensed :=
  unfold onward, inRange, caddyfile.size in *; simpl in *;
  repeat match goal with
         | |- _ /\ _ => split
         | |- _ -> _ => intro
         end;
  try reflexivity; try discriminate; try assumption; try lia.

Lemma Next_onward d :
  onward d (snd (caddyfile.Next d))
  /\ (fst (caddyfile.Next d) = true ->
      caddyfile.cursor (snd (caddyfile.Next d)) = caddyfile.cursor d + 1)
  /\ caddyfile.nesting (snd (caddyfile.Next d)) = caddyfile.nesting d.
Proof.
  unfold caddyfile.Next.
  destruct (Z.ltb_spec (caddyfile.cursor d) (caddyfile.size d - 1));
    dispensed.
Qed.

Lemma nextOnSameLine_onward d :
  onward d (snd (caddyfile.nextOnSameLine d))
  /\ (fst (caddyfile.nextOnSameLine d) = true ->
      caddyfile.cursor (snd (caddyfile.nextOnSameLine d)) = caddyfile.cursor d + 1)
  /\ (fst (caddyfile.nextOnSameLine d) = false ->
      snd (caddyfile.nextOnSameLine d) = d)
  /\ caddyfile.nesting (snd (caddyfile.nextOnSameLine d)) = caddyfile.nesting d.
Proof.
  unfold caddyfile.nextOnSameLine.
  destruct (Z.ltb_spec (caddyfile.cursor d) 0); [dispensed |].
  destruct (caddyfile.cursor d >=? caddyfile.size d); [dispensed |].
  destruct (Z.ltb_spec (caddyfile.cursor d) (caddyfile.size d - 1)); simpl;
    [destruct (caddyfile.sameLine d) |]; dispensed.
Qed.

Lemma NextArg_onward d :
  onward d (snd (caddyfile.NextArg d))
  /\ caddyfile.nesting (snd (caddyfile.NextArg d)) = caddyfile.nesting d.
Proof.
  unfold caddyfile.NextArg.
  pose proof (nextOnSameLine_onward d) as (Hon & Hadv & Hstay & Hnest).
  destruct (caddyfile.nextOnSameLine d) as [ok d1]. simpl in *.
  destruct ok; simpl; [| split; assumption].
  destruct (String.eqb (caddyfile.Val d1) "{"); simpl; [| split; assumption].
  destruct Hon as (Ht & Hc & Hr). specialize (Hadv eq_refl).
  unfold onward, inRange, caddyfile.size in *. simpl.
  rewrite Ht, Hadv. repeat split; auto; lia.
Qed.

Lemma Args1_onward d :
  onward d (snd (caddyfile.Args1 d))
  /\ caddyfile.nesting (snd (caddyfile.Args1 d)) = caddyfile.nesting d.
Proof.
  unfold caddyfile.Args1. pose proof (NextArg_onward d) as H.
  destruct (caddyfile.NextArg d) as [[|] d1]; exact H.
Qed.

Lemma braceEndsLine_onward brace d :
  onward d (snd (caddyfile.braceEndsLine brace d))
  /\ caddyfile.nesting (snd (caddyfile.braceEndsLine brace d))
     = caddyfile.nesting d.
Proof.
  unfold caddyfile.braceEndsLine.
  destruct (String.eqb (caddyfile.Val d) brace); [| split; [apply onward_refl | reflexivity]].
  pose proof (nextOnSameLine_onward d) as (Hon & _ & _ & Hnest).
  destruct (caddyfile.nextOnSameLine d) as [same d1]. split; assumption.
Qed.

Lemma set_nesting_onward n d d' :
  onward d d' -> onward d (caddyfile.set_nesting n d').
Proof. exact (fun H => H). Qed.

(** A call of [NextBlock] that returns true has moved the cursor. *)
Lemma NextBlock_onward level d :
  onward d (snd (caddyfile.NextBlock level d))
  /\ (fst (caddyfile.NextBlock level d) = true ->
      caddyfile.cursor d < caddyfile.cursor (snd (caddyfile.NextBlock level d))).
Proof.
  unfold caddyfile.NextBlock.
  destruct (caddyfile.nesting d >? level).
  - pose proof (Next_onward d) as (Hon & Hadv & _).
    destruct (caddyfile.Next d) as [ok d1]. simpl in Hon, Hadv.
    destruct ok; simpl; [| split; [assumption | discriminate]].
    specialize (Hadv eq_refl).
    pose proof (braceEndsLine_onward "}" d1) as (Hon1 & _).
    destruct (caddyfile.braceEndsLine "}" d1) as [closes d2]. simpl in Hon1.
    destruct closes.
    + simpl. split; [| intros _; destruct Hon1 as (_ & Hc & _); simpl; lia].
      apply set_nesting_onward. eapply onward_trans; eassumption.
    + pose proof (braceEndsLine_onward "{" d2) as (Hon2 & _).
      destruct (caddyfile.braceEndsLine "{" d2) as [opens d3]. simpl in Hon2.
      assert (Hall : onward d d3)
        by (eapply onward_trans; [| exact Hon2];
            eapply onward_trans; eassumption).
      assert (Hlt : caddyfile.cursor d < caddyfile.cursor d3)
        by (destruct Hon1 as (_ & Hc1 & _), Hon2 as (_ & Hc2 & _); lia).
      destruct opens; simpl; (split; [assumption | intros _; exact Hlt]).
  - pose proof (nextOnSameLine_onward d) as (Hon & Hadv & Hstay & _).
    destruct (caddyfile.nextOnSameLine d) as [ok d1]. simpl in *.
    destruct ok; simpl; [| split; [assumption | discriminate]].
    specialize (Hadv eq_refl).
    destruct (String.eqb (caddyfile.Val d1) "{"); simpl.
    + pose proof (Next_onward d1) as (Hon1 & _ & _).
      destruct (caddyfile.Next d1) as [ok1 d2]. simpl in Hon1.
      assert (Hall : onward d d2) by (eapply onward_trans; eassumption).
      assert (Hlt : caddyfile.cursor d < caddyfile.cursor d2)
        by (destruct Hon1 as (_ & Hc1 & _); lia).
      destruct (String.eqb (caddyfile.Val d2) "}"); simpl;
        (split; [assumption | intros _; exact Hlt || discriminate]).
    + split; [| discriminate].
      destruct Hon as (Ht & Hc & Hr).
      unfold onward, inRange, caddyfile.size in *. simpl.
      rewrite Ht, Hadv. repeat split; auto; lia.
Qed.

Lemma stringArg_onward set d m : onward d (fst (fst (stringArg set d m))).
Proof.
  unfold stringArg. pose proof (Args1_onward d) as [H _].
  destruct (caddyfile.Args1 d) as [[v |] d1]; exact H.
Qed.

Lemma durationArg_onward PD set d m :
  onward d (fst (fst (durationArg PD set d m))).
Proof.
  unfold durationArg. pose proof (NextArg_onward d) as [H _].
  destruct (caddyfile.NextArg d) as [[|] d1]; simpl; [| exact H].
  destruct (PD (caddyfile.Val d1)) as [dur [e |]]; exact H.
Qed.

Lemma switch_onward PD d m : onward d (fst (fst (switch PD d m))).
Proof.
  unfold switch. pose proof (Args1_onward d) as [H _].
  repeat match goal with
         | |- context [if String.eqb ?a ?b then _ else _] =>
             destruct (String.eqb a b)
         end;
    try apply stringArg_onward; try apply durationArg_onward;
    try apply onward_refl.
  - destruct (caddyfile.Args1 d) as [[v |] d1]; exact H.
  - destruct (caddyfile.Args1 d) as [[v |] d1]; [| exact H].
    destruct (strconv.Atoi v) as [i [e |]]; exact H.
Qed.

Lemma turn_switch PD d m : turn PD d m = switch PD d m.
Proof.
  unfold turn. destruct (switch PD d m) as [[d1 m1] [e |]]; reflexivity.
Qed.

Lemma turn_onward PD d m : onward d (fst (fst (turn PD d m))).
Proof. rewrite turn_switch. apply switch_onward. Qed.

(** With a cursor in range, the loop ends within the fuel that the
    distance of the cursor from the end of the tokens gives. *)
Lemma blocks_returns PD fuel : forall d m,
  inRange d ->
  caddyfile.size d - caddyfile.cursor d + 1 <= Z.of_nat fuel ->
  exists m' d' e, blocks PD fuel d m = Some (m', d', e) /\ onward d d'.
Proof.
  induction fuel as [| fuel IH]; intros d m Hr Hfuel.
  - unfold inRange in Hr. lia.
  - simpl. pose proof (NextBlock_onward 0 d) as [Hon Hlt].
    destruct (caddyfile.NextBlock 0 d) as [more d1]. simpl in Hon, Hlt.
    destruct more; [| eexists _, _, _; split; [reflexivity | exact Hon]].
    specialize (Hlt eq_refl).
    pose proof (turn_onward PD d1 m) as Hon1.
    destruct (turn PD d1 m) as [[d2 m2] [e |]]; simpl in Hon1.
    + eexists _, _, _. split; [reflexivity |].
      eapply onward_trans; eassumption.
    + assert (Hon2 : onward d d2) by (eapply onward_trans; eassumption).
      destruct (IH d2 m2) as (m' & d' & e & Hrun & Hon').
      * apply Hon2, Hr.
      * rewrite (onward_size _ _ Hon2).
        destruct Hon1 as (_ & Hc & _). lia.
      * exists m', d', e. split; [exact Hrun |].
        eapply onward_trans; eassumption.
Qed.

(** X15: [UnmarshalCaddyfile] terminates on every directive.  Each turn
    of its loop moves the cursor of the dispenser on, so on a dispenser
    whose cursor is in range, as [NewDispenser] and [Reset] leave it, the
    loop ends before the tokens are used up twice: the function returns,
    with or without an error, the tokens are as before and the cursor has
    not gone back. *)
Theorem UnmarshalCaddyfile_returns PD d m :
  inRange d ->
  exists m' d' e,
    UnmarshalCaddyfile PD d m = Some (m', d', e) /\ onward d d'.
Proof.
  intros Hr. unfold UnmarshalCaddyfile.
  pose proof (NextArg_onward d) as [Hon _].
  destruct (caddyfile.NextArg d) as [ok d1]. simpl in Hon.
  destruct (blocks_returns PD (length (caddyfile.tokens d1) + 2) d1 m)
    as (m' & d' & e & Hrun & Hon').
  - apply Hon, Hr.
  - destruct Hon as (_ & _ & Hr1). specialize (Hr1 Hr).
    unfold inRange, caddyfile.size in *. lia.
  - exists m', d', e. split; [exact Hrun |].
    eapply onward_trans; eassumption.
Qed.

Lemma UnmarshalCaddyfile_returns_witness :
  exists m' d' e,
    UnmarshalCaddyfile wholeHours testDirective zeroGeoIP = Some (m', d', e)
    /\ onward testDirective d'.
Proof.
  apply (UnmarshalCaddyfile_returns wholeHours testDirective zeroGeoIP).
  unfold inRange. vm_compute. split; discriminate.
Defined.

(** *** What the loop keeps *)

Lemma blocks_invariant PD (P : caddyfile.Dispenser -> GeoIP -> Prop) :
  (forall d m, P d m -> P (snd (caddyfile.NextBlock 0 d)) m) ->
  (forall d m, P d m ->
     P (fst (fst (switch PD d m))) (snd (fst (switch PD d m)))) ->
  forall fuel d m m' d' e,
    P d m -> blocks PD fuel d m = Some (m', d', e) -> P d' m'.
Proof.
  intros Hblock Hturn. induction fuel as [| fuel IH]; intros d m m' d' e HP Hrun.
  - discriminate.
  - simpl in Hrun. specialize (Hblock d m HP).
    destruct (caddyfile.NextBlock 0 d) as [more d1]. simpl in Hblock.
    destruct more.
    + specialize (Hturn d1 m Hblock). rewrite turn_switch in Hrun.
      destruct (switch PD d1 m) as [[d2 m2] [e2 |]]; simpl in Hturn, Hrun.
      * inversion Hrun; subst; assumption.
      * eapply IH; [exact Hturn | exact Hrun].
    + inversion Hrun; subst; assumption.
Qed.

Lemma Val_names d : caddyfile.Val d = "" \/ names d (caddyfile.Val d).
Proof.
  unfold caddyfile.Val, caddyfile.token, names.
  destruct (caddyfile.cursor d <? 0); [now left |].
  destruct (caddyfile.tokens d !! Z.to_nat (caddyfile.cursor d)) as [t |] eqn:Ht;
    [| now left].
  right. exists t. split; [eapply list_elem_of_lookup_2, Ht | reflexivity].
Qed.

Lemma switch_fields PD d m :
  let m' := snd (fst (switch PD d m)) in
  state_ m' = state_ m
  /\ (caddyfile.Val d <> "db_path" -> DbPath m' = DbPath m)
  /\ (caddyfile.Val d <> "trust_header" -> TrustHeader m' = TrustHeader m)
  /\ (caddyfile.Val d <> "account_id" -> AccountID m' = AccountID m)
  /\ (caddyfile.Val d <> "api_key" -> APIKey m' = APIKey m)
  /\ (caddyfile.Val d <> "reload_frequency" ->
      ReloadFrequency m' = ReloadFrequency m)
  /\ (caddyfile.Val d <> "download_frequency" ->
      DownloadFrequency m' = DownloadFrequency m)
  /\ (caddyfile.Val d <> "override_country_code" ->
      OverrideCountryCode m' = OverrideCountryCode m).
Proof.
  unfold switch, stringArg, durationArg.
  repeat match goal with
         | |- context [if String.eqb ?a ?b then _ else _] =>
             destruct (String.eqb_spec a b)
         end;
    repeat match goal with
           | |- context [caddyfile.Args1 ?d] =>
               destruct (caddyfile.Args1 d) as [[? |] ?]
           | |- context [caddyfile.NextArg ?d] =>
               destruct (caddyfile.NextArg d) as [[|] ?]
           | |- context [strconv.Atoi ?v] =>
               destruct (strconv.Atoi v) as [? [? |]]
           | |- context [PD ?v] => destruct (PD v) as [? [? |]]
           end;
    simpl; repeat split; intros; try reflexivity; congruence.
Qed.

Lemma NextBlock_tokens level d :
  caddyfile.tokens (snd (caddyfile.NextBlock level d)) = caddyfile.tokens d.
Proof. pose proof (NextBlock_onward level d) as [(H & _) _]. exact H. Qed.

Lemma switch_tokens PD d m :
  caddyfile.tokens (fst (fst (switch PD d m))) = caddyfile.tokens d.
Proof. pose proof (switch_onward PD d m) as (H & _). exact H. Qed.

Lemma not_named d0 d name :
  caddyfile.tokens d = caddyfile.tokens d0 -> name <> "" ->
  ~ names d0 name -> caddyfile.Val d <> name.
Proof.
  intros Ht Hname Habsent Hval.
  destruct (Val_names d) as [Hempty | (t & Hin & Htext)].
  - congruence.
  - apply Habsent. exists t. rewrite <- Ht. split; congruence.
Qed.

(** X16: [UnmarshalCaddyfile] assigns a field of the handler only under
    the directive of that field: when no token of the dispenser reads
    "db_path" the path comes back as it went in, and so for the other six
    directives, whether the call ends with an error or not.  The state of
    the handler is never touched. *)
Theorem UnmarshalCaddyfile_assigns_named_fields PD d m m' d' e :
  UnmarshalCaddyfile PD d m = Some (m', d', e) ->
  state_ m' = state_ m
  /\ (~ names d "db_path" -> DbPath m' = DbPath m)
  /\ (~ names d "trust_header" -> TrustHeader m' = TrustHeader m)
  /\ (~ names d "account_id" -> AccountID m' = AccountID m)
  /\ (~ names d "api_key" -> APIKey m' = APIKey m)
  /\ (~ names d "reload_frequency" -> ReloadFrequency m' = ReloadFrequency m)
  /\ (~ names d "download_frequency" ->
      DownloadFrequency m' = DownloadFrequency m)
  /\ (~ names d "override_country_code" ->
      OverrideCountryCode m' = OverrideCountryCode m).
Proof.
  unfold UnmarshalCaddyfile.
  pose proof (NextArg_onward d) as [(Ht1 & _) _].
  destruct (caddyfile.NextArg d) as [ok d1]. simpl in Ht1. intros Hrun.
  set (P := fun (d2 : caddyfile.Dispenser) (m2 : GeoIP) =>
              caddyfile.tokens d2 = caddyfile.tokens d
              /\ state_ m2 = state_ m
              /\ (~ names d "db_path" -> DbPath m2 = DbPath m)
              /\ (~ names d "trust_header" -> TrustHeader m2 = TrustHeader m)
              /\ (~ names d "account_id" -> AccountID m2 = AccountID m)
              /\ (~ names d "api_key" -> APIKey m2 = APIKey m)
              /\ (~ names d "reload_frequency" ->
                  ReloadFrequency m2 = ReloadFrequency m)
              /\ (~ names d "download_frequency" ->
                  DownloadFrequency m2 = DownloadFrequency m)
              /\ (~ names d "override_country_code" ->
                  OverrideCountryCode m2 = OverrideCountryCode m)).
  assert (Hend : P d' m').
  { eapply (blocks_invariant PD P); [| | | exact Hrun].
    - intros d2 m2 (Ht & Hrest). split; [| exact Hrest].
      now rewrite NextBlock_tokens.
    - intros d2 m2 (Ht & Hs & H1 & H2 & H3 & H4 & H5 & H6 & H7).
      pose proof (switch_fields PD d2 m2)
        as (Gs & G1 & G2 & G3 & G4 & G5 & G6 & G7).
      split; [now rewrite switch_tokens |].
      split; [congruence |].
      repeat split; intros Habsent;
        match goal with
        | G : caddyfile.Val d2 <> ?name -> ?f _ = ?f m2 |- ?f _ = ?f m =>
            rewrite G by (apply (not_named d d2 name Ht); [discriminate | exact Habsent]);
            auto
        end.
    - unfold P. repeat split; auto. }
  destruct Hend as (_ & Hrest). exact Hrest.
Qed.

Lemma UnmarshalCaddyfile_assigns_named_fields_witness :
  state_ testHandler = state_ zeroGeoIP
  /\ (~ names testDirective "db_path" -> DbPath testHandler = DbPath zeroGeoIP)
  /\ (~ names testDirective "trust_header" ->
      TrustHeader testHandler = TrustHeader zeroGeoIP)
  /\ (~ names testDirective "account_id" ->
      AccountID testHandler = AccountID zeroGeoIP)
  /\ (~ names testDirective "api_key" -> APIKey testHandler = APIKey zeroGeoIP)
  /\ (~ names testDirective "reload_frequency" ->
      ReloadFrequency testHandler = ReloadFrequency zeroGeoIP)
  /\ (~ names testDirective "download_frequency" ->
      DownloadFrequency testHandler = DownloadFrequency zeroGeoIP)
  /\ (~ names testDirective "override_country_code" ->
      OverrideCountryCode testHandler = OverrideCountryCode zeroGeoIP).
Proof.
  apply (UnmarshalCaddyfile_assigns_named_fields wholeHours testDirective
           zeroGeoIP testHandler
           (caddyfile.set_nesting 0 (caddyfile.set_cursor 12 testDirective))
           None).
  vm_compute; reflexivity.
Defined.

(** *** The errors *)

Lemma switch_fault PD d m d' m' e :
  switch PD d m = (d', m', Some e) -> fault PD d' e.
Proof.
  unfold switch, stringArg, durationArg.
  repeat match goal with
         | |- context [if String.eqb ?a ?b then _ else _] =>
             destruct (String.eqb a b)
         end;
    repeat match goal with
           | |- context [caddyfile.Args1 ?d] =>
               let v := fresh "v" in
               let H := fresh "Hargs" in
               destruct (caddyfile.Args1 d) as [[v |] ?] eqn:H
           | |- context [caddyfile.NextArg ?d] =>
               destruct (caddyfile.NextArg d) as [[|] ?]
           | |- context [strconv.Atoi ?v] =>
               let H := fresh "Hatoi" in
               destruct (strconv.Atoi v) as [? [? |]] eqn:H
           | |- context [PD ?v] =>
               let H := fresh "Hdur" in
               destruct (PD v) as [? [? |]] eqn:H
           end;
    simpl; intros Hrun; inversion Hrun; subst;
    try (constructor; fail).
  - assert (Hval : caddyfile.Val d' = v).
    { unfold caddyfile.Args1 in Hargs.
      destruct (caddyfile.NextArg d) as [[|] d1]; now inversion Hargs. }
    apply InvalidAccount. now rewrite Hval, Hatoi.
  - apply BadDuration. now rewrite Hdur.
  - apply BadDuration. now rewrite Hdur.
Qed.

Lemma blocks_fault PD fuel : forall d m m' d' e,
  blocks PD fuel d m = Some (m', d', Some e) -> fault PD d' e.
Proof.
  induction fuel as [| fuel IH]; intros d m m' d' e Hrun; [discriminate |].
  simpl in Hrun. destruct (caddyfile.NextBlock 0 d) as [[|] d1];
    [| discriminate].
  rewrite turn_switch in Hrun.
  destruct (switch PD d1 m) as [[d2 m2] [e2 |]] eqn:Hswitch.
  - inversion Hrun; subst. eapply switch_fault, Hswitch.
  - eapply IH, Hrun.
Qed.

(** X17: the errors of [UnmarshalCaddyfile] are four: a "db_path" without
    an argument, an "account_id" whose argument is no number, a frequency
    without an argument, and a frequency that [caddy.ParseDuration]
    rejects; each is reported at the token where the dispenser stopped.
    The message "Error parsing ..." of the last statement of the loop is
    not among them: the [err] it tests is never assigned. *)
Theorem UnmarshalCaddyfile_faults PD d m m' d' e :
  UnmarshalCaddyfile PD d m = Some (m', d', Some e) -> fault PD d' e.
Proof.
  unfold UnmarshalCaddyfile. destruct (caddyfile.NextArg d) as [ok d1].
  apply blocks_fault.
Qed.

Lemma UnmarshalCaddyfile_faults_witness :
  fault wholeHours
    (caddyfile.set_nesting 1 (caddyfile.set_cursor 2 noPathDirective))
    "Caddyfile:2 - Error during parsing: Missing db path".
Proof.
  apply (UnmarshalCaddyfile_faults wholeHours noPathDirective zeroGeoIP
           zeroGeoIP).
  vm_compute; reflexivity.
Defined.

(** *** Steps of the dispenser and of the loop *)

Lemma token_range d i t :
  caddyfile.token d i = Some t -> 0 <= i < caddyfile.size d.
Proof.
  unfold caddyfile.token, caddyfile.size.
  destruct (Z.ltb_spec i 0); [discriminate |].
  intros Hlook. apply lookup_lt_Some in Hlook. lia.
Qed.

Lemma token_none d i :
  0 <= i -> caddyfile.token d i = None -> caddyfile.size d <= i.
Proof.
  unfold caddyfile.token, caddyfile.size.
  destruct (Z.ltb_spec i 0); [lia |].
  intros _ Hlook. apply lookup_ge_None in Hlook. lia.
Qed.

Lemma Next_some d t :
  caddyfile.token d (caddyfile.cursor d + 1) = Some t ->
  caddyfile.Next d = (true, caddyfile.set_cursor (caddyfile.cursor d + 1) d).
Proof.
  intros Hlook. apply token_range in Hlook. unfold caddyfile.Next.
  destruct (Z.ltb_spec (caddyfile.cursor d) (caddyfile.size d - 1));
    [reflexivity | lia].
Qed.

Lemma nextOnSameLine_end d :
  0 <= caddyfile.cursor d ->
  caddyfile.token d (caddyfile.cursor d + 1) = None ->
  caddyfile.nextOnSameLine d = (false, d).
Proof.
  intros Hc Hlook. apply token_none in Hlook; [| lia].
  unfold caddyfile.nextOnSameLine.
  destruct (Z.ltb_spec (caddyfile.cursor d) 0); [lia |].
  destruct (caddyfile.cursor d >=? caddyfile.size d); [reflexivity |].
  destruct (Z.ltb_spec (caddyfile.cursor d) (caddyfile.size d - 1));
    [lia | reflexivity].
Qed.

Lemma nextOnSameLine_next d t t' :
  caddyfile.token d (caddyfile.cursor d) = Some t ->
  caddyfile.token d (caddyfile.cursor d + 1) = Some t' ->
  caddyfile.nextOnSameLine d
  = if String.eqb (caddyfile.File t) (caddyfile.File t')
       && (caddyfile.Line t + caddyfile.lineBreaks (caddyfile.Text t)
           =? caddyfile.Line t')
    then (true, caddyfile.set_cursor (caddyfile.cursor d + 1) d)
    else (false, d).
Proof.
  intros Ht Ht'. pose proof (token_range _ _ _ Ht) as Hr.
  pose proof (token_range _ _ _ Ht') as Hr'.
  unfold caddyfile.nextOnSameLine, caddyfile.sameLine, caddyfile.numLineBreaks.
  rewrite Ht, Ht'.
  destruct (Z.ltb_spec (caddyfile.cursor d) 0); [lia |].
  destruct (Z.geb_spec (caddyfile.cursor d) (caddyfile.size d)); [lia |].
  destruct (Z.ltb_spec (caddyfile.cursor d) (caddyfile.size d - 1)); [| lia].
  reflexivity.
Qed.

Lemma NextBlock_closed level d :
  caddyfile.nesting d <= level ->
  caddyfile.nextOnSameLine d = (false, d) ->
  caddyfile.NextBlock level d = (false, d).
Proof.
  intros Hn Hnext. unfold caddyfile.NextBlock.
  destruct (Z.gtb_spec (caddyfile.nesting d) level); [lia |].
  now rewrite Hnext.
Qed.

Lemma NextBlock_no_brace level d d1 :
  caddyfile.nesting d <= level ->
  caddyfile.nextOnSameLine d = (true, d1) ->
  caddyfile.Val d1 <> "{" ->
  caddyfile.NextBlock level d
  = (false, caddyfile.set_cursor (caddyfile.cursor d1 - 1) d1).
Proof.
  intros Hn Hnext Hval. apply String.eqb_neq in Hval.
  unfold caddyfile.NextBlock.
  destruct (Z.gtb_spec (caddyfile.nesting d) level); [lia |].
  rewrite Hnext. simpl. now rewrite Hval.
Qed.

Lemma blocks_stop PD fuel d d1 m :
  caddyfile.NextBlock 0 d = (false, d1) ->
  blocks PD (S fuel) d m = Some (m, d1, None).
Proof. intros H. simpl. now rewrite H. Qed.

Lemma blocks_go PD fuel d d1 d2 m m2 :
  caddyfile.NextBlock 0 d = (true, d1) ->
  switch PD d1 m = (d2, m2, None) ->
  blocks PD (S fuel) d m = blocks PD fuel d2 m2.
Proof. intros H Hs. simpl. now rewrite H, turn_switch, Hs. Qed.

(** *** Where the block has to be *)

(** X18: the block of the directive is read only when it opens on the
    line of the directive's name.  When the token after the name is not
    a "{" on that line (an argument, a brace on the next line, or
    nothing), [UnmarshalCaddyfile] reads no directive at all: it returns
    no error and the handler as it was, with the cursor on the name. *)
Theorem UnmarshalCaddyfile_needs_block_on_first_line PD ts m :
  (forall name, head ts = Some name -> caddyfile.Text name <> "{") ->
  opensBlock ts = false ->
  UnmarshalCaddyfile PD (caddyfile.NewDispenser ts) m
  = Some (m, caddyfile.set_cursor 0 (caddyfile.NewDispenser ts), None).
Proof.
  intros Hname Hopen.
  set (d0 := caddyfile.set_cursor 0 (caddyfile.NewDispenser ts)).
  assert (Harg : snd (caddyfile.NextArg (caddyfile.NewDispenser ts)) = d0).
  { unfold caddyfile.NextArg, caddyfile.nextOnSameLine. simpl.
    fold d0. destruct ts as [| name rest]; [reflexivity |].
    specialize (Hname name eq_refl). apply String.eqb_neq in Hname.
    unfold caddyfile.Val. simpl. now rewrite Hname. }
  unfold UnmarshalCaddyfile.
  destruct (caddyfile.NextArg (caddyfile.NewDispenser ts)) as [ok d1].
  simpl in Harg. subst d1.
  replace (length (caddyfile.tokens d0) + 2)%nat
    with (S (S (length (caddyfile.tokens d0)))) by lia.
  apply blocks_stop.
  destruct ts as [| name [| brace rest]].
  - apply NextBlock_closed; [simpl; lia | reflexivity].
  - apply NextBlock_closed; [simpl; lia |].
    apply nextOnSameLine_end; [simpl; lia | reflexivity].
  - pose proof (nextOnSameLine_next d0 name brace eq_refl eq_refl) as Hnext.
    simpl in Hopen.
    destruct (String.eqb (caddyfile.File name) (caddyfile.File brace)
              && (caddyfile.Line name
                  + caddyfile.lineBreaks (caddyfile.Text name)
                  =? caddyfile.Line brace)).
    + simpl in Hopen. apply String.eqb_neq in Hopen.
      rewrite (NextBlock_no_brace 0 d0 _ ltac:(simpl; lia) Hnext Hopen).
      reflexivity.
    + apply NextBlock_closed; [simpl; lia | exact Hnext].
Qed.

Lemma UnmarshalCaddyfile_needs_block_on_first_line_witness :
  UnmarshalCaddyfile wholeHours lateBlockDirective zeroGeoIP
  = Some (zeroGeoIP, caddyfile.set_cursor 0 lateBlockDirective, None).
Proof.
  apply (UnmarshalCaddyfile_needs_block_on_first_line wholeHours
           [word 1 "geo_ip"; word 2 "{"; word 3 "db_path";
            word 3 "GeoLite2-Country.mmdb"; word 4 "}"] zeroGeoIP).
  - intros name H. injection H as <-. discriminate.
  - reflexivity.
Defined.

(** *** Blocks of one directive per line *)

Lemma token_here d pre t rest :
  caddyfile.tokens d = (pre ++ t :: rest)%list ->
  caddyfile.token d (Z.of_nat (length pre)) = Some t.
Proof.
  intros Ht. unfold caddyfile.token.
  destruct (Z.ltb_spec (Z.of_nat (length pre)) 0); [lia |].
  rewrite Nat2Z.id, Ht, lookup_app_r, Nat.sub_diag by lia. reflexivity.
Qed.

Lemma token_after d pre t t' rest :
  caddyfile.tokens d = (pre ++ t :: t' :: rest)%list ->
  caddyfile.token d (Z.of_nat (length pre) + 1) = Some t'.
Proof.
  intros Ht.
  replace (Z.of_nat (length pre) + 1) with (Z.of_nat (length (pre ++ [t])))
    by (rewrite length_app; simpl; lia).
  apply (token_here d (pre ++ [t]) t' rest).
  now rewrite <- app_assoc.
Qed.

Lemma token_beyond d pre t :
  caddyfile.tokens d = (pre ++ [t])%list ->
  caddyfile.token d (Z.of_nat (length pre) + 1) = None.
Proof.
  intros Ht. unfold caddyfile.token.
  destruct (Z.ltb_spec (Z.of_nat (length pre) + 1) 0); [reflexivity |].
  apply lookup_ge_None. rewrite Ht, length_app. simpl. lia.
Qed.

Lemma Val_at d t :
  caddyfile.token d (caddyfile.cursor d) = Some t ->
  caddyfile.Val d = caddyfile.Text t.
Proof. intros H. unfold caddyfile.Val. now rewrite H. Qed.

(** The argument of a directive: the token after it, on its line. *)
Lemma NextArg_line d pre k v rest :
  caddyfile.tokens d = (pre ++ k :: v :: rest)%list ->
  caddyfile.cursor d = Z.of_nat (length pre) ->
  caddyfile.File k = caddyfile.File v ->
  caddyfile.Line k + caddyfile.lineBreaks (caddyfile.Text k) = caddyfile.Line v ->
  caddyfile.Text v <> "{" ->
  caddyfile.NextArg d = (true, caddyfile.set_cursor (caddyfile.cursor d + 1) d)
  /\ caddyfile.Val (caddyfile.set_cursor (caddyfile.cursor d + 1) d)
     = caddyfile.Text v.
Proof.
  intros Ht Hc Hfile Hline Hbrace. apply String.eqb_neq in Hbrace.
  assert (Hval : caddyfile.Val (caddyfile.set_cursor (caddyfile.cursor d + 1) d)
                 = caddyfile.Text v).
  { apply Val_at. simpl. rewrite Hc.
    apply (token_after (caddyfile.set_cursor _ d) pre k v rest). exact Ht. }
  split; [| exact Hval].
  unfold caddyfile.NextArg.
  rewrite (nextOnSameLine_next d k v).
  - rewrite Hfile, String.eqb_refl, Hline, Z.eqb_refl. simpl.
    now rewrite Hval, Hbrace.
  - rewrite Hc. eapply token_here, Ht.
  - rewrite Hc. eapply token_after, Ht.
Qed.

Lemma assign_known PD k v m m1 :
  assign PD (k, v) m = Some m1 ->
  k <> "}" /\ k <> "{" /\ caddyfile.lineBreaks k = 0.
Proof.
  unfold assign.
  repeat match goal with
         | |- context [if String.eqb ?a ?b then _ else _] =>
             destruct (String.eqb_spec a b) as [-> |]
         end; try discriminate; intros _; repeat split; discriminate.
Qed.

(** The switch on a line with a meaning: the field is assigned and the
    cursor is on the argument. *)
Lemma switch_line PD d pre file line k v rest m m1 :
  caddyfile.tokens d = (pre ++ tok file line k :: tok file line v :: rest)%list ->
  caddyfile.cursor d = Z.of_nat (length pre) ->
  v <> "{" -> assign PD (k, v) m = Some m1 ->
  switch PD d m = (caddyfile.set_cursor (caddyfile.cursor d + 1) d, m1, None).
Proof.
  intros Ht Hc Hbrace Hassign.
  destruct (assign_known PD k v m m1 Hassign) as (_ & _ & Hbreaks).
  destruct (NextArg_line d pre (tok file line k) (tok file line v) rest Ht Hc
              eq_refl)
    as [Harg Hval]; [simpl; rewrite Hbreaks; lia | exact Hbrace |].
  simpl in Hval.
  assert (Hname : caddyfile.Val d = k).
  { rewrite (Val_at d (tok file line k)); [reflexivity |].
    rewrite Hc. eapply token_here, Ht. }
  unfold switch, stringArg, durationArg, caddyfile.Args1.
  rewrite Hname, Harg, Hval. unfold assign in Hassign.
  repeat match goal with
         | |- context [if String.eqb k ?b then _ else _] =>
             destruct (String.eqb k b)
         end;
    try discriminate; simpl;
    try (injection Hassign as <-; reflexivity).
  - destruct (strconv.Atoi v) as [i [e |]]; [discriminate |].
    injection Hassign as <-. reflexivity.
  - destruct (PD v) as [dur [e |]]; [discriminate |].
    injection Hassign as <-. reflexivity.
  - destruct (PD v) as [dur [e |]]; [discriminate |].
    injection Hassign as <-. reflexivity.
Qed.

(** [NextBlock] inside the block, before a line. *)
Lemma NextBlock_line d pre t rest :
  caddyfile.nesting d = 1 ->
  caddyfile.tokens d = (pre ++ t :: rest)%list ->
  caddyfile.cursor d = Z.of_nat (length pre) - 1 ->
  caddyfile.Text t <> "}" -> caddyfile.Text t <> "{" ->
  caddyfile.NextBlock 0 d
  = (true, caddyfile.set_cursor (caddyfile.cursor d + 1) d).
Proof.
  intros Hn Ht Hc Hclose Hopen.
  apply String.eqb_neq in Hclose, Hopen.
  assert (Hnext : caddyfile.token d (caddyfile.cursor d + 1) = Some t).
  { rewrite Hc. replace (Z.of_nat (length pre) - 1 + 1)
      with (Z.of_nat (length pre)) by lia. eapply token_here, Ht. }
  unfold caddyfile.NextBlock. rewrite Hn. simpl.
  rewrite (Next_some d t Hnext). simpl.
  unfold caddyfile.braceEndsLine.
  rewrite (Val_at (caddyfile.set_cursor (caddyfile.cursor d + 1) d) t Hnext).
  rewrite Hclose. simpl.
  rewrite (Val_at (caddyfile.set_cursor (caddyfile.cursor d + 1) d) t Hnext).
  rewrite Hopen. simpl. now rewrite Hn.
Qed.

(** [NextBlock] inside the block, before its closing brace, the last
    token. *)
Lemma NextBlock_close d pre t :
  caddyfile.nesting d = 1 ->
  caddyfile.tokens d = (pre ++ [t])%list ->
  caddyfile.cursor d = Z.of_nat (length pre) - 1 ->
  caddyfile.Text t = "}" ->
  caddyfile.NextBlock 0 d
  = (false,
     caddyfile.set_nesting 0 (caddyfile.set_cursor (caddyfile.cursor d + 1) d)).
Proof.
  intros Hn Ht Hc Hclose.
  assert (Hnext : caddyfile.token d (caddyfile.cursor d + 1) = Some t).
  { rewrite Hc. replace (Z.of_nat (length pre) - 1 + 1)
      with (Z.of_nat (length pre)) by lia. eapply token_here, Ht. }
  unfold caddyfile.NextBlock. rewrite Hn. simpl.
  rewrite (Next_some d t Hnext). simpl.
  unfold caddyfile.braceEndsLine.
  rewrite (Val_at (caddyfile.set_cursor (caddyfile.cursor d + 1) d) t Hnext).
  rewrite Hclose. simpl.
  rewrite nextOnSameLine_end.
  - simpl. now rewrite Hn.
  - simpl. lia.
  - simpl. rewrite Hc.
    replace (Z.of_nat (length pre) - 1 + 1 + 1)
      with (Z.of_nat (length pre) + 1) by lia.
    apply (token_beyond (caddyfile.set_cursor _ d) pre t). exact Ht.
Qed.

Lemma bodyTokens_length file : forall lines line,
  length (bodyTokens file line lines) = (2 * length lines + 1)%nat.
Proof.
  induction lines as [| [k v] lines IH]; intros line; simpl; [reflexivity |].
  rewrite IH. lia.
Qed.

Lemma blocks_lines PD file : forall lines line pre d m m' fuel,
  assignAll PD lines m = Some m' ->
  Forall (fun kv => snd kv <> "{") lines ->
  caddyfile.tokens d = (pre ++ bodyTokens file line lines)%list ->
  caddyfile.cursor d = Z.of_nat (length pre) - 1 ->
  caddyfile.nesting d = 1 ->
  (length lines < fuel)%nat ->
  blocks PD fuel d m
  = Some (m', caddyfile.set_nesting 0
                (caddyfile.set_cursor (caddyfile.size d - 1) d), None).
Proof.
  induction lines as [| [k v] lines IH];
    intros line pre d m m' fuel Hall Hbrace Ht Hc Hn Hfuel;
    (destruct fuel as [| fuel]; [simpl in Hfuel; lia |]).
  - simpl in Hall. injection Hall as <-.
    rewrite (blocks_stop PD fuel d _ m
               (NextBlock_close d pre _ Hn Ht Hc eq_refl)).
    replace (caddyfile.size d - 1) with (caddyfile.cursor d + 1);
      [reflexivity |].
    unfold caddyfile.size. rewrite Ht, length_app. simpl. lia.
  - cbn [assignAll] in Hall.
    destruct (assign PD (k, v) m) as [m1 |] eqn:Hassign; [| discriminate].
    destruct (assign_known PD k v m m1 Hassign) as (Hclose & Hopen & _).
    inversion Hbrace as [| ? ? Hv Hrest]; subst. simpl in Hv, Ht.
    pose proof (NextBlock_line d pre (tok file line k) _ Hn Ht Hc Hclose Hopen)
      as Hblock.
    set (d1 := caddyfile.set_cursor (caddyfile.cursor d + 1) d) in *.
    assert (Hc1 : caddyfile.cursor d1 = Z.of_nat (length pre))
      by (simpl; lia).
    pose proof (switch_line PD d1 pre file line k v _ m m1 Ht Hc1 Hv Hassign)
      as Hswitch.
    rewrite (blocks_go PD fuel d d1 _ m m1 Hblock Hswitch).
    rewrite (IH (line + 1) (pre ++ [tok file line k; tok file line v])%list
               _ m1 m' fuel Hall Hrest).
    + reflexivity.
    + simpl. rewrite Ht, <- app_assoc. reflexivity.
    + simpl. rewrite length_app. simpl. lia.
    + exact Hn.
    + simpl in Hfuel. lia.
Qed.

(** X19: a block of one directive per line means what its lines mean.
    For a block [geo_ip {], lines of a directive and one argument each,
    and [}], where every directive is one of the seven, no argument is
    "{", and the numbers and durations parse, [UnmarshalCaddyfile] returns
    no error and the handler with the fields assigned line by line, a
    later line overwriting an earlier one; the cursor ends on the closing
    brace, outside the block. *)
Theorem UnmarshalCaddyfile_reads_lines PD file line lines m m' :
  assignAll PD lines m = Some m' ->
  Forall (fun kv => snd kv <> "{") lines ->
  let d := caddyfile.NewDispenser (blockTokens file line lines) in
  UnmarshalCaddyfile PD d m
  = Some (m', caddyfile.set_cursor (caddyfile.size d - 1) d, None).
Proof.
  intros Hall Hbrace d.
  set (d0 := caddyfile.set_cursor 0 d).
  assert (Harg : caddyfile.NextArg d = (true, d0)) by reflexivity.
  unfold UnmarshalCaddyfile. rewrite Harg.
  replace (length (caddyfile.tokens d0) + 2)%nat
    with (S (S (length (caddyfile.tokens d0)))) by lia.
  assert (Hnext : caddyfile.nextOnSameLine d0
                  = (true, caddyfile.set_cursor 1 d)).
  { rewrite (nextOnSameLine_next d0 (tok file line "geo_ip") (tok file line "{"))
      by reflexivity.
    simpl. now rewrite String.eqb_refl, Z.add_0_r, Z.eqb_refl. }
  destruct lines as [| [k v] lines].
  - simpl in Hall. injection Hall as <-.
    apply blocks_stop. unfold caddyfile.NextBlock.
    change (caddyfile.nesting d0 >? 0) with false. cbv iota.
    rewrite Hnext. reflexivity.
  - cbn [assignAll] in Hall.
    destruct (assign PD (k, v) m) as [m1 |] eqn:Hassign; [| discriminate].
    destruct (assign_known PD k v m m1 Hassign) as (Hclose & _ & _).
    apply String.eqb_neq in Hclose.
    inversion Hbrace as [| ? ? Hv Hrest]; subst. simpl in Hv.
    set (d2 := caddyfile.set_nesting 1 (caddyfile.set_cursor 2 d)).
    assert (Hblock : caddyfile.NextBlock 0 d0 = (true, d2)).
    { unfold caddyfile.NextBlock.
      change (caddyfile.nesting d0 >? 0) with false. cbv iota.
      rewrite Hnext. cbn -[String.eqb].
      change (caddyfile.Val (caddyfile.set_cursor 1 d)) with "{".
      rewrite String.eqb_refl. cbn -[String.eqb].
      rewrite (Next_some (caddyfile.set_cursor 1 d) (tok file (line + 1) k))
        by reflexivity.
      change (caddyfile.Val
                (caddyfile.set_cursor
                   (caddyfile.cursor (caddyfile.set_cursor 1 d) + 1)
                   (caddyfile.set_cursor 1 d))) with k.
      rewrite Hclose. reflexivity. }
    pose proof (switch_line PD d2 [tok file line "geo_ip"; tok file line "{"]
                  file (line + 1) k v _ m m1 eq_refl eq_refl Hv Hassign)
      as Hswitch.
    rewrite (blocks_go PD _ d0 d2 _ m m1 Hblock Hswitch).
    rewrite (blocks_lines PD file lines (line + 1 + 1)
               [tok file line "geo_ip"; tok file line "{";
                tok file (line + 1) k; tok file (line + 1) v]
               _ m1 m' _ Hall Hrest);
      [reflexivity | reflexivity | reflexivity | reflexivity |].
    simpl. rewrite bodyTokens_length. lia.
Qed.

Lemma UnmarshalCaddyfile_reads_lines_witness :
  let d := caddyfile.NewDispenser (blockTokens "Caddyfile" 1 testLines) in
  UnmarshalCaddyfile wholeHours d zeroGeoIP
  = Some (testHandler, caddyfile.set_cursor (caddyfile.size d - 1) d, None).
Proof.
  apply (UnmarshalCaddyfile_reads_lines wholeHours "Caddyfile" 1 testLines
           zeroGeoIP testHandler).
  - vm_compute; reflexivity.
  - repeat constructor; discriminate.
Defined.

(** *** Directives that the switch does not know *)

Lemma switch_unknown PD d m :
  caddyfile.Val d ∉ directives -> switch PD d m = (d, m, None).
Proof.
  unfold directives. intros Hnot.
  repeat (apply not_elem_of_cons in Hnot;
          destruct Hnot as [?%String.eqb_neq Hnot]).
  unfold switch.
  repeat match goal with
         | H : String.eqb _ _ = false |- _ => rewrite H; clear H
         end.
  reflexivity.
Qed.

(** X20: a directive that the switch does not know is passed over
    without an error, and its argument is not passed over with it: the
    next turn of the loop takes the argument for a directive.  Inside the
    block, before an unknown token followed by a token that is no brace,
    two turns of the loop are the switch on the second token. *)
Theorem unknown_directive_argument_read_as_directive PD d pre k v rest m fuel :
  caddyfile.tokens d = (pre ++ k :: v :: rest)%list ->
  caddyfile.cursor d = Z.of_nat (length pre) - 1 ->
  caddyfile.nesting d = 1 ->
  caddyfile.Text k ∉ directives ->
  caddyfile.Text k <> "{" -> caddyfile.Text k <> "}" ->
  caddyfile.Text v <> "{" -> caddyfile.Text v <> "}" ->
  blocks PD (S (S fuel)) d m
  = match switch PD (caddyfile.set_cursor (caddyfile.cursor d + 2) d) m with
    | (d', m', Some e) => Some (m', d', Some e)
    | (d', m', None) => blocks PD fuel d' m'
    end.
Proof.
  intros Ht Hc Hn Hk Hk1 Hk2 Hv1 Hv2.
  pose proof (NextBlock_line d pre k _ Hn Ht Hc Hk2 Hk1) as Hblock.
  set (d1 := caddyfile.set_cursor (caddyfile.cursor d + 1) d) in *.
  assert (Hval : caddyfile.Val d1 = caddyfile.Text k).
  { apply Val_at. simpl. rewrite Hc.
    replace (Z.of_nat (length pre) - 1 + 1) with (Z.of_nat (length pre)) by lia.
    eapply (token_here d1), Ht. }
  assert (Hswitch : switch PD d1 m = (d1, m, None))
    by (apply switch_unknown; now rewrite Hval).
  rewrite (blocks_go PD (S fuel) d d1 d1 m m Hblock Hswitch).
  assert (Hblock1 : caddyfile.NextBlock 0 d1
                    = (true, caddyfile.set_cursor (caddyfile.cursor d1 + 1) d1)).
  { apply (NextBlock_line d1 (pre ++ [k]) v rest); auto.
    - simpl. rewrite Ht, <- app_assoc. reflexivity.
    - simpl. rewrite length_app. simpl. lia. }
  replace (caddyfile.set_cursor (caddyfile.cursor d + 2) d)
    with (caddyfile.set_cursor (caddyfile.cursor d1 + 1) d1)
    by (unfold caddyfile.set_cursor; simpl; f_equal; lia).
  simpl. rewrite Hblock1, turn_switch. reflexivity.
Qed.

Lemma unknown_directive_argument_read_as_directive_witness :
  blocks wholeHours 6
    (caddyfile.set_nesting 1 (caddyfile.set_cursor 1 strayDirective)) zeroGeoIP
  = match
      switch wholeHours
        (caddyfile.set_cursor
           (caddyfile.cursor
              (caddyfile.set_nesting 1 (caddyfile.set_cursor 1 strayDirective))
            + 2)
           (caddyfile.set_nesting 1 (caddyfile.set_cursor 1 strayDirective)))
        zeroGeoIP
    with
    | (d', m', Some e) => Some (m', d', Some e)
    | (d', m', None) => blocks wholeHours 4 d' m'
    end.
Proof.
  apply (unknown_directive_argument_read_as_directive wholeHours
           (caddyfile.set_nesting 1 (caddyfile.set_cursor 1 strayDirective))
           [word 1 "geo_ip"; word 1 "{"] (word 2 "log") (word 2 "db_path")
           [word 3 "}"] zeroGeoIP 4).
  - reflexivity.
  - reflexivity.
  - reflexivity.
  - unfold directives. simpl. intros H.
    repeat (apply elem_of_cons in H; destruct H as [H | H];
            [discriminate H |]).
    inversion H.
  - discriminate.
  - discriminate.
  - discriminate.
  - discriminate.
Defined.

Example stray_argument_fails :
  parseCaddyfile wholeHours strayDirective
  = Some (zeroGeoIP,
          Some "Caddyfile:2 - Error during parsing: Missing db path").
Proof. vm_compute; reflexivity. Qed.

(** ** The process stays in good order *)






Lemma logged_sound e w : sound w -> sound (with_trace (e :: trace w) w).
Proof. exact (fun H => H). Qed.

















